(** * Verification of the DHL transport optimisation model builder

    A shallow embedding of [optimization.py] (class [DHL_Optimization]):
    shift-time normalisation, the construction of the decision variables
    ([initialize_model]), the generation of the six constraint families
    ([add_constraints]) and the extraction step ([solve]).

    Numbers: pandas/Gurobi floats are modelled as exact rationals ([Q]);
    the mixed-integer solver itself is external and is represented by its
    outcome (a status and, possibly, a value for every variable); of the
    file system, the directory [output] and the file [output/output.csv]
    that [solve] writes are represented. *)

From Stdlib Require Import List ZArith QArith Qround Lia Lqa String Bool Arith.
Import ListNotations.

Set Implicit Arguments.

(** Python integers. (The optimizer object has an attribute called [Z],
    so the type of integers is referred to as [int] throughout.) *)
Abbreviation int := BinNums.Z (only parsing).

(* ================================================================== *)
(** * Keys, ordered dictionaries *)
(* ================================================================== *)

(** Python compares dictionary keys and tuple members with [==]. *)
Class Key (K : Type) := key_eqb : K -> K -> bool.

#[export] Instance Key_nat : Key nat := Nat.eqb.
#[export] Instance Key_int : Key int := Z.eqb.
#[export] Instance Key_string : Key string := String.eqb.
#[export] Instance Key_prod {A B} `{Key A} `{Key B} : Key (A * B) :=
  fun p q => key_eqb (fst p) (fst q) && key_eqb (snd p) (snd q).

(** The comparison decides equality. *)
Class KeyOk (K : Type) {HK : Key K} :=
  key_eqb_spec : forall a b : K, key_eqb a b = true <-> a = b.
Arguments KeyOk K {HK}.

(** [x in xs] on a Python list. *)
Definition member {K} `{Key K} (x : K) (xs : list K) : bool :=
  existsb (key_eqb x) xs.

(** A Python [dict]: insertion ordered, assignment to an existing key
    replaces the value in place. *)
Definition dict (K V : Type) := list (K * V).

Fixpoint dict_get {K V} `{Key K} (d : dict K V) (k : K) : option V :=
  match d with
  | [] => None
  | (k', v) :: r => if key_eqb k k' then Some v else dict_get r k
  end.

Fixpoint dict_set {K V} `{Key K} (d : dict K V) (k : K) (v : V) : dict K V :=
  match d with
  | [] => [(k, v)]
  | (k', v') :: r =>
      if key_eqb k k' then (k', v) :: r else (k', v') :: dict_set r k v
  end.

Definition dict_keys {K V} (d : dict K V) : list K := map fst d.

(** [range(a, b)] *)
Definition range (a b : int) : list int :=
  map (fun n => (a + Z.of_nat n)%Z) (seq 0 (Z.to_nat (b - a))).

(* ================================================================== *)
(** * The input tables *)
(* ================================================================== *)

(** A pandas timestamp / [datetime.time]; only the fields the program
    reads. *)
Record Timestamp := mkTimestamp { hour : int; minute : int }.

Definition valid_time (t : Timestamp) : Prop :=
  (0 <= hour t <= 23)%Z /\ (0 <= minute t <= 59)%Z.

(** Sheet "PZA": one row per consignment. *)
Record source_row := mkSource {
  id : int;
  src_Origin_ID : string;
  src_Destination_ID : string;
  planned_end_of_loading : Timestamp;
  Consignment_quantity : Q
}.

(** Sheet "PZE" as read from the file: the shift columns are times. *)
Record raw_destination_row := mkRawDestination {
  raw_Destination_ID : string;
  raw_Start_of_shift : Timestamp;
  raw_End_of_lay_on : Timestamp;
  raw_Sorting_capacity : Q
}.

(** Sheet "PZE" after [normalize_shift_times]: the shift columns are
    fractional hours. *)
Record destination_row := mkDestination {
  Destination_ID : string;
  Start_of_shift : Q;
  End_of_lay_on : Q;
  Sorting_capacity : Q
}.

(** Sheet "Truck": the lane table. *)
Record trucking_row := mkTrucking {
  trk_Origin_ID : string;
  trk_Destination_ID : string;
  OSRM_time : Q   (* column 'OSRM_time [sek]' *)
}.

(* ================================================================== *)
(** * Gurobi models *)
(* ================================================================== *)

Inductive VType := BINARY | INTEGER | CONTINUOUS.

(** Variable names; each constructor stands for one f-string of the
    source, e.g. [X_ i j k l] for [f"X_{i}_{j}_{k}_{l}"]. *)
Inductive VarName :=
| X_ (i j : string) (k : int) (l : int)
| Z_ (l : int)
| T_ (l : int)
| ArrivalTime_ (l : int)
| ArrivalDayBinary_ (l d : int)
| multiplier_ (i j : string) (k : int) (l : int).

(** [addVar(lb=..., ub=..., vtype=..., name=...)]; [ub = None] is
    Gurobi's default, infinity. *)
Record VarDecl := mkVar {
  vtype : VType;
  lb : Q;
  ub : option Q;
  vname : VarName
}.

(** Expressions over variables (a variable is its index in the model). *)
#[warnings="-register-all"]
Inductive expr :=
| Const (c : Q)
| Var (v : nat)
| Add (a b : expr)
| Sub (a b : expr)
| Mul (a b : expr)
| quicksum (es : list expr).

Inductive Sense := LE | GE | EQ.

Inductive ConstrName :=
| SortingCapacity_ (j : string) (d : int)
| Assigning_Arrival_Day_to_each_used_truck.

Record Constr := mkConstr {
  c_lhs : expr;
  c_sense : Sense;
  c_rhs : expr;
  c_name : option ConstrName
}.

Inductive ObjSense := MINIMIZE | MAXIMIZE.

Record Model := mkModel {
  vars : list VarDecl;
  constrs : list Constr;
  objective : option (expr * ObjSense);
  TimeLimit : option Q
}.

(** [Model("DHL_Optimization")] *)
Definition new_Model : Model := mkModel [] [] None None.

(** ** Semantics: assignments and feasibility *)

Definition assignment := nat -> Q.

Fixpoint Qsum (qs : list Q) : Q :=
  match qs with
  | [] => 0
  | q :: r => q + Qsum r
  end%Q.

Fixpoint eval (s : assignment) (e : expr) : Q :=
  match e with
  | Const c => c
  | Var v => s v
  | Add a b => eval s a + eval s b
  | Sub a b => eval s a - eval s b
  | Mul a b => eval s a * eval s b
  | quicksum es => Qsum (map (eval s) es)
  end%Q.

Definition holds (s : assignment) (c : Constr) : Prop :=
  match c_sense c with
  | LE => eval s (c_lhs c) <= eval s (c_rhs c)
  | GE => eval s (c_rhs c) <= eval s (c_lhs c)
  | EQ => eval s (c_lhs c) == eval s (c_rhs c)
  end%Q.

Definition is_binary (q : Q) : Prop := (q == 0 \/ q == 1)%Q.
Definition is_integer (q : Q) : Prop := exists z : int, (q == inject_Z z)%Q.

Definition respects (d : VarDecl) (q : Q) : Prop :=
  (lb d <= q)%Q /\
  match ub d with Some u => (q <= u)%Q | None => True end /\
  match vtype d with
  | BINARY => is_binary q
  | INTEGER => is_integer q
  | CONTINUOUS => True
  end.

Definition feasible (m : Model) (s : assignment) : Prop :=
  (forall v d, nth_error (vars m) v = Some d -> respects d (s v)) /\
  Forall (holds s) (constrs m).

(** Executable versions, for checking a candidate assignment. *)
Definition holdsb (s : assignment) (c : Constr) : bool :=
  match c_sense c with
  | LE => Qle_bool (eval s (c_lhs c)) (eval s (c_rhs c))
  | GE => Qle_bool (eval s (c_rhs c)) (eval s (c_lhs c))
  | EQ => Qeq_bool (eval s (c_lhs c)) (eval s (c_rhs c))
  end.

Definition respectsb (d : VarDecl) (q : Q) : bool :=
  Qle_bool (lb d) q &&
  match ub d with Some u => Qle_bool q u | None => true end &&
  match vtype d with
  | BINARY => Qeq_bool q 0 || Qeq_bool q 1
  | INTEGER => Qeq_bool q (inject_Z (Qfloor q))
  | CONTINUOUS => true
  end.

Fixpoint respects_all (ds : list VarDecl) (s : assignment) (v : nat) : bool :=
  match ds with
  | [] => true
  | d :: r => respectsb d (s v) && respects_all r s (S v)
  end.

Definition feasibleb (m : Model) (s : assignment) : bool :=
  respects_all (vars m) s 0 && forallb (holdsb s) (constrs m).

(* ================================================================== *)
(** * The optimizer object and its monad *)
(* ================================================================== *)

Definition route := (string * string)%type.
Definition combination := (string * string * int)%type.
Definition X_key := (string * string * int * int)%type.

(** The attributes of a [DHL_Optimization] instance. *)
Record DHL_Optimization := mkDHL {
  source_df : list source_row;
  destination_df : list destination_row;
  trucking_df : list trucking_row;
  model : Model;
  source_list : list string;
  destination_list : list string;
  routes_list : list route;
  consignment_list : list int;
  valid_combinations : list combination;
  trucks : list int;
  X : dict X_key nat;
  Z : dict int nat;
  T : dict int nat;
  ArrivalDay : dict int nat;
  ArrivalTime : dict int expr;
  ArrivalDayBinary : dict (int * int) nat
}.

(** [__init__], followed by the assignment of the three data frames as
    [optimization_main.py] and the test fixture do. *)
Definition new_optimizer (sdf : list source_row) (ddf : list destination_row)
    (tdf : list trucking_row) : DHL_Optimization :=
  mkDHL sdf ddf tdf new_Model [] [] [] [] [] (range 0 300) [] [] [] [] [] [].

Definition with_model (m : Model) (o : DHL_Optimization) :=
  mkDHL (source_df o) (destination_df o) (trucking_df o) m (source_list o)
    (destination_list o) (routes_list o) (consignment_list o)
    (valid_combinations o) (trucks o) (X o) (Z o) (T o) (ArrivalDay o)
    (ArrivalTime o) (ArrivalDayBinary o).
Definition with_source_df (v : list source_row) (o : DHL_Optimization) :=
  mkDHL v (destination_df o) (trucking_df o) (model o) (source_list o)
    (destination_list o) (routes_list o) (consignment_list o)
    (valid_combinations o) (trucks o) (X o) (Z o) (T o) (ArrivalDay o)
    (ArrivalTime o) (ArrivalDayBinary o).
Definition with_source_list (v : list string) (o : DHL_Optimization) :=
  mkDHL (source_df o) (destination_df o) (trucking_df o) (model o) v
    (destination_list o) (routes_list o) (consignment_list o)
    (valid_combinations o) (trucks o) (X o) (Z o) (T o) (ArrivalDay o)
    (ArrivalTime o) (ArrivalDayBinary o).
Definition with_destination_list (v : list string) (o : DHL_Optimization) :=
  mkDHL (source_df o) (destination_df o) (trucking_df o) (model o)
    (source_list o) v (routes_list o) (consignment_list o)
    (valid_combinations o) (trucks o) (X o) (Z o) (T o) (ArrivalDay o)
    (ArrivalTime o) (ArrivalDayBinary o).
Definition with_routes_list (v : list route) (o : DHL_Optimization) :=
  mkDHL (source_df o) (destination_df o) (trucking_df o) (model o)
    (source_list o) (destination_list o) v (consignment_list o)
    (valid_combinations o) (trucks o) (X o) (Z o) (T o) (ArrivalDay o)
    (ArrivalTime o) (ArrivalDayBinary o).
Definition with_consignment_list (v : list int) (o : DHL_Optimization) :=
  mkDHL (source_df o) (destination_df o) (trucking_df o) (model o)
    (source_list o) (destination_list o) (routes_list o) v
    (valid_combinations o) (trucks o) (X o) (Z o) (T o) (ArrivalDay o)
    (ArrivalTime o) (ArrivalDayBinary o).
Definition with_valid_combinations (v : list combination) (o : DHL_Optimization) :=
  mkDHL (source_df o) (destination_df o) (trucking_df o) (model o)
    (source_list o) (destination_list o) (routes_list o) (consignment_list o)
    v (trucks o) (X o) (Z o) (T o) (ArrivalDay o)
    (ArrivalTime o) (ArrivalDayBinary o).
Definition with_trucks (v : list int) (o : DHL_Optimization) :=
  mkDHL (source_df o) (destination_df o) (trucking_df o) (model o)
    (source_list o) (destination_list o) (routes_list o) (consignment_list o)
    (valid_combinations o) v (X o) (Z o) (T o) (ArrivalDay o)
    (ArrivalTime o) (ArrivalDayBinary o).
Definition with_X (v : dict X_key nat) (o : DHL_Optimization) :=
  mkDHL (source_df o) (destination_df o) (trucking_df o) (model o)
    (source_list o) (destination_list o) (routes_list o) (consignment_list o)
    (valid_combinations o) (trucks o) v (Z o) (T o) (ArrivalDay o)
    (ArrivalTime o) (ArrivalDayBinary o).
Definition with_Z (v : dict int nat) (o : DHL_Optimization) :=
  mkDHL (source_df o) (destination_df o) (trucking_df o) (model o)
    (source_list o) (destination_list o) (routes_list o) (consignment_list o)
    (valid_combinations o) (trucks o) (X o) v (T o) (ArrivalDay o)
    (ArrivalTime o) (ArrivalDayBinary o).
Definition with_T (v : dict int nat) (o : DHL_Optimization) :=
  mkDHL (source_df o) (destination_df o) (trucking_df o) (model o)
    (source_list o) (destination_list o) (routes_list o) (consignment_list o)
    (valid_combinations o) (trucks o) (X o) (Z o) v (ArrivalDay o)
    (ArrivalTime o) (ArrivalDayBinary o).
Definition with_ArrivalTime (v : dict int expr) (o : DHL_Optimization) :=
  mkDHL (source_df o) (destination_df o) (trucking_df o) (model o)
    (source_list o) (destination_list o) (routes_list o) (consignment_list o)
    (valid_combinations o) (trucks o) (X o) (Z o) (T o) (ArrivalDay o)
    v (ArrivalDayBinary o).
Definition with_ArrivalDayBinary (v : dict (int * int) nat) (o : DHL_Optimization) :=
  mkDHL (source_df o) (destination_df o) (trucking_df o) (model o)
    (source_list o) (destination_list o) (routes_list o) (consignment_list o)
    (valid_combinations o) (trucks o) (X o) (Z o) (T o) (ArrivalDay o)
    (ArrivalTime o) v.

(** Exceptions the modelled code can raise. *)
Inductive exn :=
| IndexError          (* [.values[0]] on an empty selection *)
| KeyError            (* a dictionary without the key *)
| UnboundLocalError   (* a local variable read before assignment *)
| AttributeError      (* [.X] of a variable without a solution *)
| GurobiError         (* raised by [optimize] *)
| OSError.            (* [to_csv] into a directory that does not exist *)

(** A method either returns, or raises; in both cases the object is left
    in the state reached so far. *)
Inductive result (A : Type) :=
| Ok (a : A) (self : DHL_Optimization)
| Raise (e : exn) (self : DHL_Optimization).
Arguments Raise {A} e self.

Definition M (A : Type) := DHL_Optimization -> result A.

Definition ret {A} (a : A) : M A := fun self => Ok a self.
Definition bind {A B} (m : M A) (f : A -> M B) : M B :=
  fun self => match m self with
              | Ok a self' => f a self'
              | Raise e self' => Raise e self'
              end.
Definition raise {A} (e : exn) : M A := fun self => Raise e self.
Definition gets {A} (f : DHL_Optimization -> A) : M A := fun self => Ok (f self) self.
Definition modify (f : DHL_Optimization -> DHL_Optimization) : M unit :=
  fun self => Ok tt (f self).

Declare Scope py_scope.
Delimit Scope py_scope with py.
Notation "x <- m ;; k" := (bind m (fun x => k))
  (at level 61, m at next level, right associativity) : py_scope.
Notation "m ;; k" := (bind m (fun _ => k))
  (at level 61, right associativity) : py_scope.
Local Open Scope py_scope.

(** [for x in xs: body] *)
Fixpoint forM_ {A} (xs : list A) (body : A -> M unit) : M unit :=
  match xs with
  | [] => ret tt
  | x :: r => body x ;; forM_ r body
  end.

(** A comprehension [[f x for x in xs]] whose element expression has
    effects (dictionary look-ups). *)
Fixpoint mapM {A B} (f : A -> M B) (xs : list A) : M (list B) :=
  match xs with
  | [] => ret []
  | x :: r => b <- f x ;; bs <- mapM f r ;; ret (b :: bs)
  end.

(** [d[k]] *)
Definition lookup {K V} `{Key K} (e : exn) (f : DHL_Optimization -> dict K V)
    (k : K) : M V :=
  fun self => match dict_get (f self) k with
              | Some v => Ok v self
              | None => Raise e self
              end.
Definition getX := lookup KeyError X.
Definition getZ := lookup KeyError Z.
Definition getT := lookup KeyError T.
Definition getArrivalTime := lookup KeyError ArrivalTime.
Definition getArrivalDayBinary := lookup KeyError ArrivalDayBinary.

(** [series.values[0]] *)
Definition values0 {A} (values : list A) : M A :=
  match values with
  | [] => raise IndexError
  | v :: _ => ret v
  end.

(** ** Gurobi's model-building calls *)

Definition addVar (vt : VType) (lb : Q) (ub : option Q) (name : VarName) : M nat :=
  fun self =>
    let m := model self in
    Ok (List.length (vars m))
       (with_model (mkModel (vars m ++ [mkVar vt lb ub name]) (constrs m)
                            (objective m) (TimeLimit m)) self).

Definition addConstr (lhs : expr) (sense : Sense) (rhs : expr)
    (name : option ConstrName) : M unit :=
  modify (fun self =>
    let m := model self in
    with_model (mkModel (vars m) (constrs m ++ [mkConstr lhs sense rhs name])
                        (objective m) (TimeLimit m)) self).

Definition setObjective (e : expr) (sense : ObjSense) : M unit :=
  modify (fun self =>
    let m := model self in
    with_model (mkModel (vars m) (constrs m) (Some (e, sense)) (TimeLimit m)) self).

Definition setParam_TimeLimit (t : Q) : M unit :=
  modify (fun self =>
    let m := model self in
    with_model (mkModel (vars m) (constrs m) (objective m) (Some t)) self).


(* ================================================================== *)
(** * Shift-time normalisation *)
(* ================================================================== *)

(** [time.hour + time.minute / 60] *)
Definition hours_of (t : Timestamp) : Q :=
  (inject_Z (hour t) + inject_Z (minute t) / 60)%Q.

(** [normalize(self, row)] *)
Definition normalize (row : raw_destination_row) : Q * Q :=
  let start_hour := hours_of (raw_Start_of_shift row) in
  let end_hour := hours_of (raw_End_of_lay_on row) in
  let end_hour :=
    if Qlt_le_dec end_hour start_hour then (end_hour + 24)%Q else end_hour in
  (start_hour, end_hour).

(** [normalize_shift_times]: the two shift columns of every destination
    row are replaced by the result of [normalize]. ([pd.to_datetime] on
    the loading column leaves a timestamp a timestamp.) *)
Definition normalize_shift_times (raw : list raw_destination_row)
    : list destination_row :=
  map (fun row =>
         let '(s, e) := normalize row in
         mkDestination (raw_Destination_ID row) s e (raw_Sorting_capacity row))
      raw.

(* ================================================================== *)
(** * Selections on the data frames *)
(* ================================================================== *)

(** [source_df[(Origin_ID == i) & (Destination_ID == j)]['id'].values] *)
Definition ids_on_route (df : list source_row) (i j : string) : list int :=
  map id (filter (fun r => key_eqb (src_Origin_ID r) i &&
                           key_eqb (src_Destination_ID r) j) df).

(** [source_df[source_df['id'] == k]['planned_end_of_loading'].dt.hour.values] *)
Definition release_hours (df : list source_row) (k : int) : list int :=
  map (fun r => hour (planned_end_of_loading r))
      (filter (fun r => key_eqb (id r) k) df).

(** [source_df[source_df['id'] == k]['Consignment quantity'].values] *)
Definition quantities (df : list source_row) (k : int) : list Q :=
  map Consignment_quantity (filter (fun r => key_eqb (id r) k) df).

(** [destination_df[destination_df['Destination_ID'] == j][column].values] *)
Definition destination_values {A} (column : destination_row -> A)
    (df : list destination_row) (j : string) : list A :=
  map column (filter (fun r => key_eqb (Destination_ID r) j) df).

(** [trucking_df[(Origin_ID == i) & (Destination_ID == j)]['OSRM_time [sek]'].values] *)
Definition lane_times (df : list trucking_row) (i j : string) : list Q :=
  map OSRM_time (filter (fun r => key_eqb (trk_Origin_ID r) i &&
                                  key_eqb (trk_Destination_ID r) j) df).

(* ================================================================== *)
(** * [initialize_model] *)
(* ================================================================== *)

(** [quicksum(c(d) * ArrivalDayBinary[(l, d)] for d in range(1, 7))] *)
Definition day_terms (c : int -> Q) (l : int) : M (list expr) :=
  mapM (fun d => a <- getArrivalDayBinary (l, d) ;;
                 ret (Mul (Const (c d)) (Var a)))
       (range 1 7).

Definition initialize_model (selected_sources : list string)
    (selected_destination : string) : M unit :=
  modify (with_source_list selected_sources) ;;
  modify (with_destination_list [selected_destination]) ;;
  sl <- gets source_list ;;
  dl <- gets destination_list ;;
  modify (with_routes_list
    (flat_map (fun i =>
       flat_map (fun j => if negb (key_eqb i j) then [(i, j)] else []) dl) sl)) ;;
  rl <- gets routes_list ;;
  sdf <- gets source_df ;;
  modify (with_consignment_list
    (flat_map (fun '(i, j) => ids_on_route sdf i j) rl)) ;;
  cl <- gets consignment_list ;;
  modify (with_valid_combinations
    (flat_map (fun '(i, j) =>
       flat_map (fun k => if member k (ids_on_route sdf i j)
                          then [(i, j, k)] else []) cl) rl)) ;;
  modify (with_trucks (range 0 300)) ;;
  vc <- gets valid_combinations ;;
  tr <- gets trucks ;;
  forM_ (flat_map (fun '(i, j, k) => map (fun l => (i, j, k, l)) tr) vc)
    (fun '(i, j, k, l) =>
       v <- addVar BINARY 0 None (X_ i j k l) ;;
       modify (fun self => with_X (dict_set (X self) (i, j, k, l) v) self)) ;;
  forM_ tr
    (fun l =>
       v <- addVar BINARY 0 None (Z_ l) ;;
       modify (fun self => with_Z (dict_set (Z self) l v) self) ;;
       v <- addVar CONTINUOUS 0 None (T_ l) ;;
       modify (fun self => with_T (dict_set (T self) l v) self) ;;
       v <- addVar CONTINUOUS 0 (Some 24%Q) (ArrivalTime_ l) ;;
       modify (fun self =>
                 with_ArrivalTime (dict_set (ArrivalTime self) l (Var v)) self) ;;
       forM_ (range 1 7)
         (fun d =>
            v <- addVar BINARY 0 None (ArrivalDayBinary_ l d) ;;
            modify (fun self =>
              with_ArrivalDayBinary
                (dict_set (ArrivalDayBinary self) (l, d) v) self))) ;;
  terms <- mapM (fun l => z <- getZ l ;;
                          ds <- day_terms inject_Z l ;;
                          ret (Mul (Var z) (quicksum ds))) tr ;;
  setObjective (quicksum terms) MINIMIZE.

(* ================================================================== *)
(** * [add_constraints] *)
(* ================================================================== *)

(** 1. Each truck can carry at most 2 consignments. *)
Definition capacity_constraints : M unit :=
  tr <- gets trucks ;;
  vc <- gets valid_combinations ;;
  forM_ tr (fun l =>
    xs <- mapM (fun '(i, j, k) => x <- getX (i, j, k, l) ;; ret (Var x)) vc ;;
    z <- getZ l ;;
    addConstr (quicksum xs) LE (Mul (Const 2) (Var z)) None).

(** 2. Release time. *)
Definition release_constraints : M unit :=
  tr <- gets trucks ;;
  vc <- gets valid_combinations ;;
  forM_ vc (fun '(i, j, k) =>
    sdf <- gets source_df ;;
    release_time <- values0 (release_hours sdf k) ;;
    forM_ tr (fun l =>
      t <- getT l ;;
      x <- getX (i, j, k, l) ;;
      addConstr (Var t) GE (Mul (Const (inject_Z release_time)) (Var x)) None)).

(** The expression stored in [ArrivalTime[l]] by the third family. *)
Definition arrival_expr (t x : nat) (travel_time : Q) (ds : list expr) (m : nat)
    : expr :=
  Sub (Add (Add (Var t) (Mul (Const travel_time) (Var x)))
           (Mul (Const 24) (quicksum ds)))
      (Mul (Const 24) (Var m)).

(** 3. Arrival within the operational hours of the destination. *)
Definition window_constraints : M unit :=
  tr <- gets trucks ;;
  vc <- gets valid_combinations ;;
  forM_ vc (fun '(i, j, k) =>
    ddf <- gets destination_df ;;
    start_shift <- values0 (destination_values Start_of_shift ddf j) ;;
    ddf <- gets destination_df ;;
    end_shift <- values0 (destination_values End_of_lay_on ddf j) ;;
    tdf <- gets trucking_df ;;
    seconds <- values0 (lane_times tdf i j) ;;
    let travel_time := (seconds / 3600)%Q in
    forM_ tr (fun l =>
      t <- getT l ;;
      x <- getX (i, j, k, l) ;;
      ds <- day_terms (fun d => inject_Z (d - 1)) l ;;
      m <- addVar INTEGER 0 None (multiplier_ i j k l) ;;
      modify (fun self =>
        with_ArrivalTime
          (dict_set (ArrivalTime self) l (arrival_expr t x travel_time ds m))
          self) ;;
      a <- getArrivalTime l ;;
      addConstr a GE (Const start_shift) None ;;
      a <- getArrivalTime l ;;
      addConstr a LE (Const end_shift) None)).

(** 4. Each consignment is assigned to exactly one truck. *)
Definition assignment_constraints : M unit :=
  tr <- gets trucks ;;
  vc <- gets valid_combinations ;;
  forM_ vc (fun '(i, j, k) =>
    vc' <- gets valid_combinations ;;
    terms <- mapM (fun l => x <- getX (i, j, k, l) ;;
                            z <- getZ l ;;
                            ret (Mul (Var x) (Var z)))
                  (filter (fun _ => member (i, j, k) vc') tr) ;;
    addConstr (quicksum terms) EQ (Const 1) None).

(** 5. Sorting capacity of the destination per day. *)
Definition sorting_constraints : M unit :=
  dl <- gets destination_list ;;
  forM_ dl (fun j =>
    ddf <- gets destination_df ;;
    e <- values0 (destination_values End_of_lay_on ddf j) ;;
    s <- values0 (destination_values Start_of_shift ddf j) ;;
    let working_hours := (e - s)%Q in
    c <- values0 (destination_values Sorting_capacity ddf j) ;;
    let sorting_capacity_per_day := (working_hours / 2 * c)%Q in
    forM_ (range 1 7) (fun d =>
      sl <- gets source_list ;;
      cl <- gets consignment_list ;;
      tr <- gets trucks ;;
      vc <- gets valid_combinations ;;
      sdf <- gets source_df ;;
      terms <-
        mapM (fun '(i, k, l) =>
                x <- getX (i, j, k, l) ;;
                q <- values0 (quantities sdf k) ;;
                a <- getArrivalDayBinary (l, d) ;;
                ret (Mul (Mul (Var x) (Const q)) (Var a)))
             (flat_map (fun i =>
                if negb (key_eqb j i) then
                  flat_map (fun k =>
                    flat_map (fun l =>
                      if member (i, j, k) vc then [(i, k, l)] else []) tr) cl
                else []) sl) ;;
      addConstr (quicksum terms) LE (Const sorting_capacity_per_day)
                (Some (SortingCapacity_ j d)))).

(** 6. Assigning arrival day to each used truck. *)
Definition arrival_day_constraints : M unit :=
  tr <- gets trucks ;;
  forM_ tr (fun l =>
    terms <- mapM (fun d => a <- getArrivalDayBinary (l, d) ;;
                            z <- getZ l ;;
                            ret (Mul (Var a) (Var z)))
                  (range 1 7) ;;
    addConstr (quicksum terms) EQ (Const 1)
              (Some Assigning_Arrival_Day_to_each_used_truck)).

Definition add_constraints : M unit :=
  capacity_constraints ;;
  release_constraints ;;
  window_constraints ;;
  assignment_constraints ;;
  sorting_constraints ;;
  arrival_day_constraints.

(** The build as [optimization_main.py] runs it. *)
Definition build (selected_sources : list string) (selected_destination : string)
    : M unit :=
  initialize_model selected_sources selected_destination ;;
  add_constraints.

(* ================================================================== *)
(** * [solve] *)
(* ================================================================== *)

(** Gurobi's optimisation status codes. *)
Inductive Status :=
| LOADED | OPTIMAL | INFEASIBLE | INF_OR_UNBD | UNBOUNDED | CUTOFF
| ITERATION_LIMIT | NODE_LIMIT | TIME_LIMIT | SOLUTION_LIMIT | INTERRUPTED
| NUMERIC | SUBOPTIMAL | INPROGRESS | USER_OBJ_LIMIT.

Definition Status_eqb (a b : Status) : bool :=
  match a, b with
  | LOADED, LOADED | OPTIMAL, OPTIMAL | INFEASIBLE, INFEASIBLE
  | INF_OR_UNBD, INF_OR_UNBD | UNBOUNDED, UNBOUNDED | CUTOFF, CUTOFF
  | ITERATION_LIMIT, ITERATION_LIMIT | NODE_LIMIT, NODE_LIMIT
  | TIME_LIMIT, TIME_LIMIT | SOLUTION_LIMIT, SOLUTION_LIMIT
  | INTERRUPTED, INTERRUPTED | NUMERIC, NUMERIC | SUBOPTIMAL, SUBOPTIMAL
  | INPROGRESS, INPROGRESS | USER_OBJ_LIMIT, USER_OBJ_LIMIT => true
  | _, _ => false
  end.

#[export] Instance Key_Status : Key Status := Status_eqb.

(** What [model.optimize()] leaves behind: it raises, or it sets
    [model.status] and, when it found one, a solution. *)
Inductive Outcome :=
| Failed
| Finished (status : Status) (solution : option assignment).

(** One record of the result table. *)
Record result_row := mkRow {
  Origin_PZA : string;
  Destination_PZE : string;
  Consignment_ID : int;
  Truck_Id : int;
  Departure_time : Q;
  Arrival_Day : Q;
  Destination_Start_Shift : Q;
  Destination_End_Shift : Q;
  Travel_Time : Q
}.

(** [var.X] *)
Definition value (solution : option assignment) (v : nat) : M Q :=
  match solution with
  | Some s => ret (s v)
  | None => raise AttributeError
  end.

(** The part of the file system [solve] touches: whether the directory
    [output] exists in the working directory, and the table held by the
    file [output/output.csv], if there is one. *)
Record FileSystem := mkFileSystem {
  output_dir : bool;
  output_csv : option (list result_row)
}.

(** [df.to_csv("output/output.csv")]: pandas raises [OSError] when the
    directory does not exist; otherwise the file is created or
    replaced. *)
Definition to_csv (df : list result_row) (fs : FileSystem) : M FileSystem :=
  if output_dir fs then ret (mkFileSystem true (Some df))
  else raise OSError.

Section Solve.

(** The external solver. *)
Variable optimize : Model -> Outcome.

(** The body of the loop over [self.X.keys()]: the rows it appends. *)
Definition extract_row (solution : option assignment) (key : X_key)
    : M (list result_row) :=
  let '(i, j, k, l) := key in
  z <- getZ l ;;
  zv <- value solution z ;;
  used <- (if Qeq_bool zv 1 then
             x <- getX (i, j, k, l) ;;
             xv <- value solution x ;;
             ret (Qeq_bool xv 1)
           else ret false) ;;
  if (used : bool) then
    ddf <- gets destination_df ;;
    start_shift <- values0 (destination_values Start_of_shift ddf j) ;;
    ddf <- gets destination_df ;;
    end_shift <- values0 (destination_values End_of_lay_on ddf j) ;;
    tdf <- gets trucking_df ;;
    seconds <- values0 (lane_times tdf i j) ;;
    let travel_time := (seconds / 3600)%Q in
    days <- mapM (fun d => a <- getArrivalDayBinary (l, d) ;;
                           av <- value solution a ;;
                           ret (inject_Z d * av)%Q) (range 1 7) ;;
    let arrival := Qsum days in
    t <- getT l ;;
    tv <- value solution t ;;
    ret [mkRow i j k l tv arrival start_shift end_shift travel_time]
  else ret [].

(** [solve], run on the file system [fs]; the value returned is the
    table handed to [st.dataframe(df_out)], with the file system as the
    call leaves it. The local variable [df_out] is [None] while
    unbound. *)
Definition solve (fs : FileSystem) : M (list result_row * FileSystem) :=
  setParam_TimeLimit 300 ;;
  m <- gets model ;;
  match optimize m with
  | Failed => raise GurobiError
  | Finished status solution =>
      out <-
        (if member status [OPTIMAL; TIME_LIMIT; SUBOPTIMAL] then
           keys <- gets (fun self => dict_keys (X self)) ;;
           data <- mapM (extract_row solution) keys ;;
           let df_out := List.concat data in
           fs' <- to_csv df_out fs ;;
           ret (Some df_out, fs')
         else
           ret (None, fs)) ;;
      match out with
      | (Some df_out, fs') => ret (df_out, fs')
      | (None, _) => raise UnboundLocalError
      end
  end.

End Solve.

(* ================================================================== *)
(** * A small instance *)
(* ================================================================== *)

Local Open Scope string_scope.

(** One consignment, released at 08:59, from "A" to "B"; destination
    shift 07:00 to 19:00; lane time one hour. (A second destination, "C",
    works overnight, 22:00 to 06:30.) *)
Definition ex_source_df : list source_row :=
  [mkSource 7 "A" "B" (mkTimestamp 8 59) 100].

Definition ex_raw_destination_df : list raw_destination_row :=
  [mkRawDestination "B" (mkTimestamp 7 0) (mkTimestamp 19 0) 20;
   mkRawDestination "C" (mkTimestamp 22 0) (mkTimestamp 6 30) 25].

Definition ex_destination_df : list destination_row :=
  normalize_shift_times ex_raw_destination_df.

Definition ex_trucking_df : list trucking_row :=
  [mkTrucking "A" "B" 3600].

Definition ex_optimizer : DHL_Optimization :=
  new_optimizer ex_source_df ex_destination_df ex_trucking_df.

(** The same selection with an empty manifest and an empty lane table,
    and with the manifest but without the lane. *)
Definition ex_empty_optimizer : DHL_Optimization :=
  new_optimizer [] ex_destination_df [].

Definition ex_no_lane_optimizer : DHL_Optimization :=
  new_optimizer ex_source_df ex_destination_df [].

Definition state_of {A} (r : result A) : DHL_Optimization :=
  match r with Ok _ s => s | Raise _ s => s end.

Definition ex_built : DHL_Optimization :=
  state_of (build ["A"] "B" ex_optimizer).

(** An assignment given by the names of the variables: the variable
    numbered [v] in [m] takes the value [val] gives to its name. *)
Definition by_name (m : Model) (val : VarName -> Q) : assignment :=
  fun v => match nth_error (vars m) v with
           | Some d => val (vname d)
           | None => 0%Q
           end.

(** A solution of the model of this instance: the consignment travels
    on truck 0, every truck is used, leaves at 8 and arrives on day 1,
    with no day-wrap correction. *)
Definition ex_values (n : VarName) : Q :=
  match n with
  | X_ _ _ _ l => if (l =? 0)%Z then 1 else 0
  | Z_ _ => 1
  | T_ _ => 8
  | ArrivalTime_ _ => 0
  | ArrivalDayBinary_ _ d => if (d =? 1)%Z then 1 else 0
  | multiplier_ _ _ _ _ => 0
  end%Q.

Definition ex_solution : assignment := by_name (model ex_built) ex_values.

(** A solver that ends with this solution, and one that runs out of
    time before finding any. *)
Definition ex_optimize : Model -> Outcome :=
  fun _ => Finished OPTIMAL (Some ex_solution).

Definition ex_optimize_timeout : Model -> Outcome :=
  fun _ => Finished TIME_LIMIT None.

Local Close Scope string_scope.

(* ================================================================== *)
(** * Vocabulary of the specifications *)
(* ================================================================== *)

(** The valid (route, consignment) universe, as a function of the
    inputs: the value [initialize_model] stores in
    [self.valid_combinations]. *)
Definition routes_of (selected_sources : list string)
    (selected_destination : string) : list route :=
  flat_map (fun i =>
    flat_map (fun j => if negb (key_eqb i j) then [(i, j)] else [])
             [selected_destination]) selected_sources.

Definition consignments_of (sdf : list source_row) (rl : list route) : list int :=
  flat_map (fun '(i, j) => ids_on_route sdf i j) rl.

Definition combinations_of (sdf : list source_row) (rl : list route)
    : list combination :=
  flat_map (fun '(i, j) =>
    flat_map (fun k => if member k (ids_on_route sdf i j)
                       then [(i, j, k)] else []) (consignments_of sdf rl)) rl.

(** The variable [v] is declared in the model of [s] as [d]. *)
Definition declared (s : DHL_Optimization) (v : nat) (d : VarDecl) : Prop :=
  nth_error (vars (model s)) v = Some d.

(** Everything [add_constraints] leaves alone: all attributes except
    the model and the [ArrivalTime] table. *)
Definition frame (s : DHL_Optimization) : DHL_Optimization :=
  with_ArrivalTime [] (with_model new_Model s).

(** [s'] is [s] after some more variables and constraints were added. *)
Definition extends (s s' : DHL_Optimization) : Prop :=
  frame s = frame s' /\
  (forall v d, declared s v d -> declared s' v d) /\
  (forall c, In c (constrs (model s)) -> In c (constrs (model s'))).

(** The variable tables cover every combination, truck and day. *)
Definition tables_ok (s : DHL_Optimization) : Prop :=
  (forall i j k l, In (i, j, k) (valid_combinations s) -> In l (trucks s) ->
     exists x, dict_get (X s) (i, j, k, l) = Some x /\
               declared s x (mkVar BINARY 0 None (X_ i j k l))) /\
  (forall l, In l (trucks s) ->
     exists z, dict_get (Z s) l = Some z /\
               declared s z (mkVar BINARY 0 None (Z_ l))) /\
  (forall l, In l (trucks s) ->
     exists t, dict_get (T s) l = Some t /\
               declared s t (mkVar CONTINUOUS 0 None (T_ l))) /\
  (forall l d, In l (trucks s) -> In d (range 1 7) ->
     exists a, dict_get (ArrivalDayBinary s) (l, d) = Some a /\
               declared s a (mkVar BINARY 0 None (ArrivalDayBinary_ l d))).

(** Every consignment of a valid combination is a row of the manifest,
    and every combination is on a route to a listed destination. *)
Definition ids_ok (s : DHL_Optimization) : Prop :=
  forall i j k, In (i, j, k) (valid_combinations s) ->
    In j (destination_list s) /\
    exists r, In r (source_df s) /\ id r = k.

(** The lane and shift entries the constraints read are present. *)
Definition lane_present (s : DHL_Optimization) (i j : string) : Prop :=
  lane_times (trucking_df s) i j <> [].

Definition shift_present_in (df : list destination_row) (j : string) : Prop :=
  destination_values Destination_ID df j <> [].

Definition shift_present (s : DHL_Optimization) (j : string) : Prop :=
  shift_present_in (destination_df s) j.

Definition data_ok (s : DHL_Optimization) : Prop :=
  (forall i j k, In (i, j, k) (valid_combinations s) ->
     lane_present s i j /\ shift_present s j) /\
  (forall j, In j (destination_list s) -> shift_present s j).

(** The state after [addConstr] and after [addVar]. *)
Definition add_constr (c : Constr) (s : DHL_Optimization) : DHL_Optimization :=
  with_model (mkModel (vars (model s)) (constrs (model s) ++ [c])
                      (objective (model s)) (TimeLimit (model s))) s.

Definition add_var (d : VarDecl) (s : DHL_Optimization) : DHL_Optimization :=
  with_model (mkModel (vars (model s) ++ [d]) (constrs (model s))
                      (objective (model s)) (TimeLimit (model s))) s.

(** *** The constraints of each family, as found in a built model *)

(** [quicksum(c(d) * ArrivalDayBinary[(l, d)] for d in range(1, 7))] *)
Definition day_terms_of (s : DHL_Optimization) (c : int -> Q) (l : int)
    (ds : list expr) : Prop :=
  Forall2 (fun d e => exists a, dict_get (ArrivalDayBinary s) (l, d) = Some a /\
                                declared s a (mkVar BINARY 0 None (ArrivalDayBinary_ l d)) /\
                                e = Mul (Const (c d)) (Var a))
          (range 1 7) ds.

Definition capacity_for (s : DHL_Optimization) (l : int) : Prop :=
  exists xs z,
    Forall2 (fun (c : combination) e =>
               let '(i, j, k) := c in
               exists x, dict_get (X s) (i, j, k, l) = Some x /\ e = Var x)
            (valid_combinations s) xs /\
    dict_get (Z s) l = Some z /\
    In (mkConstr (quicksum xs) LE (Mul (Const 2) (Var z)) None)
       (constrs (model s)).

Definition release_for (s : DHL_Optimization) (c : combination) (l : int) : Prop :=
  let '(i, j, k) := c in
  exists release_time t x,
    hd_error (release_hours (source_df s) k) = Some release_time /\
    dict_get (T s) l = Some t /\
    dict_get (X s) (i, j, k, l) = Some x /\
    In (mkConstr (Var t) GE (Mul (Const (inject_Z release_time)) (Var x)) None)
       (constrs (model s)).

Definition window_for (n0 : nat) (s : DHL_Optimization) (c : combination)
    (l : int) : Prop :=
  let '(i, j, k) := c in
  exists start_shift end_shift seconds t x ds m,
    hd_error (destination_values Start_of_shift (destination_df s) j)
      = Some start_shift /\
    hd_error (destination_values End_of_lay_on (destination_df s) j)
      = Some end_shift /\
    hd_error (lane_times (trucking_df s) i j) = Some seconds /\
    dict_get (T s) l = Some t /\
    dict_get (X s) (i, j, k, l) = Some x /\
    day_terms_of s (fun d => inject_Z (d - 1)) l ds /\
    declared s m (mkVar INTEGER 0 None (multiplier_ i j k l)) /\
    (n0 <= m)%nat /\
    In (mkConstr (arrival_expr t x (seconds / 3600) ds m) GE
                 (Const start_shift) None) (constrs (model s)) /\
    In (mkConstr (arrival_expr t x (seconds / 3600) ds m) LE
                 (Const end_shift) None) (constrs (model s)).

Definition assignment_for (s : DHL_Optimization) (c : combination) : Prop :=
  let '(i, j, k) := c in
  exists terms,
    Forall2 (fun l e => exists x z, dict_get (X s) (i, j, k, l) = Some x /\
                                    dict_get (Z s) l = Some z /\
                                    e = Mul (Var x) (Var z))
            (trucks s) terms /\
    In (mkConstr (quicksum terms) EQ (Const 1) None) (constrs (model s)).

Definition arrival_day_for (s : DHL_Optimization) (l : int) : Prop :=
  exists terms z,
    dict_get (Z s) l = Some z /\
    Forall2 (fun d e => exists a, dict_get (ArrivalDayBinary s) (l, d) = Some a /\
                                  e = Mul (Var a) (Var z))
            (range 1 7) terms /\
    In (mkConstr (quicksum terms) EQ (Const 1)
                 (Some Assigning_Arrival_Day_to_each_used_truck))
       (constrs (model s)).

(** What a successful [add_constraints] from [s1] has established. *)
Definition constraints_present (s1 s : DHL_Optimization) : Prop :=
  (forall l, In l (trucks s) -> capacity_for s l) /\
  (forall c l, In c (valid_combinations s) -> In l (trucks s) -> release_for s c l) /\
  (forall c l, In c (valid_combinations s) -> In l (trucks s) ->
     window_for (List.length (vars (model s1))) s c l) /\
  (forall c, In c (valid_combinations s) -> assignment_for s c) /\
  (forall l, In l (trucks s) -> arrival_day_for s l) /\
  data_ok s.

(** *** Every constraint and variable of a built model *)

(** The declaration the code gives to a variable of each name. *)
Definition declaration_of (n : VarName) : VarDecl :=
  match n with
  | X_ _ _ _ _ | Z_ _ | ArrivalDayBinary_ _ _ => mkVar BINARY 0 None n
  | T_ _ => mkVar CONTINUOUS 0 None n
  | ArrivalTime_ _ => mkVar CONTINUOUS 0 (Some 24%Q) n
  | multiplier_ _ _ _ _ => mkVar INTEGER 0 None n
  end.

Definition standard (d : VarDecl) : Prop := d = declaration_of (vname d).

Definition capacity_shape (s : DHL_Optimization) (l : int) (c : Constr) : Prop :=
  exists xs z,
    Forall2 (fun (cb : combination) e =>
               let '(i, j, k) := cb in
               exists x, dict_get (X s) (i, j, k, l) = Some x /\ e = Var x)
            (valid_combinations s) xs /\
    dict_get (Z s) l = Some z /\
    c = mkConstr (quicksum xs) LE (Mul (Const 2) (Var z)) None.

Definition release_shape (s : DHL_Optimization) (cb : combination) (l : int)
    (c : Constr) : Prop :=
  let '(i, j, k) := cb in
  exists release_time t x,
    hd_error (release_hours (source_df s) k) = Some release_time /\
    dict_get (T s) l = Some t /\
    dict_get (X s) (i, j, k, l) = Some x /\
    c = mkConstr (Var t) GE (Mul (Const (inject_Z release_time)) (Var x)) None.

Definition window_shape (s : DHL_Optimization) (cb : combination) (l : int)
    (c : Constr) : Prop :=
  let '(i, j, k) := cb in
  exists start_shift end_shift seconds t x ds m,
    hd_error (destination_values Start_of_shift (destination_df s) j)
      = Some start_shift /\
    hd_error (destination_values End_of_lay_on (destination_df s) j)
      = Some end_shift /\
    hd_error (lane_times (trucking_df s) i j) = Some seconds /\
    dict_get (T s) l = Some t /\
    dict_get (X s) (i, j, k, l) = Some x /\
    day_terms_of s (fun d => inject_Z (d - 1)) l ds /\
    declared s m (mkVar INTEGER 0 None (multiplier_ i j k l)) /\
    (c = mkConstr (arrival_expr t x (seconds / 3600) ds m) GE
                  (Const start_shift) None \/
     c = mkConstr (arrival_expr t x (seconds / 3600) ds m) LE
                  (Const end_shift) None).

Definition assignment_shape (s : DHL_Optimization) (cb : combination)
    (c : Constr) : Prop :=
  let '(i, j, k) := cb in
  exists terms,
    Forall2 (fun l e => exists x z, dict_get (X s) (i, j, k, l) = Some x /\
                                    dict_get (Z s) l = Some z /\
                                    e = Mul (Var x) (Var z))
            (trucks s) terms /\
    c = mkConstr (quicksum terms) EQ (Const 1) None.

(** The index list of the comprehension of the fifth family. *)
Definition sorting_triples (s : DHL_Optimization) (j : string)
    : list (string * int * int) :=
  flat_map (fun i =>
     if negb (key_eqb j i) then
       flat_map (fun k =>
         flat_map (fun l =>
           if member (i, j, k) (valid_combinations s) then [(i, k, l)] else [])
           (trucks s)) (consignment_list s)
     else []) (source_list s).

Definition sorting_shape (s : DHL_Optimization) (j : string) (d : int)
    (c : Constr) : Prop :=
  exists e st cap terms,
    hd_error (destination_values End_of_lay_on (destination_df s) j) = Some e /\
    hd_error (destination_values Start_of_shift (destination_df s) j) = Some st /\
    hd_error (destination_values Sorting_capacity (destination_df s) j)
      = Some cap /\
    Forall2 (fun (ikl : string * int * int) t =>
               let '(i, k, l) := ikl in
               exists x q a,
                 dict_get (X s) (i, j, k, l) = Some x /\
                 hd_error (quantities (source_df s) k) = Some q /\
                 dict_get (ArrivalDayBinary s) (l, d) = Some a /\
                 t = Mul (Mul (Var x) (Const q)) (Var a))
            (sorting_triples s j) terms /\
    c = mkConstr (quicksum terms) LE (Const ((e - st) / 2 * cap))
                 (Some (SortingCapacity_ j d)).

Definition arrival_day_shape (s : DHL_Optimization) (l : int) (c : Constr)
    : Prop :=
  exists terms z,
    dict_get (Z s) l = Some z /\
    Forall2 (fun d e => exists a, dict_get (ArrivalDayBinary s) (l, d) = Some a /\
                                  e = Mul (Var a) (Var z))
            (range 1 7) terms /\
    c = mkConstr (quicksum terms) EQ (Const 1)
                 (Some Assigning_Arrival_Day_to_each_used_truck).

(** [c] is a constraint of one of the six families of [add_constraints],
    for keys of [s]. *)
Inductive family_shape (s : DHL_Optimization) (c : Constr) : Prop :=
| shape_capacity l :
    In l (trucks s) -> capacity_shape s l c -> family_shape s c
| shape_release cb l :
    In cb (valid_combinations s) -> In l (trucks s) ->
    release_shape s cb l c -> family_shape s c
| shape_window cb l :
    In cb (valid_combinations s) -> In l (trucks s) ->
    window_shape s cb l c -> family_shape s c
| shape_assignment cb :
    In cb (valid_combinations s) -> assignment_shape s cb c -> family_shape s c
| shape_sorting j d :
    In j (destination_list s) -> In d (range 1 7) ->
    sorting_shape s j d c -> family_shape s c
| shape_arrival_day l :
    In l (trucks s) -> arrival_day_shape s l c -> family_shape s c.

(** From [s0] to [s'], only constraints of these shapes and variables
    with the declaration of their name were added. *)
Definition only (s0 s' : DHL_Optimization) : Prop :=
  (forall c, In c (constrs (model s')) ->
             In c (constrs (model s0)) \/ family_shape s' c) /\
  (forall v d, declared s' v d -> declared s0 v d \/ standard d).

(** Outcome of running [m] from [s0]: either it returns, having only
    added [nv] variables and [nc] constraints, all of the shapes above,
    and established [F]; or it raises [IndexError], again having only
    added to the model, and then [B] holds (the reason of the failure). *)
Definition runs (B : Prop) (s0 : DHL_Optimization) (m : M unit)
    (F : DHL_Optimization -> Prop) (nv nc : nat) : Prop :=
  match m s0 with
  | Ok _ s' =>
      (extends s0 s' /\ only s0 s') /\ F s' /\
      List.length (vars (model s')) = (List.length (vars (model s0)) + nv)%nat /\
      List.length (constrs (model s')) = (List.length (constrs (model s0)) + nc)%nat
  | Raise e s' => e = IndexError /\ extends s0 s' /\ B
  end.

Definition monotone (F : DHL_Optimization -> Prop) : Prop :=
  forall s s', extends s s' -> F s -> F s'.

(** Under the assignment [s], the variable stored at key [k] of the
    table [d] takes the value [q]. *)
Definition takes {K} `{Key K} (d : dict K nat) (s : assignment) (k : K)
    (q : Q) : Prop :=
  exists v, dict_get d k = Some v /\ (s v == q)%Q.

(** The condition on the input tables under which the build returns:
    every valid combination has a lane entry and a destination row, and
    the selected destination has a row. *)
Definition inputs_ok (sdf : list source_row) (ddf : list destination_row)
    (tdf : list trucking_row) (selected_sources : list string)
    (selected_destination : string) : Prop :=
  (forall i j k,
     In (i, j, k) (combinations_of sdf
                     (routes_of selected_sources selected_destination)) ->
     lane_times tdf i j <> [] /\ shift_present_in ddf j) /\
  shift_present_in ddf selected_destination.

Definition nonempty {A} (l : list A) : bool :=
  match l with [] => false | _ => true end.

Definition inputs_okb (sdf : list source_row) (ddf : list destination_row)
    (tdf : list trucking_row) (selected_sources : list string)
    (selected_destination : string) : bool :=
  forallb (fun c : combination =>
             let '(i, j, k) := c in
             nonempty (lane_times tdf i j) &&
             nonempty (destination_values Destination_ID ddf j))
          (combinations_of sdf
             (routes_of selected_sources selected_destination)) &&
  nonempty (destination_values Destination_ID ddf selected_destination).



(** The number of constraints [add_constraints] adds. *)
Definition constraint_count (s : DHL_Optimization) : nat :=
  (List.length (trucks s)
   + List.length (trucks s) * List.length (valid_combinations s)
   + 2 * List.length (trucks s) * List.length (valid_combinations s)
   + List.length (valid_combinations s)
   + 6 * List.length (destination_list s)
   + List.length (trucks s))%nat.

(** *** The variable tables during [initialize_model] *)

Definition X_decl (key : X_key) : VarDecl :=
  let '(i, j, k, l) := key in mkVar BINARY 0 None (X_ i j k l).
Definition Z_decl (l : int) : VarDecl := mkVar BINARY 0 None (Z_ l).
Definition T_decl (l : int) : VarDecl := mkVar CONTINUOUS 0 None (T_ l).
Definition ArrivalTime_decl (l : int) : VarDecl :=
  mkVar CONTINUOUS 0 (Some 24%Q) (ArrivalTime_ l).
Definition ArrivalDayBinary_decl (key : int * int) : VarDecl :=
  mkVar BINARY 0 None (ArrivalDayBinary_ (fst key) (snd key)).

Arguments X_decl : simpl never.
Arguments Z_decl : simpl never.
Arguments T_decl : simpl never.
Arguments ArrivalTime_decl : simpl never.
Arguments ArrivalDayBinary_decl : simpl never.

(** The dictionary [d] maps [k] to a variable declared as [decl k]. *)
Definition covered {K} `{Key K} (vs : list VarDecl) (d : dict K nat)
    (decl : K -> VarDecl) (k : K) : Prop :=
  exists v, dict_get d k = Some v /\ nth_error vs v = Some (decl k).

Definition covers (s : DHL_Optimization) (PX : X_key -> Prop)
    (PZ PT : int -> Prop) (PA : int * int -> Prop) : Prop :=
  (forall k, PX k -> covered (vars (model s)) (X s) X_decl k) /\
  (forall l, PZ l -> covered (vars (model s)) (Z s) Z_decl l) /\
  (forall l, PT l -> covered (vars (model s)) (T s) T_decl l) /\
  (forall k, PA k ->
     covered (vars (model s)) (ArrivalDayBinary s) ArrivalDayBinary_decl k).

(** The attributes fixed by the first lines of [initialize_model]. *)
Definition inputs (s : DHL_Optimization) :=
  (source_df s, destination_df s, trucking_df s, source_list s,
   destination_list s, routes_list s, consignment_list s,
   valid_combinations s, trucks s).

(** One iteration of each variable-creating loop, as a function. *)
Definition set_X_var (key : X_key) (s : DHL_Optimization) : DHL_Optimization :=
  with_X (dict_set (X s) key (List.length (vars (model s))))
         (add_var (X_decl key) s).
Definition set_Z_var (l : int) (s : DHL_Optimization) : DHL_Optimization :=
  with_Z (dict_set (Z s) l (List.length (vars (model s))))
         (add_var (Z_decl l) s).
Definition set_T_var (l : int) (s : DHL_Optimization) : DHL_Optimization :=
  with_T (dict_set (T s) l (List.length (vars (model s))))
         (add_var (T_decl l) s).
Definition set_ArrivalTime_var (l : int) (s : DHL_Optimization) : DHL_Optimization :=
  with_ArrivalTime
    (dict_set (ArrivalTime s) l (Var (List.length (vars (model s)))))
    (add_var (ArrivalTime_decl l) s).
Definition set_ArrivalDayBinary_var (key : int * int) (s : DHL_Optimization)
    : DHL_Optimization :=
  with_ArrivalDayBinary
    (dict_set (ArrivalDayBinary s) key (List.length (vars (model s))))
    (add_var (ArrivalDayBinary_decl key) s).

Definition truck_step (l : int) (s : DHL_Optimization) : DHL_Optimization :=
  fold_left (fun s d => set_ArrivalDayBinary_var (l, d) s) (range 1 7)
            (set_ArrivalTime_var l (set_T_var l (set_Z_var l s))).

(** The object after the list-building lines of [initialize_model]. *)
Definition prepare (selected_sources : list string)
    (selected_destination : string) (s : DHL_Optimization) : DHL_Optimization :=
  let rl := routes_of selected_sources selected_destination in
  with_trucks (range 0 300)
    (with_valid_combinations (combinations_of (source_df s) rl)
      (with_consignment_list (consignments_of (source_df s) rl)
        (with_routes_list rl
          (with_destination_list [selected_destination]
            (with_source_list selected_sources s))))).

(** Invariant of the variable-creating loops, relative to their start
    [s0]: [n] variables were added, and the tables cover the given
    keys. *)
Definition init_inv (s0 : DHL_Optimization) (n : nat) (PX : X_key -> Prop)
    (PZ PT : int -> Prop) (PA : int * int -> Prop) (s : DHL_Optimization)
    : Prop :=
  inputs s = inputs s0 /\
  constrs (model s) = constrs (model s0) /\
  List.length (vars (model s)) = (List.length (vars (model s0)) + n)%nat /\
  covers s PX PZ PT PA.

(** What [initialize_model] establishes. *)
Definition init_post (selected_sources : list string)
    (selected_destination : string) (self s : DHL_Optimization) : Prop :=
  source_df s = source_df self /\
  destination_df s = destination_df self /\
  trucking_df s = trucking_df self /\
  source_list s = selected_sources /\
  destination_list s = [selected_destination] /\
  valid_combinations s =
    combinations_of (source_df self)
                    (routes_of selected_sources selected_destination) /\
  trucks s = range 0 300 /\
  constrs (model s) = constrs (model self) /\
  List.length (vars (model s)) =
    (List.length (vars (model self))
     + List.length (trucks s) * List.length (valid_combinations s)
     + 9 * List.length (trucks s))%nat /\
  tables_ok s /\ ids_ok s.

(** The state after [setObjective]. *)
Definition add_objective (o : expr * ObjSense) (s : DHL_Optimization)
    : DHL_Optimization :=
  with_model (mkModel (vars (model s)) (constrs (model s)) (Some o)
                      (TimeLimit (model s))) s.

(** What a build that returned [st] went through. *)
Definition built (selected_sources : list string) (selected_destination : string)
    (self st : DHL_Optimization) : Prop :=
  exists s1,
    initialize_model selected_sources selected_destination self = Ok tt s1 /\
    init_post selected_sources selected_destination self s1 /\
    add_constraints s1 = Ok tt st /\
    extends s1 st /\
    constraints_present s1 st /\
    List.length (vars (model st)) =
      (List.length (vars (model s1))
       + List.length (trucks s1) * List.length (valid_combinations s1))%nat /\
    List.length (constrs (model st)) =
      (List.length (constrs (model s1)) + constraint_count s1)%nat.

(** *** Two readings of the specification that the code does not meet *)

(** "A selected route without a lane-time entry makes the run fail
    before any model construction." *)
Definition fails_fast_on_missing_lane : Prop :=
  forall sdf ddf tdf srcs dst i,
    In i srcs -> i <> dst -> lane_times tdf i dst = [] ->
    exists e st,
      build srcs dst (new_optimizer sdf ddf tdf) = Raise e st /\
      model st = new_Model.

(** "A second build on the same object, from the same tables and
    selection, yields a model with the same variable and constraint
    counts as the first." *)
Definition rebuild_is_idempotent : Prop :=
  forall srcs dst self s1 s2,
    build srcs dst self = Ok tt s1 ->
    build srcs dst s1 = Ok tt s2 ->
    List.length (vars (model s2)) = List.length (vars (model s1)) /\
    List.length (constrs (model s2)) = List.length (constrs (model s1)).

(** *** Changing the minutes of the loading times *)

(** The manifest row [r] with the minutes of its loading time replaced
    by [f r]. *)
Definition set_minutes (f : source_row -> int) (r : source_row) : source_row :=
  mkSource (id r) (src_Origin_ID r) (src_Destination_ID r)
           (mkTimestamp (hour (planned_end_of_loading r)) (f r))
           (Consignment_quantity r).

(** The object with the minutes of every loading time rewritten. *)
Definition with_minutes (f : source_row -> int) (s : DHL_Optimization)
    : DHL_Optimization :=
  with_source_df (map (set_minutes f) (source_df s)) s.

Definition map_state {A} (g : DHL_Optimization -> DHL_Optimization)
    (r : result A) : result A :=
  match r with
  | Ok a s => Ok a (g s)
  | Raise e s => Raise e (g s)
  end.

(** The method [m] cannot tell the two manifests apart. *)
Definition ignores_minutes {A} (f : source_row -> int) (m : M A) : Prop :=
  forall s, m (with_minutes f s) = map_state (with_minutes f) (m s).

(** The fifth family has added its constraint for destination [j] and
    day [d]. *)
Definition sorting_for (s : DHL_Optimization) (j : string) (d : int) : Prop :=
  exists c, sorting_shape s j d c /\ In c (constrs (model s)).

(** The two variable-creating loops of [initialize_model], as a
    function of the object they start from. *)
Definition init_loops (s : DHL_Optimization) : DHL_Optimization :=
  fold_left (fun s l => truck_step l s) (trucks s)
    (fold_left (fun s k => set_X_var k s)
       (flat_map (fun '(i, j, k) => map (fun l => (i, j, k, l)) (trucks s))
                 (valid_combinations s)) s).

(** *** What [solve] extracts *)

(** The rows the loop body of [solve] appends for the key
    [(i, j, k, l)] of [X], given the solution [sol]: one row if both
    [Z[l]] and [X[i,j,k,l]] are 1 in the solution, none otherwise. The
    shift times of the row are those of the first row of the
    destination, the travel time is that of the first lane row of the
    route. *)
Definition row_for (s : DHL_Optimization) (sol : assignment) (key : X_key)
    (rows : list result_row) : Prop :=
  let '(i, j, k, l) := key in
  exists z x t shift lane days,
    dict_get (Z s) l = Some z /\
    dict_get (X s) (i, j, k, l) = Some x /\
    dict_get (T s) l = Some t /\
    hd_error (filter (fun r => key_eqb (Destination_ID r) j) (destination_df s))
      = Some shift /\
    hd_error (filter (fun r => key_eqb (trk_Origin_ID r) i &&
                               key_eqb (trk_Destination_ID r) j)
                     (trucking_df s)) = Some lane /\
    Forall2 (fun d q => exists a,
               dict_get (ArrivalDayBinary s) (l, d) = Some a /\
               q = (inject_Z d * sol a)%Q)
            (range 1 7) days /\
    rows = if Qeq_bool (sol z) 1 && Qeq_bool (sol x) 1
           then [mkRow i j k l (sol t) (Qsum days) (Start_of_shift shift)
                       (End_of_lay_on shift) (OSRM_time lane / 3600)]
           else [].

(** The object after [self.model.setParam('TimeLimit', 5*60)]. *)
Definition with_time_limit (s : DHL_Optimization) : DHL_Optimization :=
  state_of (setParam_TimeLimit 300 s).

(** What [solve] does with the table once the rows are collected: it
    writes the file and returns the table, or the write fails with
    [OSError]. *)
Definition written (fs : FileSystem) (rows : list result_row)
    (s : DHL_Optimization) : result (list result_row * FileSystem) :=
  if output_dir fs then Ok (rows, mkFileSystem true (Some rows)) s
  else Raise OSError s.

(** A method that leaves the object as it found it, whether it returns
    or raises. *)
Definition readonly {A} (m : M A) : Prop :=
  forall s, state_of (m s) = s.

(* ================================================================== *)
(** * [optimization_preprocess.py] and the loading of the tables *)
(* ================================================================== *)

(** A pandas data frame as these functions see it: the column labels
    and the rows of cells; a missing cell ([NaN]) is [None]. In a
    well-formed frame every row has one cell per column. *)
Record DataFrame (V : Type) := mkDataFrame {
  columns : list string;
  cells : list (list (option V))
}.

Definition well_formed {V} (df : DataFrame V) : Prop :=
  Forall (fun r => List.length r = List.length (columns df)) (cells df).

(** A module-level call returns or raises. *)
Inductive call (A : Type) :=
| Returns (a : A)
| Raises (e : exn).
Arguments Raises {A} e.

Definition isnull {V} (c : option V) : bool :=
  match c with None => true | Some _ => false end.

(** [series.isnull().all()] *)
Definition isnull_all {V} (cs : list (option V)) : bool := forallb isnull cs.

(** [df.iloc[0]] *)
Definition iloc_row0 {V} (df : DataFrame V) : call (list (option V)) :=
  match cells df with
  | [] => Raises IndexError
  | r :: _ => Returns r
  end.

(** [df.iloc[:, 0]] *)
Definition iloc_column0 {V} (df : DataFrame V) : call (list (option V)) :=
  match columns df with
  | [] => Raises IndexError
  | _ :: _ => Returns (map (fun r => match r with c :: _ => c | [] => None end)
                           (cells df))
  end.

(** [df.iloc[1:, 1:]] *)
Definition iloc_from1 {V} (df : DataFrame V) : DataFrame V :=
  mkDataFrame (tl (columns df)) (map (@tl (option V)) (tl (cells df))).

(** The label [df.rename(columns=column_mapping)] gives to a column. *)
Definition renamed (column_mapping : dict string string) (c : string) : string :=
  match dict_get column_mapping c with
  | Some c' => c'
  | None => c
  end.

(** [df.rename(columns=column_mapping)] *)
Definition rename {V} (df : DataFrame V) (column_mapping : dict string string)
    : DataFrame V :=
  mkDataFrame (map (renamed column_mapping) (columns df)) (cells df).

(** [df.dropna(axis='rows')] *)
Definition dropna {V} (df : DataFrame V) : DataFrame V :=
  mkDataFrame (columns df)
              (filter (forallb (fun c => negb (isnull c))) (cells df)).

(** [check_and_map_columns]; the first component of the value is what
    [st.error] was asked to display. *)
Definition check_and_map_columns {V} (df : DataFrame V)
    (required_columns : list string) (column_mapping : dict string string)
    : call (list string * (option (DataFrame V) * bool)) :=
  match iloc_row0 df with
  | Raises e => Raises e
  | Returns first_row =>
      match (if isnull_all first_row then
               match iloc_column0 df with
               | Raises e => Raises e
               | Returns first_column => Returns (isnull_all first_column)
               end
             else Returns false) with
      | Raises e => Raises e
      | Returns empty_border =>
          let df := if (empty_border : bool) then iloc_from1 df else df in
          let missing_columns :=
            filter (fun col => negb (member col (columns df)))
                   required_columns in
          if nonempty missing_columns then
            Returns ([String.append "Missing columns: "
                        (String.append (String.concat ", " missing_columns)
                                       ". Using default file.")],
                     (None, false))
          else
            Returns ([], (Some (rename df column_mapping), true))
      end
  end.

Local Open Scope string_scope.

Definition destination_required_columns : list string :=
  ["PZA_GNR"; "PZ_Sortierstandort"; "PZ_Name"; "Schichtbeginn";
   "Auflegeende (=Sortierschluss/ PZE Sorter Cutoff)";
   "Sortierleistung [Sdg je h]"; "PZ_Latitude"; "PZ_Longitude"].

Definition destination_column_mapping : dict string string :=
  [("PZA_GNR", "Destination_ID");
   ("PZ_Sortierstandort", "PZ_Sorting_location");
   ("PZ_Name", "PZ_Name");
   ("Schichtbeginn", "Start of shift");
   ("Auflegeende (=Sortierschluss/ PZE Sorter Cutoff)", "End of lay-on");
   ("Sortierleistung [Sdg je h]", "Sorting capacity");
   ("PZ_Latitude", "PZ_Latitude");
   ("PZ_Longitude", "PZ_Longitude")].

(** [preprocess_destination_file]; [sheet] is what
    [pd.read_excel(file_path, header=1, usecols=...)] returns. *)
Definition preprocess_destination_file {V} (sheet : DataFrame V) :=
  check_and_map_columns (dropna sheet) destination_required_columns
                        destination_column_mapping.

Definition source_required_columns : list string :=
  ["quelle_agnr"; "senke_agnr"; "geplantes_beladeende"; "Sendungsmenge"; "id"].

Definition source_column_mapping : dict string string :=
  [("quelle_agnr", "Origin_ID");
   ("senke_agnr", "Destination_ID");
   ("geplantes_beladeende", "planned_end_of_loading");
   ("Sendungsmenge", "Consignment quantity");
   ("id", "id")].

(** [preprocess_source_file]; [sheet] is what [pd.read_excel(file_path)]
    returns. *)
Definition preprocess_source_file {V} (sheet : DataFrame V) :=
  check_and_map_columns sheet source_required_columns source_column_mapping.

Definition trucking_required_columns : list string :=
  ["Nr"; "Origin_ID"; "Destination_ID"; "OSRM_distance [m]"; "OSRM_time [sek]"].

Definition trucking_column_mapping : dict string string :=
  [("Nr", "Nr");
   ("Origin_ID", "Origin_ID");
   ("Destination_ID", "Destination_ID");
   ("OSRM_distance [m]", "OSRM_distance [m]");
   ("OSRM_time [sek]", "OSRM_time [sek]")].

(** [preprocess_trucking_file]; [sheet] is what [pd.read_excel(file_path)]
    returns. *)
Definition preprocess_trucking_file {V} (sheet : DataFrame V) :=
  check_and_map_columns sheet trucking_required_columns trucking_column_mapping.

(** Two uploaded sheets: a manifest with its German column names, and
    one that lacks the quantity column. *)
Definition ex_source_sheet : DataFrame string :=
  mkDataFrame
    ["id"; "quelle_agnr"; "senke_agnr"; "geplantes_beladeende"; "Sendungsmenge"]
    [[Some "7"; Some "A"; Some "B"; Some "08:59"; Some "100"]].

Definition ex_short_sheet : DataFrame string :=
  mkDataFrame ["id"; "quelle_agnr"; "senke_agnr"; "geplantes_beladeende"]
              [[Some "7"; Some "A"; Some "B"; Some "08:59"]].

Definition ex_destination_sheet : DataFrame string :=
  mkDataFrame destination_required_columns
    [[Some "B"; Some "Bremen"; Some "PZ B"; Some "07:00"; Some "19:00";
      Some "20"; Some "53.1"; Some "8.8"];
     [Some "C"; None; Some "PZ C"; Some "22:00"; Some "06:30";
      Some "25"; Some "50.9"; Some "6.9"]].

Definition ex_trucking_sheet : DataFrame string :=
  mkDataFrame trucking_required_columns
    [[Some "1"; Some "A"; Some "B"; Some "80000"; Some "3600"]].

Local Close Scope string_scope.

(** The frame [check_and_map_columns] goes on with: without its first
    row and first column when both are entirely empty. *)
Definition trimmed {V} (df : DataFrame V) : DataFrame V :=
  if isnull_all (hd [] (cells df)) &&
     isnull_all (map (fun r => match r with c :: _ => c | [] => None end)
                     (cells df))
  then iloc_from1 df else df.

(** The text [check_and_map_columns] hands to [st.error]. *)
Definition missing_message (missing_columns : list string) : string :=
  String.append "Missing columns: "
    (String.append (String.concat ", " missing_columns)
                   ". Using default file.").

(** A method that leaves the objective of the model as it found it,
    whether it returns or raises. *)
Definition keeps_objective {A} (m : M A) : Prop :=
  forall s, objective (model (state_of (m s))) = objective (model s).

(** The variables an expression, and a constraint, mention. *)
Fixpoint vars_of (e : expr) : list nat :=
  match e with
  | Const _ => []
  | Var v => [v]
  | Add a b | Sub a b | Mul a b => vars_of a ++ vars_of b
  | quicksum es => flat_map vars_of es
  end.

Definition mentions (c : Constr) (v : nat) : Prop :=
  In v (vars_of (c_lhs c) ++ vars_of (c_rhs c)).

(** The variable [v] of [s] is declared, and not as one of the
    [ArrivalTime_<l>] variables. *)
Definition declared_other_than_ArrivalTime (s : DHL_Optimization) (v : nat)
    : Prop :=
  exists d, declared s v d /\ forall l, vname d <> ArrivalTime_ l.

(* ================================================================== *)
(** * Keys and dictionaries *)
(* ================================================================== *)

#[export] Instance KeyOk_nat : KeyOk nat.
Proof. intros a b. apply Nat.eqb_eq. Qed.

#[export] Instance KeyOk_int : KeyOk int.
Proof. intros a b. apply Z.eqb_eq. Qed.

#[export] Instance KeyOk_string : KeyOk string.
Proof. intros a b. apply String.eqb_eq. Qed.

#[export] Instance KeyOk_prod {A B} `{KeyOk A} `{KeyOk B} : KeyOk (A * B).
Proof.
  intros [a b] [a' b']. unfold key_eqb, Key_prod. simpl.
  rewrite andb_true_iff, !key_eqb_spec.
  split; [intros [-> ->] | intros E; inversion E]; auto.
Qed.

Section KeyFacts.
Context {K : Type} `{KeyOk K}.

Lemma key_eqb_refl (a : K) : key_eqb a a = true.
Proof. now apply key_eqb_spec. Qed.

Lemma key_eqb_neq (a b : K) : a <> b -> key_eqb a b = false.
Proof.
  intros N. destruct (key_eqb a b) eqn:E; auto.
  apply key_eqb_spec in E. contradiction.
Qed.

Lemma key_eq_dec (a b : K) : {a = b} + {a <> b}.
Proof.
  destruct (key_eqb a b) eqn:E.
  - left. now apply key_eqb_spec.
  - right. intros ->. rewrite key_eqb_refl in E. discriminate.
Qed.

Lemma member_In (x : K) xs : member x xs = true <-> In x xs.
Proof.
  unfold member. rewrite existsb_exists. split.
  - intros (y & Hy & E). apply key_eqb_spec in E. now subst.
  - intros Hx. exists x. split; auto. apply key_eqb_refl.
Qed.

Lemma dict_get_set_same {V} (d : dict K V) k v :
  dict_get (dict_set d k v) k = Some v.
Proof.
  induction d as [|[k' v'] r IH]; simpl.
  - now rewrite key_eqb_refl.
  - destruct (key_eqb k k') eqn:E; simpl; rewrite E; auto.
Qed.

Lemma dict_get_set_other {V} (d : dict K V) k k' v :
  k' <> k -> dict_get (dict_set d k v) k' = dict_get d k'.
Proof.
  intros N. induction d as [|[k0 v0] r IH]; simpl.
  - now rewrite key_eqb_neq.
  - destruct (key_eqb k k0) eqn:E; simpl.
    + apply key_eqb_spec in E. subst k0. now rewrite key_eqb_neq.
    + now rewrite IH.
Qed.
End KeyFacts.

Lemma range_In a b n : In n (range a b) <-> (a <= n < b)%Z.
Proof.
  unfold range. rewrite in_map_iff. split.
  - intros (m & <- & Hm). apply in_seq in Hm. lia.
  - intros Hn. exists (Z.to_nat (n - a)). split; [lia|]. apply in_seq. lia.
Qed.

Lemma range_length a b : List.length (range a b) = Z.to_nat (b - a).
Proof. unfold range. now rewrite length_map, length_seq. Qed.

Lemma hd_error_nonempty {A} (l : list A) : l <> [] -> exists a, hd_error l = Some a.
Proof. destruct l; intros N; [now destruct N | eexists; reflexivity]. Qed.

(** The first value of a column of a selection is the field of the
    first selected row. *)
Lemma hd_error_map {A B} (h : A -> B) (l : list A) (b : B) :
  hd_error (map h l) = Some b -> exists a, hd_error l = Some a /\ h a = b.
Proof. destruct l as [|a l]; simpl; [discriminate|]. intros [= <-]. eauto. Qed.

Lemma hd_error_filter {A} (p : A -> bool) (l : list A) (a : A) :
  hd_error (filter p l) = Some a -> In a l /\ p a = true.
Proof.
  intros H. apply filter_In. destruct (filter p l); [discriminate|].
  injection H as ->. now left.
Qed.

Lemma Forall2_exists {A B} (R : A -> B -> Prop) (xs : list A) :
  (forall x, In x xs -> exists b, R x b) -> exists bs, Forall2 R xs bs.
Proof.
  induction xs as [|x r IH]; intros Hx.
  - exists []. constructor.
  - destruct (Hx x (or_introl eq_refl)) as [b Hb].
    destruct IH as [bs Hbs]; [intros; apply Hx; now right|].
    exists (b :: bs). now constructor.
Qed.

Lemma Forall2_weaken {A B} (R R' : A -> B -> Prop) xs bs :
  (forall x b, In x xs -> R x b -> R' x b) -> Forall2 R xs bs -> Forall2 R' xs bs.
Proof.
  intros HR HF. induction HF; constructor.
  - apply HR; [now left | assumption].
  - apply IHHF. intros; apply HR; auto. now right.
Qed.

(* ================================================================== *)
(** * Rational sums of indicator values *)
(* ================================================================== *)

Lemma Qsum_binary_nonneg qs : Forall is_binary qs -> (0 <= Qsum qs)%Q.
Proof.
  induction 1 as [|q r [Hq|Hq] _ IH]; simpl; [lra | rewrite Hq; lra ..].
Qed.

(** If indicators sum to one, exactly one of them is set. *)
Lemma Qsum_binary_one {A} (f : A -> Q) (xs : list A) :
  NoDup xs ->
  (forall x, In x xs -> is_binary (f x)) ->
  (Qsum (map f xs) == 1)%Q ->
  exists x, In x xs /\ (f x == 1)%Q /\
            forall y, In y xs -> (f y == 1)%Q -> y = x.
Proof.
  induction xs as [|a r IH]; simpl; intros ND Hb Hs.
  - lra.
  - inversion ND as [|? ? Ha NDr]; subst.
    assert (Hr : Forall is_binary (map f r)).
    { apply Forall_forall. intros q Hq. apply in_map_iff in Hq.
      destruct Hq as (y & <- & Hy). apply Hb. now right. }
    pose proof (Qsum_binary_nonneg Hr) as Hnn.
    destruct (Hb a (or_introl eq_refl)) as [H0|H1].
    + destruct IH as (x & Hx & Hfx & Hu); auto.
      { rewrite H0 in Hs. lra. }
      exists x. repeat split; auto.
      intros y [<-|Hy] Hfy; [exfalso; lra | now apply Hu].
    + exists a. repeat split; auto.
      intros y [<-|Hy] Hfy; auto.
      exfalso. rewrite H1 in Hs.
      assert (Hz : (Qsum (map f r) == 0)%Q) by lra.
      clear - Hy Hfy Hz Hb.
      induction r as [|b r IH]; simpl in *; [contradiction|].
      assert (Hr : Forall is_binary (map f r)).
      { apply Forall_forall. intros q Hq. apply in_map_iff in Hq.
        destruct Hq as (y' & <- & Hy'). apply Hb. auto. }
      pose proof (Qsum_binary_nonneg Hr) as Hnn.
      destruct (Hb b) as [Hb0|Hb1]; auto; [|lra].
      destruct Hy as [<-|Hy]; [lra|].
      apply IH; [intros x [Hx|Hx]; apply Hb; auto | assumption | lra].
Qed.

Lemma Qsum_map_ext {A} (f g : A -> Q) xs :
  (forall x, In x xs -> (f x == g x)%Q) -> (Qsum (map f xs) == Qsum (map g xs))%Q.
Proof.
  induction xs as [|a r IH]; simpl; intros Hfg; [reflexivity|].
  rewrite (Hfg a), IH; auto. reflexivity.
Qed.

Lemma Qsum_scale {A} (f : A -> Q) (c : Q) xs :
  (Qsum (map (fun x => f x * c) xs) == Qsum (map f xs) * c)%Q.
Proof. induction xs as [|a r IH]; simpl; [lra | rewrite IH; lra]. Qed.

(* ================================================================== *)
(** * Reasoning about methods *)
(* ================================================================== *)

Lemma bind_gets {A B} (f : DHL_Optimization -> A) (k : A -> M B) s :
  bind (gets f) k s = k (f s) s.
Proof. reflexivity. Qed.

Lemma bind_ret {A B} (a : A) (k : A -> M B) s : bind (ret a) k s = k a s.
Proof. reflexivity. Qed.

Lemma bind_values0_cons {A B} (a : A) l (k : A -> M B) s :
  bind (values0 (a :: l)) k s = k a s.
Proof. reflexivity. Qed.

Lemma bind_values0_nil {A B} (k : A -> M B) s :
  bind (values0 []) k s = Raise IndexError s.
Proof. reflexivity. Qed.

Lemma bind_modify {B} (f : DHL_Optimization -> DHL_Optimization) (k : unit -> M B) s :
  bind (modify f) k s = k tt (f s).
Proof. reflexivity. Qed.

Lemma bind_ok {A B} (m : M A) (k : A -> M B) s a s' :
  m s = Ok a s' -> bind m k s = k a s'.
Proof. unfold bind. now intros ->. Qed.
Arguments bind_ok {A B} m k {s a s'} _.

Lemma bind_raise {A B} (m : M A) (k : A -> M B) s e s' :
  m s = Raise e s' -> bind m k s = Raise e s'.
Proof. unfold bind. now intros ->. Qed.
Arguments bind_raise {A B} m k {s e s'} _.

Lemma lookup_ok {K V} `{Key K} e (f : DHL_Optimization -> dict K V) k v s :
  dict_get (f s) k = Some v -> lookup e f k s = Ok v s.
Proof. unfold lookup. now intros ->. Qed.
Arguments lookup_ok {K V H} e f {k v s} _.

Lemma values0_ok {A} (l : list A) a s : hd_error l = Some a -> values0 l s = Ok a s.
Proof. destruct l; simpl; [discriminate | now intros [= ->]]. Qed.
Arguments values0_ok {A l a} s _.

Lemma values0_raise {A} (l : list A) s : l = [] -> values0 l s = Raise IndexError s.
Proof. now intros ->. Qed.

(** A comprehension whose elements only read the object. *)
Lemma mapM_readonly {A B} (f : A -> M B) (R : A -> B -> Prop) xs s :
  (forall x, In x xs -> exists b, f x s = Ok b s /\ R x b) ->
  exists bs, mapM f xs s = Ok bs s /\ Forall2 R xs bs.
Proof.
  induction xs as [|x r IH]; intros Hf.
  - exists []. split; [reflexivity | constructor].
  - destruct (Hf x (or_introl eq_refl)) as (b & Hb & HR).
    destruct IH as (bs & Hbs & HF); [intros; apply Hf; now right|].
    exists (b :: bs). split; [|now constructor].
    simpl. rewrite (bind_ok _ _ Hb), (bind_ok _ _ Hbs). reflexivity.
Qed.

(** A loop whose body never raises is a fold. *)
Lemma forM__fold {A} (body : A -> M unit)
    (f : A -> DHL_Optimization -> DHL_Optimization) xs :
  (forall x s, body x s = Ok tt (f x s)) ->
  forall s, forM_ xs body s = Ok tt (fold_left (fun s x => f x s) xs s).
Proof.
  intros Hb. induction xs as [|x r IH]; intros s; simpl; [reflexivity|].
  rewrite (bind_ok _ _ (Hb x s)). apply IH.
Qed.

(** ** The frame of [add_constraints] *)

Section Frame.
Variables s s' : DHL_Optimization.
Hypothesis E : frame s = frame s'.

Lemma frame_source_df : source_df s' = source_df s.
Proof. change (source_df (frame s') = source_df (frame s)). now rewrite E. Qed.
Lemma frame_destination_df : destination_df s' = destination_df s.
Proof. change (destination_df (frame s') = destination_df (frame s)). now rewrite E. Qed.
Lemma frame_trucking_df : trucking_df s' = trucking_df s.
Proof. change (trucking_df (frame s') = trucking_df (frame s)). now rewrite E. Qed.
Lemma frame_source_list : source_list s' = source_list s.
Proof. change (source_list (frame s') = source_list (frame s)). now rewrite E. Qed.
Lemma frame_destination_list : destination_list s' = destination_list s.
Proof. change (destination_list (frame s') = destination_list (frame s)). now rewrite E. Qed.
Lemma frame_consignment_list : consignment_list s' = consignment_list s.
Proof. change (consignment_list (frame s') = consignment_list (frame s)). now rewrite E. Qed.
Lemma frame_valid_combinations : valid_combinations s' = valid_combinations s.
Proof. change (valid_combinations (frame s') = valid_combinations (frame s)). now rewrite E. Qed.
Lemma frame_trucks : trucks s' = trucks s.
Proof. change (trucks (frame s') = trucks (frame s)). now rewrite E. Qed.
Lemma frame_X : X s' = X s.
Proof. change (X (frame s') = X (frame s)). now rewrite E. Qed.
Lemma frame_Z : Z s' = Z s.
Proof. change (Z (frame s') = Z (frame s)). now rewrite E. Qed.
Lemma frame_T : T s' = T s.
Proof. change (T (frame s') = T (frame s)). now rewrite E. Qed.
Lemma frame_ArrivalDayBinary : ArrivalDayBinary s' = ArrivalDayBinary s.
Proof. change (ArrivalDayBinary (frame s') = ArrivalDayBinary (frame s)). now rewrite E. Qed.
End Frame.

(** Rewrite the attributes of an extension to those of the original. *)
Ltac frame_rw H :=
  let E := constr:(proj1 H) in
  rewrite ?(frame_source_df E), ?(frame_destination_df E),
    ?(frame_trucking_df E), ?(frame_source_list E),
    ?(frame_destination_list E), ?(frame_consignment_list E),
    ?(frame_valid_combinations E), ?(frame_trucks E), ?(frame_X E),
    ?(frame_Z E), ?(frame_T E), ?(frame_ArrivalDayBinary E) in *.

Lemma extends_refl s : extends s s.
Proof. repeat split; auto. Qed.

Lemma extends_trans s1 s2 s3 : extends s1 s2 -> extends s2 s3 -> extends s1 s3.
Proof.
  intros (E1 & D1 & C1) (E2 & D2 & C2). repeat split; auto.
  now rewrite E1.
Qed.

Lemma addConstr_eq lhs sense rhs name s :
  addConstr lhs sense rhs name s = Ok tt (add_constr (mkConstr lhs sense rhs name) s).
Proof. reflexivity. Qed.

Lemma addVar_eq vt l u name s :
  addVar vt l u name s = Ok (List.length (vars (model s))) (add_var (mkVar vt l u name) s).
Proof. reflexivity. Qed.

Lemma extends_add_constr c s : extends s (add_constr c s).
Proof.
  repeat split; auto. intros c' Hc. simpl. apply in_or_app. now left.
Qed.

Lemma declared_app s v d ds :
  nth_error (vars (model s)) v = Some d ->
  nth_error (vars (model s) ++ ds) v = Some d.
Proof.
  intros Hd. rewrite nth_error_app1; auto.
  apply nth_error_Some. congruence.
Qed.

Lemma extends_add_var d s : extends s (add_var d s).
Proof.
  repeat split; auto. intros v d' Hd. unfold declared in *. simpl.
  now apply declared_app.
Qed.

Lemma extends_set_ArrivalTime d s : extends s (with_ArrivalTime d s).
Proof. repeat split; auto. Qed.

Lemma declared_add_var d s : declared (add_var d s) (List.length (vars (model s))) d.
Proof.
  unfold declared. simpl. rewrite nth_error_app2, Nat.sub_diag; auto.
Qed.

Lemma In_add_constr c s : In c (constrs (model (add_constr c s))).
Proof. simpl. apply in_or_app. right. now left. Qed.

Lemma In_add_constr_inv c c' s :
  In c' (constrs (model (add_constr c s))) ->
  In c' (constrs (model s)) \/ c' = c.
Proof.
  simpl. intros H. apply in_app_or in H. destruct H as [H|[<-|[]]]; auto.
Qed.

Lemma declared_add_var_inv d0 s v d :
  declared (add_var d0 s) v d -> declared s v d \/ d = d0.
Proof.
  unfold declared. simpl. intros H.
  destruct (Nat.lt_ge_cases v (List.length (vars (model s)))) as [Hlt|Hge].
  - left. now rewrite nth_error_app1 in H.
  - right. rewrite nth_error_app2 in H by exact Hge.
    destruct (v - List.length (vars (model s)))%nat as [|n]; simpl in H.
    + congruence.
    + destruct n; discriminate.
Qed.

(** ** Monotonicity of the specification predicates *)

Lemma tables_ok_mono : monotone tables_ok.
Proof.
  intros s s' Hx (HX & HZ & HT & HA). unfold tables_ok. frame_rw Hx.
  destruct Hx as (_ & Hd & _).
  repeat split; intros.
  - destruct (HX i j k l) as (x & ? & ?); eauto.
  - destruct (HZ l) as (x & ? & ?); eauto.
  - destruct (HT l) as (x & ? & ?); eauto.
  - destruct (HA l d) as (x & ? & ?); eauto.
Qed.

Lemma ids_ok_mono : monotone ids_ok.
Proof. intros s s' Hx H. unfold ids_ok. frame_rw Hx. exact H. Qed.

Lemma day_terms_of_mono c l ds : monotone (fun s => day_terms_of s c l ds).
Proof.
  intros s s' Hx H. unfold day_terms_of in *. frame_rw Hx.
  destruct Hx as (_ & Hd & _).
  eapply Forall2_weaken; [|exact H].
  intros d e _ (a & ? & ? & ?). eauto.
Qed.

Lemma capacity_for_mono l : monotone (fun s => capacity_for s l).
Proof.
  intros s s' Hx (xs & z & ? & ? & ?). unfold capacity_for. frame_rw Hx.
  exists xs, z. repeat split; auto. now apply Hx.
Qed.

Lemma release_for_mono c l : monotone (fun s => release_for s c l).
Proof.
  intros s s' Hx. destruct c as [[i j] k]. unfold release_for. frame_rw Hx.
  intros (rt & t & x & ? & ? & ? & ?).
  exists rt, t, x. repeat split; auto. now apply Hx.
Qed.

Lemma window_for_mono n c l : monotone (fun s => window_for n s c l).
Proof.
  intros s s' Hx. destruct c as [[i j] k]. unfold window_for.
  intros (ss & es & sec & t & x & ds & m & H1 & H2 & H3 & H4 & H5 & H6 & H7 & H8 & H9 & H10).
  pose proof (day_terms_of_mono Hx H6) as H6'.
  frame_rw Hx.
  exists ss, es, sec, t, x, ds, m.
  repeat split; auto; now apply Hx.
Qed.

Lemma assignment_for_mono c : monotone (fun s => assignment_for s c).
Proof.
  intros s s' Hx. destruct c as [[i j] k]. unfold assignment_for. frame_rw Hx.
  intros (terms & ? & ?). exists terms. split; auto. now apply Hx.
Qed.

Lemma arrival_day_for_mono l : monotone (fun s => arrival_day_for s l).
Proof.
  intros s s' Hx (terms & z & ? & ? & ?). unfold arrival_day_for. frame_rw Hx.
  exists terms, z. repeat split; auto. now apply Hx.
Qed.

Lemma lane_present_mono i j : monotone (fun s => lane_present s i j).
Proof. intros s s' Hx. unfold lane_present. now frame_rw Hx. Qed.

Lemma shift_present_mono j : monotone (fun s => shift_present s j).
Proof. intros s s' Hx. unfold shift_present. now frame_rw Hx. Qed.

Lemma monotone_forall {A} (P : A -> Prop) (F : A -> DHL_Optimization -> Prop) :
  (forall a, monotone (F a)) -> monotone (fun s => forall a, P a -> F a s).
Proof. intros HF s s' Hx H a Ha. eapply HF; eauto. Qed.

Lemma monotone_and (F G : DHL_Optimization -> Prop) :
  monotone F -> monotone G -> monotone (fun s => F s /\ G s).
Proof. intros HF HG s s' Hx [? ?]. split; [eapply HF | eapply HG]; eauto. Qed.

(** ** Only constraints of the six shapes are added *)

Lemma capacity_shape_mono l c : monotone (fun s => capacity_shape s l c).
Proof.
  intros s s' Hx (xs & z & ? & ? & ?). unfold capacity_shape. frame_rw Hx.
  exists xs, z. auto.
Qed.

Lemma release_shape_mono cb l c : monotone (fun s => release_shape s cb l c).
Proof.
  intros s s' Hx. destruct cb as [[i j] k]. unfold release_shape. frame_rw Hx.
  intros (rt & t & x & ? & ? & ? & ?). exists rt, t, x. auto.
Qed.

Lemma window_shape_mono cb l c : monotone (fun s => window_shape s cb l c).
Proof.
  intros s s' Hx. destruct cb as [[i j] k]. unfold window_shape.
  intros (ss & es & sec & t & x & ds & m & H1 & H2 & H3 & H4 & H5 & H6 & H7 & H8).
  pose proof (day_terms_of_mono Hx H6) as H6'.
  frame_rw Hx.
  exists ss, es, sec, t, x, ds, m.
  repeat split; auto. now apply Hx.
Qed.

Lemma assignment_shape_mono cb c : monotone (fun s => assignment_shape s cb c).
Proof.
  intros s s' Hx. destruct cb as [[i j] k]. unfold assignment_shape. frame_rw Hx.
  intros (terms & ? & ?). exists terms. auto.
Qed.

Lemma sorting_shape_mono j d c : monotone (fun s => sorting_shape s j d c).
Proof.
  intros s s' Hx (e & st & cap & terms & ? & ? & ? & ? & ?).
  unfold sorting_shape, sorting_triples in *. frame_rw Hx.
  exists e, st, cap, terms. auto.
Qed.

Lemma arrival_day_shape_mono l c : monotone (fun s => arrival_day_shape s l c).
Proof.
  intros s s' Hx (terms & z & ? & ? & ?). unfold arrival_day_shape. frame_rw Hx.
  exists terms, z. auto.
Qed.

Lemma sorting_for_mono j d : monotone (fun s => sorting_for s j d).
Proof.
  intros s s' Hx (c & Hs & Hin). exists c.
  split; [exact (@sorting_shape_mono j d c s s' Hx Hs) | now apply Hx].
Qed.

Lemma family_shape_mono c : monotone (fun s => family_shape s c).
Proof.
  intros s s' Hx Hs.
  pose proof (frame_trucks (proj1 Hx)) as Etr.
  pose proof (frame_valid_combinations (proj1 Hx)) as Evc.
  pose proof (frame_destination_list (proj1 Hx)) as Edl.
  destruct Hs as [l Hl H|cb l Hc Hl H|cb l Hc Hl H|cb Hc H|j d Hj Hd H|l Hl H].
  - apply shape_capacity with l; [now rewrite Etr|].
    exact (@capacity_shape_mono l c s s' Hx H).
  - apply shape_release with cb l; [now rewrite Evc | now rewrite Etr|].
    exact (@release_shape_mono cb l c s s' Hx H).
  - apply shape_window with cb l; [now rewrite Evc | now rewrite Etr|].
    exact (@window_shape_mono cb l c s s' Hx H).
  - apply shape_assignment with cb; [now rewrite Evc|].
    exact (@assignment_shape_mono cb c s s' Hx H).
  - apply shape_sorting with j d; [now rewrite Edl | exact Hd|].
    exact (@sorting_shape_mono j d c s s' Hx H).
  - apply shape_arrival_day with l; [now rewrite Etr|].
    exact (@arrival_day_shape_mono l c s s' Hx H).
Qed.

Lemma only_refl s : only s s.
Proof. split; auto. Qed.

Lemma only_trans s1 s2 s3 :
  extends s2 s3 -> only s1 s2 -> only s2 s3 -> only s1 s3.
Proof.
  intros Hx (C1 & V1) (C2 & V2). split.
  - intros c Hc. destruct (C2 c Hc) as [Hc2|Hs]; [|now right].
    destruct (C1 c Hc2) as [Hc1|Hs]; [now left | right].
    exact (@family_shape_mono c s2 s3 Hx Hs).
  - intros v d Hd. destruct (V2 v d Hd) as [Hd2|Hs]; [|now right].
    exact (V1 v d Hd2).
Qed.

Lemma only_add_constr c s : family_shape s c -> only s (add_constr c s).
Proof.
  intros Hs. split.
  - intros c' Hc. simpl in Hc. apply in_app_or in Hc.
    destruct Hc as [Hc|[<-|[]]]; [now left | right].
    exact (@family_shape_mono c s (add_constr c s) (extends_add_constr c s) Hs).
  - intros v d Hd. now left.
Qed.

(** ** Sequencing and loops *)

Lemma runs_weaken B s0 m (F F' : DHL_Optimization -> Prop) nv nc nv' nc' :
  runs B s0 m F nv nc -> (forall s, extends s0 s -> F s -> F' s) ->
  nv = nv' -> nc = nc' -> runs B s0 m F' nv' nc'.
Proof.
  unfold runs. intros Hr HF <- <-. destruct (m s0); auto.
  destruct Hr as ((Hx & Ho) & HF0 & Hc). auto.
Qed.

Lemma runs_seq B s0 (m m' : M unit) F F' nv nc nv' nc' :
  runs B s0 m F nv nc -> monotone F ->
  (forall s, extends s0 s -> F s -> runs B s m' F' nv' nc') ->
  runs B s0 (m ;; m') (fun s => F s /\ F' s) (nv + nv') (nc + nc').
Proof.
  unfold runs, bind. intros Hm HF Hm'.
  destruct (m s0) as [[] s|e s]; [|assumption].
  destruct Hm as ((Hx & Ho) & HFs & Hv & Hc).
  specialize (Hm' s Hx HFs). destruct (m' s) as [[] s'|e s'].
  - destruct Hm' as ((Hx' & Ho') & HF' & Hv' & Hc').
    split; [split; [eauto using extends_trans | eauto using only_trans]|].
    split; [split; [eapply HF; eauto | assumption]|].
    split; lia.
  - destruct Hm' as (-> & Hx' & HB). eauto using extends_trans.
Qed.

Lemma runs_forM_ {A} B (keys : list A) (body : A -> M unit)
    (F : A -> DHL_Optimization -> Prop) nv nc s0 :
  (forall k, monotone (F k)) ->
  (forall k s, In k keys -> extends s0 s -> runs B s (body k) (F k) nv nc) ->
  runs B s0 (forM_ keys body) (fun s => forall k, In k keys -> F k s)
       (nv * List.length keys) (nc * List.length keys).
Proof.
  intros HF. revert s0.
  induction keys as [|k r IH]; intros s0 Hb.
  - unfold runs. simpl.
    split; [split; [apply extends_refl | apply only_refl]|].
    split; [intros k []|]. split; lia.
  - simpl forM_.
    eapply runs_weaken.
    + eapply runs_seq with (F := F k) (F' := fun s => forall k', In k' r -> F k' s).
      * apply Hb; [now left | apply extends_refl].
      * apply HF.
      * intros s Hx _. apply IH. intros k' s' Hk' Hx'.
        apply Hb; [now right | eauto using extends_trans].
    + intros s Hx (Hk & Hr) k' [<-|Hk']; auto.
    + simpl. lia.
    + simpl. lia.
Qed.

Lemma runs_ext B s0 (m m' : M unit) F nv nc :
  m s0 = m' s0 -> runs B s0 m' F nv nc -> runs B s0 m F nv nc.
Proof. unfold runs. now intros ->. Qed.

(** A step that raises [IndexError] without touching the object. *)
Lemma runs_raise (B : Prop) s0 (m : M unit) F nv nc :
  B -> m s0 = Raise IndexError s0 -> runs B s0 m F nv nc.
Proof. unfold runs. intros HB ->. repeat split; auto. Qed.

(* ================================================================== *)
(** * The constraint families *)
(* ================================================================== *)

(** ** 1. Capacity *)

Lemma capacity_constraints_runs B s1 s0 :
  extends s1 s0 -> tables_ok s0 ->
  runs B s0 capacity_constraints
       (fun s => forall l, In l (trucks s1) -> capacity_for s l)
       0 (List.length (trucks s1)).
Proof.
  intros Hx1 Hok.
  rewrite <- ?(frame_trucks (proj1 Hx1)), <- ?(frame_valid_combinations (proj1 Hx1)),
    <- ?(frame_destination_list (proj1 Hx1)).
  eapply runs_ext;
    [unfold capacity_constraints; rewrite !bind_gets; reflexivity|].
  eapply runs_weaken.
  - apply runs_forM_ with (F := fun l s => capacity_for s l) (nv := 0%nat) (nc := 1%nat).
    + intros l. apply capacity_for_mono.
    + intros l s Hl Hx.
      pose proof (tables_ok_mono Hx Hok) as (HX & HZ & _).
      pose proof (frame_valid_combinations (proj1 Hx)) as Evc.
      pose proof (frame_trucks (proj1 Hx)) as Etr.
      rewrite <- Evc.
      destruct (@mapM_readonly _ _
                  (fun '(i, j, k) => x <- getX (i, j, k, l) ;; ret (Var x))
                  (fun (c : combination) e =>
                     let '(i, j, k) := c in
                     exists x, dict_get (X s) (i, j, k, l) = Some x /\ e = Var x)
                  (valid_combinations s) s) as (xs & Hxs & HF).
      { intros [[i j] k] Hc. destruct (HX i j k l) as (x & Hg & _); auto.
        { now rewrite Etr. }
        exists (Var x). split; [|eauto].
        unfold getX. rewrite (bind_ok _ _ (lookup_ok KeyError X Hg)). reflexivity. }
      destruct (HZ l) as (z & Hz & _); [now rewrite Etr|].
      unfold runs.
      rewrite (bind_ok _ _ Hxs). unfold getZ.
      rewrite (bind_ok _ _ (lookup_ok KeyError Z Hz)), addConstr_eq.
      split; [split; [apply extends_add_constr|]|].
      { apply only_add_constr, shape_capacity with l; [now rewrite Etr|].
        exists xs, z. auto. }
      split; [|simpl; rewrite length_app; simpl; lia].
      exists xs, z. simpl. repeat split; auto.
      apply in_or_app. right. now left.
  - auto.
  - reflexivity.
  - lia.
Qed.

Lemma extends_vars_length s s' :
  extends s s' ->
  (List.length (vars (model s)) <= List.length (vars (model s')))%nat.
Proof.
  intros (_ & Hd & _).
  destruct (vars (model s)) as [|d r] eqn:E; [simpl; lia|].
  destruct (nth_error (vars (model s)) (List.length r)) as [d'|] eqn:N.
  - apply Hd in N. unfold declared in N.
    assert (List.length r < List.length (vars (model s')))%nat
      by (apply nth_error_Some; congruence).
    simpl. lia.
  - apply nth_error_None in N. rewrite E in N. simpl in N. lia.
Qed.

Lemma release_hours_present df k :
  (exists r, In r df /\ id r = k) -> exists h, hd_error (release_hours df k) = Some h.
Proof.
  intros (r & Hr & Hk). apply hd_error_nonempty. unfold release_hours.
  intros E. apply map_eq_nil in E.
  assert (Hin : In r (filter (fun r => key_eqb (id r) k) df)).
  { apply filter_In. split; auto. subst k. apply key_eqb_refl. }
  rewrite E in Hin. contradiction.
Qed.

Lemma quantities_present df k :
  (exists r, In r df /\ id r = k) -> exists q, hd_error (quantities df k) = Some q.
Proof.
  intros (r & Hr & Hk). apply hd_error_nonempty. unfold quantities.
  intros E. apply map_eq_nil in E.
  assert (Hin : In r (filter (fun r => key_eqb (id r) k) df)).
  { apply filter_In. split; auto. subst k. apply key_eqb_refl. }
  rewrite E in Hin. contradiction.
Qed.

Lemma day_terms_ok c l s :
  tables_ok s -> In l (trucks s) ->
  exists ds, day_terms c l s = Ok ds s /\ day_terms_of s c l ds.
Proof.
  intros (_ & _ & _ & HA) Hl. unfold day_terms, day_terms_of.
  apply mapM_readonly. intros d Hd.
  destruct (HA l d Hl Hd) as (a & Ha & Hdecl).
  exists (Mul (Const (c d)) (Var a)). split; [|eauto].
  unfold getArrivalDayBinary.
  rewrite (bind_ok _ _ (lookup_ok KeyError ArrivalDayBinary Ha)). reflexivity.
Qed.

(** ** 2. Release time *)

Lemma release_constraints_runs B s1 s0 :
  extends s1 s0 -> tables_ok s0 -> ids_ok s0 ->
  runs B s0 release_constraints
       (fun s => forall c, In c (valid_combinations s1) ->
                 forall l, In l (trucks s1) -> release_for s c l)
       0 (List.length (trucks s1) * List.length (valid_combinations s1)).
Proof.
  intros Hx1 Hok Hids.
  rewrite <- ?(frame_trucks (proj1 Hx1)), <- ?(frame_valid_combinations (proj1 Hx1)),
    <- ?(frame_destination_list (proj1 Hx1)).
  eapply runs_ext;
    [unfold release_constraints; rewrite !bind_gets; reflexivity|].
  eapply runs_weaken.
  - apply runs_forM_ with
      (F := fun c s => forall l, In l (trucks s0) -> release_for s c l)
      (nv := (0 * List.length (trucks s0))%nat)
      (nc := (1 * List.length (trucks s0))%nat).
    + intros c. apply monotone_forall. intros l. apply release_for_mono.
    + intros [[i j] k] s Hc Hx.
      destruct (Hids i j k Hc) as (_ & Hrow).
      destruct (release_hours_present _ Hrow) as (rt & Hrt).
      rewrite <- (frame_source_df (proj1 Hx)) in Hrt.
      eapply runs_ext.
      { rewrite bind_gets, (bind_ok _ _ (values0_ok s Hrt)). reflexivity. }
      apply runs_forM_ with (F := fun l s => release_for s (i, j, k) l).
      * intros l. apply release_for_mono.
      * intros l s2 Hl Hx2.
        assert (Hx02 : extends s0 s2) by eauto using extends_trans.
        pose proof (tables_ok_mono Hx02 Hok) as (HX & _ & HT & _).
        pose proof (frame_valid_combinations (proj1 Hx02)) as Evc.
        pose proof (frame_trucks (proj1 Hx02)) as Etr.
        destruct (HT l) as (t & Ht & _); [now rewrite Etr|].
        destruct (HX i j k l) as (x & Hg & _); [now rewrite Evc | now rewrite Etr|].
        unfold runs, getT, getX.
        rewrite (bind_ok _ _ (lookup_ok KeyError T Ht)),
                (bind_ok _ _ (lookup_ok KeyError X Hg)), addConstr_eq.
        split; [split; [apply extends_add_constr|]|].
        { apply only_add_constr, shape_release with (i, j, k) l;
            [now rewrite Evc | now rewrite Etr|].
          exists rt, t, x. rewrite (frame_source_df (proj1 Hx2)). auto. }
        split; [|simpl; rewrite length_app; simpl; lia].
        exists rt, t, x. simpl.
        rewrite (frame_source_df (proj1 Hx2)).
        repeat split; auto.
        apply in_or_app. right. now left.
  - auto.
  - lia.
  - lia.
Qed.

(** ** 3. Operational window *)

Lemma destination_values_nil {A B} (c : destination_row -> A)
    (c' : destination_row -> B) df j :
  destination_values c df j = [] -> destination_values c' df j = [].
Proof.
  unfold destination_values. intros E. apply map_eq_nil in E. now rewrite E.
Qed.

Lemma destination_values_hd {A} (c : destination_row -> A) df j :
  shift_present_in df j ->
  exists a, hd_error (destination_values c df j) = Some a.
Proof.
  unfold shift_present_in. intros N. apply hd_error_nonempty. intros E.
  apply N. eapply destination_values_nil. exact E.
Qed.

(** One iteration of the inner loop of the third family. *)
Lemma window_step_runs B n0 s0 s i j k l start_shift end_shift seconds :
  tables_ok s0 -> extends s0 s -> (n0 <= List.length (vars (model s0)))%nat ->
  In (i, j, k) (valid_combinations s0) -> In l (trucks s0) ->
  hd_error (destination_values Start_of_shift (destination_df s0) j)
    = Some start_shift ->
  hd_error (destination_values End_of_lay_on (destination_df s0) j)
    = Some end_shift ->
  hd_error (lane_times (trucking_df s0) i j) = Some seconds ->
  runs B s
    (t <- getT l ;;
     x <- getX (i, j, k, l) ;;
     ds <- day_terms (fun d => inject_Z (d - 1)) l ;;
     m <- addVar INTEGER 0 None (multiplier_ i j k l) ;;
     modify (fun self =>
       with_ArrivalTime
         (dict_set (ArrivalTime self) l
                   (arrival_expr t x (seconds / 3600) ds m)) self) ;;
     a <- getArrivalTime l ;;
     addConstr a GE (Const start_shift) None ;;
     a <- getArrivalTime l ;;
     addConstr a LE (Const end_shift) None)
    (fun s' => window_for n0 s' (i, j, k) l) 1 2.
Proof.
  intros Hok Hx Hn Hc Hl Hss Hes Hsec.
  pose proof (tables_ok_mono Hx Hok) as Hok'.
  pose proof Hok' as (HX & _ & HT & _).
  pose proof (frame_valid_combinations (proj1 Hx)) as Evc.
  pose proof (frame_trucks (proj1 Hx)) as Etr.
  destruct (HT l) as (t & Ht & _); [now rewrite Etr|].
  destruct (HX i j k l) as (x & Hg & _); [now rewrite Evc | now rewrite Etr|].
  destruct (@day_terms_ok (fun d => inject_Z (d - 1)) l s Hok') as (ds & Hds & Hdt);
    [now rewrite Etr|].
  set (m := List.length (vars (model s))).
  set (e := arrival_expr t x (seconds / 3600) ds m).
  set (s3 := add_var (mkVar INTEGER 0 None (multiplier_ i j k l)) s).
  set (s4 := with_ArrivalTime (dict_set (ArrivalTime s3) l e) s3).
  set (c1 := mkConstr e GE (Const start_shift) None).
  set (c2 := mkConstr e LE (Const end_shift) None).
  assert (Hget : forall c, dict_get (ArrivalTime (add_constr c s4)) l = Some e
                           /\ dict_get (ArrivalTime s4) l = Some e).
  { intros c. simpl. split; apply dict_get_set_same. }
  unfold runs, getT, getX, getArrivalTime.
  rewrite (bind_ok _ _ (lookup_ok KeyError T Ht)),
          (bind_ok _ _ (lookup_ok KeyError X Hg)),
          (bind_ok _ _ Hds), (bind_ok _ _ (addVar_eq _ _ _ _ s)), bind_modify.
  fold m e s3 s4.
  rewrite (bind_ok _ _ (lookup_ok KeyError ArrivalTime (proj2 (Hget c1)))).
  rewrite (bind_ok _ _ (addConstr_eq e GE (Const start_shift) None s4)).
  fold c1.
  rewrite (bind_ok _ _ (lookup_ok KeyError ArrivalTime (proj1 (Hget c1)))).
  rewrite addConstr_eq. fold c2.
  assert (Hx3 : extends s s3) by apply extends_add_var.
  assert (Hx4 : extends s3 s4) by apply extends_set_ArrivalTime.
  assert (Hx36 : extends s3 (add_constr c2 (add_constr c1 s4))).
  { eapply extends_trans; [exact Hx4|].
    eapply extends_trans; apply extends_add_constr. }
  assert (Hx6 : extends s (add_constr c2 (add_constr c1 s4)))
    by eauto using extends_trans.
  assert (Hx06 : extends s0 (add_constr c2 (add_constr c1 s4)))
    by eauto using extends_trans.
  assert (Hm : declared (add_constr c2 (add_constr c1 s4)) m
                 (mkVar INTEGER 0 None (multiplier_ i j k l))).
  { apply (proj1 (proj2 Hx36)). apply declared_add_var. }
  assert (Hshape : forall c, c = c1 \/ c = c2 ->
            window_shape (add_constr c2 (add_constr c1 s4)) (i, j, k) l c).
  { intros c Hc12. unfold window_shape.
    exists start_shift, end_shift, seconds, t, x, ds, m.
    rewrite (frame_destination_df (proj1 Hx06)), (frame_trucking_df (proj1 Hx06)).
    repeat split; auto.
    eapply (@day_terms_of_mono (fun d => inject_Z (d - 1)) l ds);
      [exact Hx6 | exact Hdt]. }
  assert (Hc' : In (i, j, k) (valid_combinations s)) by now rewrite Evc.
  assert (Hl' : In l (trucks s)) by now rewrite Etr.
  split; [split; [exact Hx6|]|].
  { split.
    - intros c Hin.
      apply In_add_constr_inv in Hin. destruct Hin as [Hin|Hin].
      + apply In_add_constr_inv in Hin. destruct Hin as [Hin|Hin].
        * now left.
        * right. apply shape_window with (i, j, k) l;
            [exact Hc' | exact Hl' | apply Hshape; now left].
      + right. apply shape_window with (i, j, k) l;
          [exact Hc' | exact Hl' | apply Hshape; now right].
    - intros v d Hd.
      apply (@declared_add_var_inv
               (mkVar INTEGER 0 None (multiplier_ i j k l)) s v d) in Hd.
      destruct Hd as [Hd| ->]; [now left | right; reflexivity]. }
  split; [|simpl; rewrite !length_app; simpl; lia].
  unfold window_for.
  exists start_shift, end_shift, seconds, t, x, ds, m.
  rewrite (frame_destination_df (proj1 Hx06)), (frame_trucking_df (proj1 Hx06)).
  repeat split; auto.
  - eapply (@day_terms_of_mono (fun d => inject_Z (d - 1)) l ds); [exact Hx6 | exact Hdt].
  - pose proof (extends_vars_length Hx). subst m. lia.
  - simpl. apply in_or_app. left. apply in_or_app. right. now left.
  - simpl. apply in_or_app. right. now left.
Qed.

Lemma window_constraints_runs n0 s1 s0 :
  extends s1 s0 ->
  tables_ok s0 -> (n0 <= List.length (vars (model s0)))%nat ->
  runs (~ data_ok s1) s0 window_constraints
       (fun s => forall c, In c (valid_combinations s1) ->
          (forall l, In l (trucks s1) -> window_for n0 s c l) /\
          lane_present s (fst (fst c)) (snd (fst c)) /\
          shift_present s (snd (fst c)))
       (List.length (trucks s1) * List.length (valid_combinations s1))
       (2 * List.length (trucks s1) * List.length (valid_combinations s1)).
Proof.
  intros Hx1 Hok Hn.
  rewrite <- ?(frame_trucks (proj1 Hx1)), <- ?(frame_valid_combinations (proj1 Hx1)),
    <- ?(frame_destination_list (proj1 Hx1)).
  eapply runs_ext;
    [unfold window_constraints; rewrite !bind_gets; reflexivity|].
  eapply runs_weaken.
  - apply runs_forM_ with
      (F := fun c s =>
         (forall l, In l (trucks s0) -> window_for n0 s c l) /\
         lane_present s (fst (fst c)) (snd (fst c)) /\
         shift_present s (snd (fst c)))
      (nv := (1 * List.length (trucks s0))%nat)
      (nc := (2 * List.length (trucks s0))%nat).
    + intros c. apply monotone_and; [|apply monotone_and].
      * apply monotone_forall. intros l. apply window_for_mono.
      * apply lane_present_mono.
      * apply shift_present_mono.
    + intros [[i j] k] s Hc Hx.
      pose proof (frame_destination_df (proj1 Hx)) as Eddf.
      pose proof (frame_trucking_df (proj1 Hx)) as Etdf.
      destruct (destination_values Start_of_shift (destination_df s) j)
        as [|ss rs] eqn:Ess.
      { apply runs_raise; [|rewrite bind_gets, Ess; apply bind_values0_nil].
        intros (Hd & _). rewrite <- (frame_valid_combinations (proj1 Hx1)) in Hd.
        destruct (Hd i j k Hc) as (_ & Hs). apply Hs.
        unfold shift_present_in.
        rewrite <- (frame_destination_df (proj1 Hx1)), <- Eddf.
        eapply destination_values_nil. exact Ess. }
      destruct (destination_values End_of_lay_on (destination_df s) j)
        as [|es re] eqn:Ees.
      { apply (destination_values_nil End_of_lay_on Start_of_shift) in Ees.
        congruence. }
      destruct (lane_times (trucking_df s) i j) as [|sec rl] eqn:Esec.
      { apply runs_raise.
        - intros (Hd & _).
          rewrite <- (frame_valid_combinations (proj1 Hx1)) in Hd.
          destruct (Hd i j k Hc) as (Hl & _). apply Hl.
          now rewrite <- (frame_trucking_df (proj1 Hx1)), <- Etdf.
        - rewrite bind_gets, Ess, bind_values0_cons.
          rewrite bind_gets, Ees, bind_values0_cons.
          rewrite bind_gets, Esec. apply bind_values0_nil. }
      eapply runs_ext.
      { rewrite bind_gets, Ess, bind_values0_cons.
        rewrite bind_gets, Ees, bind_values0_cons.
        rewrite bind_gets, Esec, bind_values0_cons.
        reflexivity. }
      eapply runs_weaken.
      * apply runs_forM_ with (F := fun l s => window_for n0 s (i, j, k) l).
        -- intros l. apply window_for_mono.
        -- intros l s2 Hl Hx2.
           apply window_step_runs with (s0 := s0); auto.
           ++ eauto using extends_trans.
           ++ now rewrite <- Eddf, Ess.
           ++ now rewrite <- Eddf, Ees.
           ++ now rewrite <- Etdf, Esec.
      * intros s2 Hx2 HF. simpl fst. simpl snd. split; [exact HF|].
        split.
        -- apply (@lane_present_mono i j s s2 Hx2). unfold lane_present.
           rewrite Esec. discriminate.
        -- apply (@shift_present_mono j s s2 Hx2).
           unfold shift_present, shift_present_in. intros E.
           apply (destination_values_nil Destination_ID Start_of_shift) in E.
           congruence.
      * reflexivity.
      * reflexivity.
  - auto.
  - lia.
  - lia.
Qed.

(** ** 4. Exactly-one assignment *)

Lemma filter_const_true {A} (xs : list A) : filter (fun _ => true) xs = xs.
Proof. induction xs; simpl; congruence. Qed.

Lemma assignment_constraints_runs B s1 s0 :
  extends s1 s0 -> tables_ok s0 ->
  runs B s0 assignment_constraints
       (fun s => forall c, In c (valid_combinations s1) -> assignment_for s c)
       0 (List.length (valid_combinations s1)).
Proof.
  intros Hx1 Hok.
  rewrite <- ?(frame_trucks (proj1 Hx1)), <- ?(frame_valid_combinations (proj1 Hx1)),
    <- ?(frame_destination_list (proj1 Hx1)).
  eapply runs_ext;
    [unfold assignment_constraints; rewrite !bind_gets; reflexivity|].
  eapply runs_weaken.
  - apply runs_forM_ with (F := fun c s => assignment_for s c)
                          (nv := 0%nat) (nc := 1%nat).
    + intros c. apply assignment_for_mono.
    + intros [[i j] k] s Hc Hx.
      pose proof (tables_ok_mono Hx Hok) as (HX & HZ & _).
      pose proof (frame_valid_combinations (proj1 Hx)) as Evc.
      pose proof (frame_trucks (proj1 Hx)) as Etr.
      assert (Hm : member (i, j, k) (valid_combinations s) = true).
      { apply member_In. now rewrite Evc. }
      destruct (@mapM_readonly _ _
                  (fun l => x <- getX (i, j, k, l) ;; z <- getZ l ;;
                            ret (Mul (Var x) (Var z)))
                  (fun l e => exists x z, dict_get (X s) (i, j, k, l) = Some x /\
                                          dict_get (Z s) l = Some z /\
                                          e = Mul (Var x) (Var z))
                  (trucks s) s) as (terms & Hterms & HF).
      { intros l Hl. destruct (HX i j k l) as (x & Hg & _); auto.
        { now rewrite Evc. }
        destruct (HZ l Hl) as (z & Hz & _).
        exists (Mul (Var x) (Var z)). split; [|eauto].
        unfold getX, getZ.
        rewrite (bind_ok _ _ (lookup_ok KeyError X Hg)),
                (bind_ok _ _ (lookup_ok KeyError Z Hz)). reflexivity. }
      unfold runs. rewrite bind_gets, Hm, <- Etr, filter_const_true.
      rewrite (bind_ok _ _ Hterms), addConstr_eq.
      split; [split; [apply extends_add_constr|]|].
      { apply only_add_constr, shape_assignment with (i, j, k);
          [now rewrite Evc|].
        exists terms. auto. }
      split; [|simpl; rewrite length_app; simpl; lia].
      exists terms. simpl. split; auto.
      apply in_or_app. right. now left.
  - auto.
  - reflexivity.
  - lia.
Qed.

(** ** 6. Arrival day *)

Lemma arrival_day_constraints_runs B s1 s0 :
  extends s1 s0 -> tables_ok s0 ->
  runs B s0 arrival_day_constraints
       (fun s => forall l, In l (trucks s1) -> arrival_day_for s l)
       0 (List.length (trucks s1)).
Proof.
  intros Hx1 Hok.
  rewrite <- ?(frame_trucks (proj1 Hx1)), <- ?(frame_valid_combinations (proj1 Hx1)),
    <- ?(frame_destination_list (proj1 Hx1)).
  eapply runs_ext;
    [unfold arrival_day_constraints; rewrite !bind_gets; reflexivity|].
  eapply runs_weaken.
  - apply runs_forM_ with (F := fun l s => arrival_day_for s l)
                          (nv := 0%nat) (nc := 1%nat).
    + intros l. apply arrival_day_for_mono.
    + intros l s Hl Hx.
      pose proof (tables_ok_mono Hx Hok) as (_ & HZ & _ & HA).
      pose proof (frame_trucks (proj1 Hx)) as Etr.
      rewrite <- Etr in Hl.
      destruct (HZ l Hl) as (z & Hz & _).
      destruct (@mapM_readonly _ _
                  (fun d => a <- getArrivalDayBinary (l, d) ;; z <- getZ l ;;
                            ret (Mul (Var a) (Var z)))
                  (fun d e => exists a,
                     dict_get (ArrivalDayBinary s) (l, d) = Some a /\
                     e = Mul (Var a) (Var z))
                  (range 1 7) s) as (terms & Hterms & HF).
      { intros d Hd. destruct (HA l d Hl Hd) as (a & Ha & _).
        exists (Mul (Var a) (Var z)). split; [|eauto].
        unfold getArrivalDayBinary, getZ.
        rewrite (bind_ok _ _ (lookup_ok KeyError ArrivalDayBinary Ha)),
                (bind_ok _ _ (lookup_ok KeyError Z Hz)). reflexivity. }
      unfold runs. rewrite (bind_ok _ _ Hterms), addConstr_eq.
      split; [split; [apply extends_add_constr|]|].
      { apply only_add_constr, shape_arrival_day with l; [exact Hl|].
        exists terms, z. auto. }
      split; [|simpl; rewrite length_app; simpl; lia].
      exists terms, z. simpl. repeat split; auto.
      apply in_or_app. right. now left.
  - auto.
  - reflexivity.
  - lia.
Qed.

(** ** 5. Sorting capacity *)

Lemma sorting_terms_In (j : string) (sl : list string) (cl : list int)
    (tr : list int) (vc : list combination) i k l :
  In (i, k, l)
     (flat_map (fun i =>
        if negb (key_eqb j i) then
          flat_map (fun k =>
            flat_map (fun l =>
              if member (i, j, k) vc then [(i, k, l)] else []) tr) cl
        else []) sl) ->
  In (i, j, k) vc /\ In l tr.
Proof.
  intros H. apply in_flat_map in H. destruct H as (i0 & _ & H).
  destruct (negb (key_eqb j i0)); [|contradiction].
  apply in_flat_map in H. destruct H as (k0 & _ & H).
  apply in_flat_map in H. destruct H as (l0 & Hl0 & H).
  destruct (member (i0, j, k0) vc) eqn:Hm; [|contradiction].
  destruct H as [[= -> -> ->]|[]].
  split; [now apply member_In | assumption].
Qed.

Lemma sorting_constraints_runs s1 s0 :
  extends s1 s0 -> tables_ok s0 -> ids_ok s0 ->
  runs (~ data_ok s1) s0 sorting_constraints
       (fun s => forall j, In j (destination_list s1) ->
                 shift_present s j /\
                 forall d, In d (range 1 7) -> sorting_for s j d)
       0 (6 * List.length (destination_list s1)).
Proof.
  intros Hx1 Hok Hids.
  rewrite <- ?(frame_trucks (proj1 Hx1)), <- ?(frame_valid_combinations (proj1 Hx1)),
    <- ?(frame_destination_list (proj1 Hx1)).
  eapply runs_ext;
    [unfold sorting_constraints; rewrite !bind_gets; reflexivity|].
  eapply runs_weaken.
  - apply runs_forM_ with
      (F := fun j s => shift_present s j /\
                       forall d, In d (range 1 7) -> sorting_for s j d)
      (nv := (0 * List.length (range 1 7))%nat)
      (nc := (1 * List.length (range 1 7))%nat).
    + intros j. apply monotone_and; [apply shift_present_mono|].
      apply monotone_forall. intros d. apply sorting_for_mono.
    + intros j s Hj Hx.
      destruct (destination_values End_of_lay_on (destination_df s) j)
        as [|es re] eqn:Ees.
      { apply runs_raise; [|rewrite bind_gets, Ees; apply bind_values0_nil].
        intros (_ & Hd). rewrite <- (frame_destination_list (proj1 Hx1)) in Hd.
        apply (Hd j Hj). unfold shift_present_in.
        rewrite <- (frame_destination_df (proj1 Hx1)),
                <- (frame_destination_df (proj1 Hx)).
        eapply destination_values_nil. exact Ees. }
      destruct (destination_values Start_of_shift (destination_df s) j)
        as [|ss rs] eqn:Ess.
      { apply (destination_values_nil Start_of_shift End_of_lay_on) in Ess.
        congruence. }
      destruct (destination_values Sorting_capacity (destination_df s) j)
        as [|cap rc] eqn:Ecap.
      { apply (destination_values_nil Sorting_capacity End_of_lay_on) in Ecap.
        congruence. }
      eapply runs_ext.
      { rewrite bind_gets, Ees, bind_values0_cons, Ess, bind_values0_cons,
          Ecap, bind_values0_cons. reflexivity. }
      eapply runs_weaken.
      * apply runs_forM_ with (F := fun (d : int) s => sorting_for s j d)
                              (nv := 0%nat) (nc := 1%nat).
        -- intros d. apply sorting_for_mono.
        -- intros d s2 Hd Hx2.
           assert (Hx02 : extends s0 s2) by eauto using extends_trans.
           pose proof (tables_ok_mono Hx02 Hok) as (HX & _ & _ & HA).
           pose proof (ids_ok_mono Hx02 Hids) as Hids2.
           unfold runs. rewrite !bind_gets.
           match goal with
           | |- context [bind (mapM ?f ?xs) _ _] =>
               destruct (@mapM_readonly _ _ f
                 (fun (ikl : string * int * int) t =>
                    let '(i, k, l) := ikl in
                    exists x q a,
                      dict_get (X s2) (i, j, k, l) = Some x /\
                      hd_error (quantities (source_df s2) k) = Some q /\
                      dict_get (ArrivalDayBinary s2) (l, d) = Some a /\
                      t = Mul (Mul (Var x) (Const q)) (Var a)) xs s2)
                 as (terms & Hterms & HF)
           end.
           { intros [[i k] l] Hin. apply sorting_terms_In in Hin.
             destruct Hin as (Hc & Hl).
             destruct (HX i j k l Hc Hl) as (x & Hg & _).
             destruct (Hids2 i j k Hc) as (_ & Hrow).
             destruct (quantities_present _ Hrow) as (q & Hq).
             destruct (HA l d Hl Hd) as (a & Ha & _).
             exists (Mul (Mul (Var x) (Const q)) (Var a)).
             split; [|exists x, q, a; auto].
             unfold getX, getArrivalDayBinary.
             rewrite (bind_ok _ _ (lookup_ok KeyError X Hg)),
                     (bind_ok _ _ (values0_ok s2 Hq)),
                     (bind_ok _ _ (lookup_ok KeyError ArrivalDayBinary Ha)).
             reflexivity. }
           rewrite (bind_ok _ _ Hterms), addConstr_eq.
           match goal with
           | |- context [add_constr ?c0 s2] => set (c := c0)
           end.
           assert (Hshape : sorting_shape s2 j d c).
           { exists es, ss, cap, terms.
             rewrite (frame_destination_df (proj1 Hx2)), Ees, Ess, Ecap.
             auto. }
           split; [split; [apply extends_add_constr|]|].
           { apply only_add_constr, shape_sorting with j d;
               [now rewrite (frame_destination_list (proj1 Hx02)) | exact Hd
               | exact Hshape]. }
           split; [|simpl; rewrite length_app; simpl; lia].
           exists c. split; [|apply In_add_constr].
           exact (@sorting_shape_mono j d c s2 (add_constr c s2)
                    (extends_add_constr c s2) Hshape).
      * intros s2 Hx2 HF. split; [|exact HF].
        apply (@shift_present_mono j s s2 Hx2).
        unfold shift_present, shift_present_in. intros E.
        apply (destination_values_nil Destination_ID End_of_lay_on) in E.
        congruence.
      * reflexivity.
      * reflexivity.
  - auto.
  - reflexivity.
  - rewrite range_length. simpl. lia.
Qed.

(** ** All six families *)

Lemma add_constraints_runs_sorting s1 :
  tables_ok s1 -> ids_ok s1 ->
  runs (~ data_ok s1) s1 add_constraints
       (fun s => constraints_present s1 s /\
                 forall j, In j (destination_list s) ->
                 forall d, In d (range 1 7) -> sorting_for s j d)
       (List.length (trucks s1) * List.length (valid_combinations s1))
       (constraint_count s1).
Proof.
  intros Hok Hids. unfold add_constraints.
  eapply runs_weaken.
  - eapply runs_seq;
      [apply capacity_constraints_runs with (s1 := s1);
       [apply extends_refl | exact Hok] | |].
    { apply monotone_forall. intros l. apply capacity_for_mono. }
    intros s2 Hx2 _.
    eapply runs_seq;
      [apply release_constraints_runs with (s1 := s1);
       [exact Hx2 | exact (tables_ok_mono Hx2 Hok) | exact (ids_ok_mono Hx2 Hids)] | |].
    { apply monotone_forall. intros c. apply monotone_forall. intros l.
      apply release_for_mono. }
    intros s3 Hx3 _.
    assert (Hx13 : extends s1 s3) by eauto using extends_trans.
    eapply runs_seq;
      [apply window_constraints_runs
         with (n0 := List.length (vars (model s1))) (s1 := s1);
       [exact Hx13 | exact (tables_ok_mono Hx13 Hok)
        | now apply extends_vars_length] | |].
    { apply monotone_forall. intros c. apply monotone_and; [|apply monotone_and].
      - apply monotone_forall. intros l. apply window_for_mono.
      - apply lane_present_mono.
      - apply shift_present_mono. }
    intros s4 Hx4 _.
    assert (Hx14 : extends s1 s4) by eauto using extends_trans.
    eapply runs_seq;
      [apply assignment_constraints_runs with (s1 := s1);
       [exact Hx14 | exact (tables_ok_mono Hx14 Hok)] | |].
    { apply monotone_forall. intros c. apply assignment_for_mono. }
    intros s5 Hx5 _.
    assert (Hx15 : extends s1 s5) by eauto using extends_trans.
    eapply runs_seq;
      [apply sorting_constraints_runs with (s1 := s1);
       [exact Hx15 | exact (tables_ok_mono Hx15 Hok)
        | exact (ids_ok_mono Hx15 Hids)] | |].
    { apply monotone_forall. intros j.
      apply monotone_and; [apply shift_present_mono|].
      apply monotone_forall. intros d. apply sorting_for_mono. }
    intros s6 Hx6 _.
    assert (Hx16 : extends s1 s6) by eauto using extends_trans.
    apply arrival_day_constraints_runs with (s1 := s1);
      [exact Hx16 | exact (tables_ok_mono Hx16 Hok)].
  - intros s Hx (Hcap & Hrel & Hwin & Hasg & Hsort & Hday).
    unfold constraints_present, data_ok. frame_rw Hx.
    split; [|intros j Hj; exact (proj2 (Hsort j Hj))].
    split; [exact Hcap|]. split; [intros c l Hc Hl; now apply Hrel|].
    split; [intros c l Hc Hl; now apply Hwin|].
    split; [exact Hasg|]. split; [exact Hday|].
    split.
    + intros i j k Hc. split; apply (Hwin (i, j, k) Hc).
    + intros j Hj. exact (proj1 (Hsort j Hj)).
  - lia.
  - unfold constraint_count. lia.
Qed.

Lemma add_constraints_runs s1 :
  tables_ok s1 -> ids_ok s1 ->
  runs (~ data_ok s1) s1 add_constraints (constraints_present s1)
       (List.length (trucks s1) * List.length (valid_combinations s1))
       (constraint_count s1).
Proof.
  intros Hok Hids.
  eapply runs_weaken;
    [exact (add_constraints_runs_sorting Hok Hids) | | reflexivity ..].
  intros s _ (H & _). exact H.
Qed.

(* ================================================================== *)
(** * [initialize_model] never fails and fills the variable tables *)
(* ================================================================== *)

Section Covered.
Context {K : Type} `{KeyOk K}.
Variables (vs : list VarDecl) (d : dict K nat) (decl : K -> VarDecl).

Lemma covered_keep k d0 : covered vs d decl k -> covered (vs ++ [d0]) d decl k.
Proof.
  intros (v & Hg & Hn). exists v. split; auto.
  rewrite nth_error_app1; auto. apply nth_error_Some. congruence.
Qed.

Lemma covered_new k :
  covered (vs ++ [decl k]) (dict_set d k (List.length vs)) decl k.
Proof.
  exists (List.length vs). split; [apply dict_get_set_same|].
  rewrite nth_error_app2, Nat.sub_diag; auto.
Qed.

Lemma covered_set k k' :
  covered vs d decl k' ->
  covered (vs ++ [decl k]) (dict_set d k (List.length vs)) decl k'.
Proof.
  intros Hc. destruct (key_eq_dec k' k) as [->|N]; [apply covered_new|].
  destruct Hc as (v & Hg & Hn). exists v.
  split; [now rewrite dict_get_set_other|].
  rewrite nth_error_app1; auto. apply nth_error_Some. congruence.
Qed.
End Covered.

Lemma init_inv_weaken s0 n n' (PX PX' : X_key -> Prop) (PZ PZ' PT PT' : int -> Prop)
    (PA PA' : int * int -> Prop) s :
  init_inv s0 n PX PZ PT PA s -> n = n' ->
  (forall k, PX' k -> PX k) -> (forall l, PZ' l -> PZ l) ->
  (forall l, PT' l -> PT l) -> (forall k, PA' k -> PA k) ->
  init_inv s0 n' PX' PZ' PT' PA' s.
Proof.
  intros (Hi & Hc & Hl & HX & HZ & HT & HA) <- ? ? ? ?.
  repeat split; auto.
Qed.

Section InitSteps.
Variables (s0 : DHL_Optimization) (n : nat).
Variables (PX : X_key -> Prop) (PZ PT : int -> Prop) (PA : int * int -> Prop).
Variable s : DHL_Optimization.
Hypothesis Hinv : init_inv s0 n PX PZ PT PA s.

Lemma init_inv_X key :
  init_inv s0 (S n) (fun k => PX k \/ k = key) PZ PT PA (set_X_var key s).
Proof.
  destruct Hinv as (Hi & Hc & Hl & HX & HZ & HT & HA).
  split; [exact Hi|]. split; [exact Hc|].
  split; [simpl; rewrite length_app; simpl; lia|].
  repeat split; simpl; intros.
  - destruct H as [Hk | ->]; [apply covered_set; auto | apply covered_new].
  - apply covered_keep; auto.
  - apply covered_keep; auto.
  - apply covered_keep; auto.
Qed.

Lemma init_inv_Z l :
  init_inv s0 (S n) PX (fun k => PZ k \/ k = l) PT PA (set_Z_var l s).
Proof.
  destruct Hinv as (Hi & Hc & Hl & HX & HZ & HT & HA).
  split; [exact Hi|]. split; [exact Hc|].
  split; [simpl; rewrite length_app; simpl; lia|].
  repeat split; simpl; intros.
  - apply covered_keep; auto.
  - destruct H as [Hk | ->];
      [apply (@covered_set _ _ _ _ _ Z_decl); auto
      | apply (@covered_new _ _ _ _ _ Z_decl)].
  - apply covered_keep; auto.
  - apply covered_keep; auto.
Qed.

Lemma init_inv_T l :
  init_inv s0 (S n) PX PZ (fun k => PT k \/ k = l) PA (set_T_var l s).
Proof.
  destruct Hinv as (Hi & Hc & Hl & HX & HZ & HT & HA).
  split; [exact Hi|]. split; [exact Hc|].
  split; [simpl; rewrite length_app; simpl; lia|].
  repeat split; simpl; intros.
  - apply covered_keep; auto.
  - apply covered_keep; auto.
  - destruct H as [Hk | ->];
      [apply (@covered_set _ _ _ _ _ T_decl); auto
      | apply (@covered_new _ _ _ _ _ T_decl)].
  - apply covered_keep; auto.
Qed.

Lemma init_inv_ArrivalTime l :
  init_inv s0 (S n) PX PZ PT PA (set_ArrivalTime_var l s).
Proof.
  destruct Hinv as (Hi & Hc & Hl & HX & HZ & HT & HA).
  split; [exact Hi|]. split; [exact Hc|].
  split; [simpl; rewrite length_app; simpl; lia|].
  repeat split; simpl; intros; apply covered_keep; auto.
Qed.

Lemma init_inv_ArrivalDayBinary key :
  init_inv s0 (S n) PX PZ PT (fun k => PA k \/ k = key)
           (set_ArrivalDayBinary_var key s).
Proof.
  destruct Hinv as (Hi & Hc & Hl & HX & HZ & HT & HA).
  split; [exact Hi|]. split; [exact Hc|].
  split; [simpl; rewrite length_app; simpl; lia|].
  repeat split; simpl; intros.
  - apply covered_keep; auto.
  - apply covered_keep; auto.
  - apply covered_keep; auto.
  - destruct H as [Hk | ->]; [apply covered_set; auto | apply covered_new].
Qed.
End InitSteps.

Lemma init_inv_fold_X s0 PZ PT PA keys :
  forall n PX s,
    init_inv s0 n PX PZ PT PA s ->
    init_inv s0 (n + List.length keys) (fun k => PX k \/ In k keys) PZ PT PA
             (fold_left (fun s k => set_X_var k s) keys s).
Proof.
  induction keys as [|a r IH]; intros n PX s Hinv; simpl.
  - eapply init_inv_weaken; eauto. intros k [?|[]]; auto.
  - eapply init_inv_weaken; [apply IH, init_inv_X, Hinv | lia | | auto ..].
    intros k [?|[->|?]]; auto.
Qed.

Lemma init_inv_fold_A s0 PX PZ PT l ds :
  forall n PA s,
    init_inv s0 n PX PZ PT PA s ->
    init_inv s0 (n + List.length ds) PX PZ PT
             (fun k => PA k \/ (fst k = l /\ In (snd k) ds))
             (fold_left (fun s d => set_ArrivalDayBinary_var (l, d) s) ds s).
Proof.
  induction ds as [|a r IH]; intros n PA s Hinv; simpl.
  - eapply init_inv_weaken; eauto. intros k [?|[_ []]]; auto.
  - eapply init_inv_weaken;
      [apply IH, init_inv_ArrivalDayBinary, Hinv | lia | auto ..].
    intros [l' d'] [?|[Hl [Hd|?]]]; simpl in *; subst; auto.
Qed.

Lemma init_inv_truck s0 n PX PZ PT PA l s :
  init_inv s0 n PX PZ PT PA s ->
  init_inv s0 (n + 9) PX (fun k => PZ k \/ k = l) (fun k => PT k \/ k = l)
           (fun k => PA k \/ (fst k = l /\ In (snd k) (range 1 7)))
           (truck_step l s).
Proof.
  intros Hinv. unfold truck_step.
  eapply init_inv_weaken;
    [apply init_inv_fold_A, init_inv_ArrivalTime, init_inv_T, init_inv_Z, Hinv
    | rewrite range_length; simpl; lia | auto ..].
Qed.

Lemma init_inv_fold_truck s0 PX tr :
  forall n PZ PT PA s,
    init_inv s0 n PX PZ PT PA s ->
    init_inv s0 (n + 9 * List.length tr) PX
             (fun k => PZ k \/ In k tr) (fun k => PT k \/ In k tr)
             (fun k => PA k \/ (In (fst k) tr /\ In (snd k) (range 1 7)))
             (fold_left (fun s l => truck_step l s) tr s).
Proof.
  induction tr as [|a r IH]; intros n PZ PT PA s Hinv; simpl fold_left.
  - eapply init_inv_weaken; eauto; simpl.
    + intros k [?|[]]; auto.
    + intros k [?|[]]; auto.
    + intros k [?|[[] _]]; auto.
  - eapply init_inv_weaken; [apply IH, init_inv_truck, Hinv | simpl; lia | auto | | |].
    + intros k [?|[->|?]]; auto.
    + intros k [?|[->|?]]; auto.
    + intros k [?|[[<-|?] ?]]; auto.
Qed.

Lemma X_keys_In (vc : list combination) (tr : list int) i j k l :
  In (i, j, k, l) (flat_map (fun '(i, j, k) => map (fun l => (i, j, k, l)) tr) vc)
  <-> In (i, j, k) vc /\ In l tr.
Proof.
  rewrite in_flat_map. split.
  - intros ([[i' j'] k'] & Hc & Hin). apply in_map_iff in Hin.
    destruct Hin as (l' & [= -> -> -> ->] & Hl). auto.
  - intros (Hc & Hl). exists (i, j, k). split; auto.
    apply in_map_iff. eauto.
Qed.

Lemma X_keys_length (vc : list combination) (tr : list int) :
  List.length (flat_map (fun '(i, j, k) => map (fun l => (i, j, k, l)) tr) vc)
  = (List.length tr * List.length vc)%nat.
Proof.
  induction vc as [|[[i j] k] r IH]; simpl; [lia|].
  rewrite length_app, length_map, IH. lia.
Qed.

Lemma combinations_of_ids sdf srcs dst i j k :
  In (i, j, k) (combinations_of sdf (routes_of srcs dst)) ->
  j = dst /\ exists r, In r sdf /\ id r = k.
Proof.
  unfold combinations_of. intros H.
  apply in_flat_map in H. destruct H as ([i' j'] & Hr & H).
  apply in_flat_map in H. destruct H as (k' & _ & H).
  destruct (member k' (ids_on_route sdf i' j')) eqn:Hm; [|contradiction].
  destruct H as [[= -> -> ->]|[]].
  split.
  - unfold routes_of in Hr. apply in_flat_map in Hr.
    destruct Hr as (i0 & _ & Hr). simpl in Hr.
    destruct (negb (key_eqb i0 dst)); simpl in Hr; [|contradiction].
    destruct Hr as [[= _ ->]|[]]. reflexivity.
  - apply member_In in Hm. unfold ids_on_route in Hm.
    apply in_map_iff in Hm. destruct Hm as (r & Hid & Hr').
    apply filter_In in Hr'. exists r. tauto.
Qed.

Lemma initialize_model_eq srcs dst self :
  initialize_model srcs dst self =
  (let s := prepare srcs dst self in
   forM_ (flat_map (fun '(i, j, k) => map (fun l => (i, j, k, l)) (trucks s))
                   (valid_combinations s))
     (fun '(i, j, k, l) =>
        v <- addVar BINARY 0 None (X_ i j k l) ;;
        modify (fun self => with_X (dict_set (X self) (i, j, k, l) v) self)) ;;
   forM_ (trucks s)
     (fun l =>
        v <- addVar BINARY 0 None (Z_ l) ;;
        modify (fun self => with_Z (dict_set (Z self) l v) self) ;;
        v <- addVar CONTINUOUS 0 None (T_ l) ;;
        modify (fun self => with_T (dict_set (T self) l v) self) ;;
        v <- addVar CONTINUOUS 0 (Some 24%Q) (ArrivalTime_ l) ;;
        modify (fun self =>
                  with_ArrivalTime (dict_set (ArrivalTime self) l (Var v)) self) ;;
        forM_ (range 1 7)
          (fun d =>
             v <- addVar BINARY 0 None (ArrivalDayBinary_ l d) ;;
             modify (fun self =>
               with_ArrivalDayBinary
                 (dict_set (ArrivalDayBinary self) (l, d) v) self))) ;;
   terms <- mapM (fun l => z <- getZ l ;;
                           ds <- day_terms inject_Z l ;;
                           ret (Mul (Var z) (quicksum ds))) (trucks s) ;;
   setObjective (quicksum terms) MINIMIZE) (prepare srcs dst self).
Proof. reflexivity. Qed.

Lemma X_body_eq (key : X_key) s :
  (let '(i, j, k, l) := key in
   v <- addVar BINARY 0 None (X_ i j k l) ;;
   modify (fun self => with_X (dict_set (X self) (i, j, k, l) v) self)) s
  = Ok tt (set_X_var key s).
Proof. destruct key as [[[i j] k] l]. reflexivity. Qed.

Lemma truck_body_eq (l : int) s :
  (v <- addVar BINARY 0 None (Z_ l) ;;
   modify (fun self => with_Z (dict_set (Z self) l v) self) ;;
   v <- addVar CONTINUOUS 0 None (T_ l) ;;
   modify (fun self => with_T (dict_set (T self) l v) self) ;;
   v <- addVar CONTINUOUS 0 (Some 24%Q) (ArrivalTime_ l) ;;
   modify (fun self =>
             with_ArrivalTime (dict_set (ArrivalTime self) l (Var v)) self) ;;
   forM_ (range 1 7)
     (fun d =>
        v <- addVar BINARY 0 None (ArrivalDayBinary_ l d) ;;
        modify (fun self =>
          with_ArrivalDayBinary
            (dict_set (ArrivalDayBinary self) (l, d) v) self))) s
  = Ok tt (truck_step l s).
Proof.
  rewrite (bind_ok _ _ (addVar_eq _ _ _ _ _)), bind_modify.
  rewrite (bind_ok _ _ (addVar_eq _ _ _ _ _)), bind_modify.
  rewrite (bind_ok _ _ (addVar_eq _ _ _ _ _)), bind_modify.
  unfold truck_step.
  apply forM__fold with (f := fun d s => set_ArrivalDayBinary_var (l, d) s).
  intros d s'. reflexivity.
Qed.

Lemma covers_tables_ok s :
  covers s (fun key => In (fst (fst (fst key)), snd (fst (fst key)), snd (fst key))
                          (valid_combinations s) /\ In (snd key) (trucks s))
           (fun l => In l (trucks s)) (fun l => In l (trucks s))
           (fun key => In (fst key) (trucks s) /\ In (snd key) (range 1 7)) ->
  tables_ok s.
Proof.
  intros (HX & HZ & HT & HA). repeat split; intros.
  - apply (HX (i, j, k, l)). simpl. auto.
  - apply (HZ l). auto.
  - apply (HT l). auto.
  - apply (HA (l, d)). simpl. auto.
Qed.

Lemma objective_terms_ok s :
  tables_ok s ->
  exists terms,
    mapM (fun l => z <- getZ l ;;
                   ds <- day_terms inject_Z l ;;
                   ret (Mul (Var z) (quicksum ds))) (trucks s) s = Ok terms s.
Proof.
  intros Hok.
  destruct (@mapM_readonly _ _
              (fun l => z <- getZ l ;;
                        ds <- day_terms inject_Z l ;;
                        ret (Mul (Var z) (quicksum ds)))
              (fun _ _ => True) (trucks s) s) as (terms & Hterms & _);
    [|eauto].
  intros l Hl. pose proof Hok as (_ & HZ & _).
  destruct (HZ l Hl) as (z & Hz & _).
  destruct (@day_terms_ok inject_Z l s Hok Hl) as (ds & Hds & _).
  exists (Mul (Var z) (quicksum ds)). split; [|exact I].
  unfold getZ. rewrite (bind_ok _ _ (lookup_ok KeyError Z Hz)), (bind_ok _ _ Hds).
  reflexivity.
Qed.

Lemma init_loops_inv s :
  init_inv s
    (0 + List.length (flat_map (fun '(i, j, k) =>
                                  map (fun l => (i, j, k, l)) (trucks s))
                               (valid_combinations s))
     + 9 * List.length (trucks s))
    (fun k => False \/
       In k (flat_map (fun '(i, j, k) => map (fun l => (i, j, k, l)) (trucks s))
                      (valid_combinations s)))
    (fun l => False \/ In l (trucks s))
    (fun l => False \/ In l (trucks s))
    (fun k => False \/ (In (fst k) (trucks s) /\ In (snd k) (range 1 7)))
    (fold_left (fun s l => truck_step l s) (trucks s)
       (fold_left (fun s k => set_X_var k s)
          (flat_map (fun '(i, j, k) => map (fun l => (i, j, k, l)) (trucks s))
                    (valid_combinations s)) s)).
Proof.
  apply init_inv_fold_truck, init_inv_fold_X.
  repeat split; auto; intros ? [].
Qed.

Lemma init_inv_tables_ok s st :
  init_inv s
    (0 + List.length (flat_map (fun '(i, j, k) =>
                                  map (fun l => (i, j, k, l)) (trucks s))
                               (valid_combinations s))
     + 9 * List.length (trucks s))
    (fun k => False \/
       In k (flat_map (fun '(i, j, k) => map (fun l => (i, j, k, l)) (trucks s))
                      (valid_combinations s)))
    (fun l => False \/ In l (trucks s))
    (fun l => False \/ In l (trucks s))
    (fun k => False \/ (In (fst k) (trucks s) /\ In (snd k) (range 1 7)))
    st ->
  inputs st = inputs s /\
  constrs (model st) = constrs (model s) /\
  List.length (vars (model st)) =
    (List.length (vars (model s))
     + List.length (trucks st) * List.length (valid_combinations st)
     + 9 * List.length (trucks st))%nat /\
  tables_ok st.
Proof.
  intros (Hi & Hc & Hl & Hcov).
  assert (Hvc : valid_combinations st = valid_combinations s)
    by (injection Hi; auto).
  assert (Htr : trucks st = trucks s) by (injection Hi; auto).
  split; [exact Hi|]. split; [exact Hc|]. split.
  - rewrite Hl, X_keys_length, Htr, Hvc. lia.
  - apply covers_tables_ok. rewrite Hvc, Htr.
    destruct Hcov as (HX & HZ & HT & HA).
    split; [|split; [|split]]; intros k Hk.
    + apply HX. right. destruct k as [[[i j] k] l].
      cbn [fst snd] in Hk. now apply X_keys_In.
    + apply HZ. now right.
    + apply HT. now right.
    + apply HA. now right.
Qed.

Lemma init_post_intro srcs dst self s st o :
  inputs s =
    (source_df self, destination_df self, trucking_df self, srcs, [dst],
     routes_of srcs dst,
     consignments_of (source_df self) (routes_of srcs dst),
     combinations_of (source_df self) (routes_of srcs dst),
     range 0 300) ->
  model s = model self ->
  inputs st = inputs s ->
  constrs (model st) = constrs (model s) ->
  List.length (vars (model st)) =
    (List.length (vars (model s))
     + List.length (trucks st) * List.length (valid_combinations st)
     + 9 * List.length (trucks st))%nat ->
  tables_ok st ->
  init_post srcs dst self (add_objective o st).
Proof.
  intros Hs Hm Hi Hc Hl Hok.
  rewrite Hs in Hi. rewrite Hm in Hc, Hl. clear Hs Hm s.
  injection Hi as E1 E2 E3 E4 E5 E6 E7 E8 E9.
  assert (Hx : extends st (add_objective o st)) by (repeat split; auto).
  unfold init_post.
  split; [exact E1|]. split; [exact E2|]. split; [exact E3|].
  split; [exact E4|]. split; [exact E5|]. split; [exact E8|].
  split; [exact E9|]. split; [exact Hc|].
  split; [exact Hl|].
  split; [exact (tables_ok_mono Hx Hok)|].
  apply (ids_ok_mono Hx).
  intros i j k Hcomb. rewrite E8 in Hcomb.
  apply combinations_of_ids in Hcomb. destruct Hcomb as (-> & Hr).
  rewrite E5, E1. split; [now left | exact Hr].
Qed.

(** [initialize_model] always returns, whatever the tables contain. *)
Lemma initialize_model_ok srcs dst self :
  exists s1, initialize_model srcs dst self = Ok tt s1 /\
             init_post srcs dst self s1.
Proof.
  rewrite initialize_model_eq. cbv zeta.
  pose proof (@init_post_intro srcs dst self (prepare srcs dst self))
    as Hpost.
  specialize (fun st o => Hpost st o eq_refl eq_refl).
  generalize dependent (prepare srcs dst self). intros s Hpost.
  rewrite (bind_ok _ _ (forM__fold _ set_X_var _ X_body_eq s)).
  rewrite (bind_ok _ _ (forM__fold _ truck_step (trucks s) truck_body_eq _)).
  destruct (init_inv_tables_ok (init_loops_inv s)) as (Hi & Hc & Hl & Hok).
  set (st := fold_left _ (trucks s) _) in *. clearbody st.
  assert (Htr : trucks st = trucks s) by (injection Hi; auto).
  destruct (objective_terms_ok Hok) as (terms & Hterms).
  rewrite Htr in Hterms.
  rewrite (bind_ok _ _ Hterms).
  exists (add_objective (quicksum terms, MINIMIZE) st).
  split; [reflexivity|]. now apply Hpost.
Qed.

(* ================================================================== *)
(** * The build as a whole *)
(* ================================================================== *)

Unset Implicit Arguments.

Lemma build_eq srcs dst self s1 :
  initialize_model srcs dst self = Ok tt s1 ->
  build srcs dst self = add_constraints s1.
Proof. intros H. unfold build. now rewrite (bind_ok _ _ H). Qed.
Arguments build_eq {srcs dst self s1} _.

Lemma nonempty_true {A} (l : list A) : nonempty l = true <-> l <> [].
Proof. destruct l; simpl; split; congruence. Qed.

Lemma inputs_okb_ok sdf ddf tdf srcs dst :
  inputs_okb sdf ddf tdf srcs dst = true -> inputs_ok sdf ddf tdf srcs dst.
Proof.
  unfold inputs_okb, inputs_ok. rewrite andb_true_iff, forallb_forall.
  intros (Hc & Hd). split.
  - intros i j k Hin. specialize (Hc _ Hin). simpl in Hc.
    apply andb_true_iff in Hc. destruct Hc as (H1 & H2).
    split; [now apply nonempty_true | now apply nonempty_true in H2].
  - now apply nonempty_true in Hd.
Qed.

Lemma data_ok_inputs srcs dst self s1 :
  init_post srcs dst self s1 ->
  (data_ok s1 <->
   inputs_ok (source_df self) (destination_df self) (trucking_df self) srcs dst).
Proof.
  intros (E1 & E2 & E3 & _ & E5 & E6 & _).
  unfold data_ok, inputs_ok, lane_present, shift_present.
  rewrite E2, E3, E5, E6. split; intros (Hc & Hd); split; auto.
  - apply Hd. now left.
  - intros j [<-|[]]. exact Hd.
Qed.
Arguments data_ok_inputs {srcs dst self s1} _.

(** A build that returns has gone through both phases. *)
Lemma build_inv srcs dst self st :
  build srcs dst self = Ok tt st -> built srcs dst self st.
Proof.
  intros Hb.
  destruct (initialize_model_ok srcs dst self) as (s1 & Hi & Hp).
  rewrite (build_eq Hi) in Hb.
  pose proof Hp as (_ & _ & _ & _ & _ & _ & _ & _ & _ & Hok & Hids).
  pose proof (add_constraints_runs Hok Hids) as Hr.
  unfold runs in Hr. rewrite Hb in Hr.
  destruct Hr as ((Hx & _) & Hcp & Hv & Hc).
  exists s1. split; [exact Hi|]. split; [exact Hp|]. split; [exact Hb|].
  split; [exact Hx|]. split; [exact Hcp|]. split; [exact Hv | exact Hc].
Qed.
Arguments build_inv {srcs dst self st} _.

(** The build returns exactly when the lane and shift entries exist;
    otherwise it raises [IndexError] from within [add_constraints]. *)
Lemma build_succeeds srcs dst self :
  inputs_ok (source_df self) (destination_df self) (trucking_df self) srcs dst ->
  exists st, build srcs dst self = Ok tt st.
Proof.
  intros Hin.
  destruct (initialize_model_ok srcs dst self) as (s1 & Hi & Hp).
  rewrite (build_eq Hi).
  pose proof Hp as (_ & _ & _ & _ & _ & _ & _ & _ & _ & Hok & Hids).
  pose proof (add_constraints_runs Hok Hids) as Hr.
  unfold runs in Hr.
  destruct (add_constraints s1) as [[] st|e st]; [eauto|].
  destruct Hr as (_ & _ & Hn). exfalso. apply Hn.
  now apply (data_ok_inputs Hp).
Qed.

Lemma build_fails srcs dst self :
  ~ inputs_ok (source_df self) (destination_df self) (trucking_df self) srcs dst ->
  exists s1 st,
    initialize_model srcs dst self = Ok tt s1 /\
    add_constraints s1 = Raise IndexError st /\
    build srcs dst self = Raise IndexError st /\
    extends s1 st.
Proof.
  intros Hin.
  destruct (initialize_model_ok srcs dst self) as (s1 & Hi & Hp).
  pose proof Hp as (_ & _ & _ & _ & _ & _ & _ & _ & _ & Hok & Hids).
  pose proof (add_constraints_runs Hok Hids) as Hr.
  unfold runs in Hr.
  destruct (add_constraints s1) as [[] st|e st] eqn:Ha.
  - exfalso. apply Hin. apply (data_ok_inputs Hp).
    destruct Hr as ((Hx & _) & Hcp & _).
    destruct Hcp as (_ & _ & _ & _ & _ & Hd).
    revert Hd. unfold data_ok, lane_present, shift_present.
    now frame_rw Hx.
  - destruct Hr as (-> & Hx & _). exists s1, st.
    split; [exact Hi|]. split; [exact Ha|].
    split; [rewrite (build_eq Hi); exact Ha | exact Hx].
Qed.

(** ** Feasible assignments *)

Lemma feasible_declared st s v d :
  feasible (model st) s -> declared st v d -> respects d (s v).
Proof. intros (Hv & _) Hd. now apply Hv. Qed.
Arguments feasible_declared {st s v d} _ _.

Lemma feasible_holds st s c :
  feasible (model st) s -> In c (constrs (model st)) -> holds s c.
Proof. intros (_ & Hc) Hin. rewrite Forall_forall in Hc. now apply Hc. Qed.
Arguments feasible_holds {st s c} _ _.

Lemma respects_binary d q : respects d q -> vtype d = BINARY -> is_binary q.
Proof. intros (_ & _ & H) E. now rewrite E in H. Qed.
Arguments respects_binary {d q} _ _.

Lemma Qsum_Forall2 {A} (R : A -> expr -> Prop) (h : A -> Q) s {xs es} :
  Forall2 R xs es ->
  (forall x e, In x xs -> R x e -> (eval s e == h x)%Q) ->
  (Qsum (map (eval s) es) == Qsum (map h xs))%Q.
Proof.
  induction 1 as [|x e xs es HR HF IH]; intros Hh; simpl; [reflexivity|].
  assert (E1 : (eval s e == h x)%Q) by (apply Hh; [now left | assumption]).
  assert (E2 : (Qsum (map (eval s) es) == Qsum (map h xs))%Q).
  { apply IH. intros x' e' Hx'. apply Hh. now right. }
  rewrite E1, E2. reflexivity.
Qed.

Lemma Qsum_zero {A} (h : A -> Q) xs :
  (forall x, In x xs -> (h x == 0)%Q) -> (Qsum (map h xs) == 0)%Q.
Proof.
  induction xs as [|a r IH]; intros Hh; simpl; [reflexivity|].
  assert (E1 : (h a == 0)%Q) by (apply Hh; now left).
  assert (E2 : (Qsum (map h r) == 0)%Q) by (apply IH; intros; apply Hh; now right).
  rewrite E1, E2. reflexivity.
Qed.

Lemma range_NoDup a b : NoDup (range a b).
Proof.
  unfold range. generalize (seq_NoDup (Z.to_nat (b - a)) 0).
  induction 1 as [|n r Hn _ IH]; simpl; constructor; auto.
  intros Hin. apply in_map_iff in Hin. destruct Hin as (m & E & Hm).
  assert (m = n) by lia. subst. contradiction.
Qed.

(** The arrival-day constraint of a truck forces the truck to be used. *)
Lemma arrival_day_forces_use st s l :
  tables_ok st -> In l (trucks st) -> arrival_day_for st l ->
  feasible (model st) s ->
  exists z, dict_get (Z st) l = Some z /\ (s z == 1)%Q.
Proof.
  intros (_ & HZ & _) Hl (terms & z & Hz & HF & Hin) Hfeas.
  exists z. split; [exact Hz|].
  destruct (HZ l Hl) as (z' & Hz' & Hdecl).
  assert (z' = z) by congruence. subst z'.
  pose proof (respects_binary (feasible_declared Hfeas Hdecl) eq_refl) as [H0|H1];
    [|exact H1].
  exfalso.
  pose proof (feasible_holds Hfeas Hin) as Hh. unfold holds in Hh. simpl in Hh.
  rewrite (@Qsum_Forall2 _ _ (fun _ => 0%Q) s _ _ HF) in Hh.
  - rewrite Qsum_zero in Hh; [lra | reflexivity].
  - intros d e _ (a & _ & ->). simpl. rewrite H0. lra.
Qed.
Arguments arrival_day_forces_use {st s l} _ _ _ _.

(** The facts about a built object used by the theorems below. *)
Lemma built_tables srcs dst self st :
  built srcs dst self st ->
  tables_ok st /\ ids_ok st /\
  trucks st = range 0 300 /\
  source_df st = source_df self /\
  destination_df st = destination_df self /\
  trucking_df st = trucking_df self /\
  destination_list st = [dst] /\
  valid_combinations st =
    combinations_of (source_df self) (routes_of srcs dst).
Proof.
  intros (s1 & _ & Hp & _ & Hx & _).
  destruct Hp as (E1 & E2 & E3 & _ & E5 & E6 & E7 & _ & _ & Hok & Hids).
  split; [exact (tables_ok_mono Hx Hok)|].
  split; [exact (ids_ok_mono Hx Hids)|].
  frame_rw Hx. auto 10.
Qed.
Arguments built_tables {srcs dst self st} _.

Lemma tables_ok_X_binary st s i j k l :
  tables_ok st -> feasible (model st) s ->
  In (i, j, k) (valid_combinations st) -> In l (trucks st) ->
  exists x, dict_get (X st) (i, j, k, l) = Some x /\ is_binary (s x).
Proof.
  intros (HX & _) Hf Hc Hl. destruct (HX i j k l Hc Hl) as (x & Hx & Hd).
  exists x. split; auto.
  exact (respects_binary (feasible_declared Hf Hd) eq_refl).
Qed.
Arguments tables_ok_X_binary {st s i j k l} _ _ _ _.

(* ================================================================== *)
(** * The claims *)
(* ================================================================== *)

(** C8. In every feasible solution of the built model, every one of
    the 300 trucks of the pool has [Z = 1]: the arrival-day constraint
    [sum_d ArrivalDayBinary[l,d] * Z[l] == 1] is imposed on every truck
    and cannot hold when [Z[l] = 0]. *)
Theorem C8_every_truck_is_used srcs dst self st :
  build srcs dst self = Ok tt st ->
  trucks st = range 0 300 /\
  forall l, (0 <= l < 300)%Z ->
    exists z, dict_get (Z st) l = Some z /\
              forall s, feasible (model st) s -> (s z == 1)%Q.
Proof.
  intros Hb. apply build_inv in Hb.
  destruct (built_tables Hb) as (Hok & _ & Etr & _).
  split; [exact Etr|]. intros l Hl.
  destruct Hb as (s1 & _ & _ & _ & _ & Hcp & _).
  destruct Hcp as (_ & _ & _ & _ & Hday & _).
  assert (Hin : In l (trucks st)) by (rewrite Etr; now apply range_In).
  pose proof Hok as (_ & HZ & _). destruct (HZ l Hin) as (z & Hz & _).
  exists z. split; [exact Hz|]. intros s Hf.
  destruct (arrival_day_forces_use Hok Hin (Hday l Hin) Hf) as (z' & Hz' & H1).
  assert (z' = z) by congruence. now subst z'.
Qed.

(** C1. For every valid (route, consignment) pair of the built model,
    every feasible solution has exactly one truck [l] with
    [X[route,consignment,l] = 1], and that truck has [Z[l] = 1]. *)
Theorem C1_exactly_one_truck srcs dst self st i j k :
  build srcs dst self = Ok tt st ->
  In (i, j, k) (valid_combinations st) ->
  (forall l, In l (trucks st) ->
     exists x, dict_get (X st) (i, j, k, l) = Some x) /\
  forall s, feasible (model st) s ->
  exists l, In l (trucks st) /\
            takes (X st) s (i, j, k, l) 1 /\
            takes (Z st) s l 1 /\
            forall l', In l' (trucks st) ->
                       takes (X st) s (i, j, k, l') 1 -> l' = l.
Proof.
  intros Hb Hc. apply build_inv in Hb.
  destruct (built_tables Hb) as (Hok & _ & Etr & _).
  destruct Hb as (s1 & _ & _ & _ & _ & Hcp & _).
  destruct Hcp as (_ & _ & _ & Hasg & Hday & _).
  split.
  { intros l Hl. pose proof Hok as (HX & _).
    destruct (HX i j k l Hc Hl) as (x & Hx & _). eauto. }
  intros s Hf.
  destruct (Hasg (i, j, k) Hc) as (terms & HF & Hin).
  pose proof (feasible_holds Hf Hin) as Hh. unfold holds in Hh. simpl in Hh.
  set (f := fun l => match dict_get (X st) (i, j, k, l) with
                     | Some x => s x
                     | None => 0%Q
                     end).
  assert (Hsum : (Qsum (map f (trucks st)) == 1)%Q).
  { rewrite <- Hh. symmetry. apply (Qsum_Forall2 _ _ s HF).
    intros l e Hl (x & z & Hx & Hz & ->). simpl.
    destruct (arrival_day_forces_use Hok Hl (Hday l Hl) Hf) as (z' & Hz' & Hone).
    assert (z' = z) by congruence. subst z'.
    unfold f. rewrite Hx, Hone. lra. }
  assert (Hbin : forall l, In l (trucks st) -> is_binary (f l)).
  { intros l Hl. destruct (tables_ok_X_binary Hok Hf Hc Hl) as (x & Hx & Hb).
    unfold f. now rewrite Hx. }
  assert (Hnd : NoDup (trucks st)) by (rewrite Etr; apply range_NoDup).
  destruct (Qsum_binary_one f Hnd Hbin Hsum) as (l & Hl & Hfl & Huniq).
  exists l. split; [exact Hl|].
  destruct (tables_ok_X_binary Hok Hf Hc Hl) as (x & Hx & _).
  split; [exists x; split; auto; unfold f in Hfl; now rewrite Hx in Hfl|].
  split; [exact (arrival_day_forces_use Hok Hl (Hday l Hl) Hf)|].
  intros l' Hl' (x' & Hx' & Hone). apply Huniq; auto.
  unfold f. now rewrite Hx'.
Qed.

(** C4. For every valid (route, consignment) and every truck [l], the
    built model contains [T[l] >= release_hour * X[route,consignment,l]],
    [release_hour] being the hour of [planned_end_of_loading] in the
    first manifest row with the consignment's id; with [X = 0] it says
    no more than [T[l] >= 0], and in every feasible solution an assigned
    truck departs no earlier than the release hour. *)
Theorem C4_release_time srcs dst self st i j k l :
  build srcs dst self = Ok tt st ->
  In (i, j, k) (valid_combinations st) -> In l (trucks st) ->
  exists r t x,
    hd_error (filter (fun r => key_eqb (id r) k) (source_df self)) = Some r /\
    id r = k /\
    dict_get (T st) l = Some t /\
    dict_get (X st) (i, j, k, l) = Some x /\
    let release_hour := hour (planned_end_of_loading r) in
    let c := mkConstr (Var t) GE
                      (Mul (Const (inject_Z release_hour)) (Var x)) None in
    In c (constrs (model st)) /\
    (forall s, (s x == 0)%Q -> (holds s c <-> (0 <= s t)%Q)) /\
    (forall s, feasible (model st) s -> (s x == 1)%Q ->
               (inject_Z release_hour <= s t)%Q).
Proof.
  intros Hb Hc Hl. apply build_inv in Hb.
  destruct (built_tables Hb) as (_ & _ & _ & Esdf & _).
  destruct Hb as (s1 & _ & _ & _ & Hx & Hcp & _).
  destruct Hcp as (_ & Hrel & _).
  destruct (Hrel (i, j, k) l Hc Hl) as (rt & t & x & Hrt & Ht & Hxx & Hin).
  rewrite Esdf in Hrt. apply hd_error_map in Hrt.
  destruct Hrt as (r & Hr & <-).
  exists r, t, x. split; [exact Hr|]. split.
  { apply hd_error_filter in Hr. destruct Hr as (_ & E).
    now apply Z.eqb_eq in E. }
  repeat split; auto.
  - unfold holds. simpl. intros Hh. rewrite H in Hh. lra.
  - unfold holds. simpl. intros Hh. rewrite H. lra.
  - intros s Hf Hone. pose proof (feasible_holds Hf Hin) as Hh.
    unfold holds in Hh. simpl in Hh. rewrite Hone in Hh. lra.
Qed.

(** C5. For every valid (route, consignment) and every truck, the built
    model constrains the effective arrival hour: departure time, plus
    lane travel time scaled by [X], plus 24 times the day offset taken
    from the arrival-day binaries, minus 24 times an integer variable
    created for this very (route, consignment, truck) during
    [add_constraints], to lie between the shift start and the shift end
    of the destination. The travel time is the ['OSRM_time [sek]'] of
    the first lane row of the route, divided by 3600; the shift start
    and end are those of the first row of the destination. *)
Theorem C5_arrival_window srcs dst self st i j k l :
  build srcs dst self = Ok tt st ->
  In (i, j, k) (valid_combinations st) -> In l (trucks st) ->
  exists s1 shift lane t x ds m,
    initialize_model srcs dst self = Ok tt s1 /\
    hd_error (filter (fun r => key_eqb (Destination_ID r) j)
                     (destination_df self)) = Some shift /\
    hd_error (filter (fun r => key_eqb (trk_Origin_ID r) i &&
                               key_eqb (trk_Destination_ID r) j)
                     (trucking_df self)) = Some lane /\
    dict_get (T st) l = Some t /\
    dict_get (X st) (i, j, k, l) = Some x /\
    day_terms_of st (fun d => inject_Z (d - 1)) l ds /\
    declared st m (mkVar INTEGER 0 None (multiplier_ i j k l)) /\
    (List.length (vars (model s1)) <= m)%nat /\
    let travel_time := (OSRM_time lane / 3600)%Q in
    let arrival := arrival_expr t x travel_time ds m in
    In (mkConstr arrival GE (Const (Start_of_shift shift)) None)
       (constrs (model st)) /\
    In (mkConstr arrival LE (Const (End_of_lay_on shift)) None)
       (constrs (model st)) /\
    forall s, feasible (model st) s ->
      is_integer (s m) /\
      (Start_of_shift shift <=
         s t + travel_time * s x + 24 * Qsum (map (eval s) ds) - 24 * s m
       <= End_of_lay_on shift)%Q.
Proof.
  intros Hb Hc Hl. apply build_inv in Hb.
  destruct (built_tables Hb) as (_ & _ & _ & _ & Eddf & Etdf & _).
  destruct Hb as (s1 & Hi & _ & _ & Hx & Hcp & _).
  destruct Hcp as (_ & _ & Hwin & _).
  destruct (Hwin (i, j, k) l Hc Hl)
    as (ss & es & sec & t & x & ds & m & H1 & H2 & H3 & H4 & H5 & H6 & H7
        & H8 & H9 & H10).
  rewrite Eddf in H1, H2. rewrite Etdf in H3.
  apply hd_error_map in H1. destruct H1 as (shift & Hs & <-).
  apply hd_error_map in H2. destruct H2 as (shift' & Hs' & <-).
  assert (shift' = shift) by congruence. subst shift'.
  apply hd_error_map in H3. destruct H3 as (lane & Hlane & <-).
  exists s1, shift, lane, t, x, ds, m.
  repeat (split; [assumption|]).
  intros s Hf. split.
  - destruct (feasible_declared Hf H7) as (_ & _ & Hint). exact Hint.
  - pose proof (feasible_holds Hf H9) as Hge.
    pose proof (feasible_holds Hf H10) as Hle.
    unfold holds in Hge, Hle. simpl in Hge, Hle. split; assumption.
Qed.

(** C10. After shift-time normalisation every destination row satisfies
    [start_hour <= end_hour <= start_hour + 24]: the start hour is
    [hour + minute / 60] of the raw start of shift; when the raw end
    hour, [hour + minute / 60] of the raw end of lay-on, is strictly
    less than the start hour exactly 24 is added to it, and otherwise
    both hours are unchanged. *)
Theorem C10_normalized_shift_window (raw : list raw_destination_row) :
  Forall (fun r => valid_time (raw_Start_of_shift r) /\
                   valid_time (raw_End_of_lay_on r)) raw ->
  Forall2
    (fun r d =>
       let raw_start :=
         (inject_Z (hour (raw_Start_of_shift r))
          + inject_Z (minute (raw_Start_of_shift r)) / 60)%Q in
       let raw_end :=
         (inject_Z (hour (raw_End_of_lay_on r))
          + inject_Z (minute (raw_End_of_lay_on r)) / 60)%Q in
       Destination_ID d = raw_Destination_ID r /\
       Sorting_capacity d = raw_Sorting_capacity r /\
       Start_of_shift d = raw_start /\
       ((raw_end < raw_start)%Q -> End_of_lay_on d = (raw_end + 24)%Q) /\
       (~ (raw_end < raw_start)%Q -> End_of_lay_on d = raw_end) /\
       (Start_of_shift d <= End_of_lay_on d <= Start_of_shift d + 24)%Q)
    raw (normalize_shift_times raw).
Proof.
  induction 1 as [|r raw (Hs & He) _ IH]; simpl; constructor; [|exact IH].
  clear IH. unfold normalize.
  assert (Hb : forall t, valid_time t -> (0 <= hours_of t < 24)%Q).
  { intros t ((H0 & H23) & (M0 & M59)). unfold hours_of.
    assert (E : (0 <= inject_Z (minute t) / 60 < 1)%Q).
    { assert (0 <= inject_Z (minute t))%Q by (rewrite <- (Zle_Qle 0); exact M0).
      assert (inject_Z (minute t) <= 59)%Q by (rewrite <- (Zle_Qle _ 59); exact M59).
      split.
      - apply Qle_shift_div_l; lra.
      - apply Qlt_shift_div_r; lra. }
    assert (0 <= inject_Z (hour t))%Q by (rewrite <- (Zle_Qle 0); exact H0).
    assert (inject_Z (hour t) <= 23)%Q by (rewrite <- (Zle_Qle _ 23); exact H23).
    lra. }
  pose proof (Hb _ Hs) as Hs'. pose proof (Hb _ He) as He'.
  fold (hours_of (raw_Start_of_shift r)). fold (hours_of (raw_End_of_lay_on r)).
  destruct (Qlt_le_dec (hours_of (raw_End_of_lay_on r))
                       (hours_of (raw_Start_of_shift r))) as [Hlt|Hge]; simpl.
  - repeat split; auto; try lra; intros N; contradiction.
  - repeat split; auto; try lra; intros Hlt; lra.
Qed.

(** C2. When the solver reports INFEASIBLE, [solve] does not return an
    empty result: it reaches [st.dataframe(df_out)] with [df_out] never
    assigned and raises [UnboundLocalError]; and an error raised by the
    solver itself propagates out of [solve]. *)
Theorem C2_solve_raises_on_infeasible (self : DHL_Optimization)
    (solution : option assignment) (fs : FileSystem) :
  (exists self',
     solve (fun _ => Finished INFEASIBLE solution) fs self
     = Raise UnboundLocalError self') /\
  (exists self', solve (fun _ => Failed) fs self = Raise GurobiError self').
Proof. split; eexists; reflexivity. Qed.

(** ** Sizes of a built model *)

Lemma build_counts srcs dst self st :
  build srcs dst self = Ok tt st ->
  let n := Z.of_nat (List.length (combinations_of (source_df self)
                                                  (routes_of srcs dst))) in
  (Z.of_nat (List.length (vars (model st)))
   = Z.of_nat (List.length (vars (model self))) + 600 * n + 2700)%Z /\
  (Z.of_nat (List.length (constrs (model st)))
   = Z.of_nat (List.length (constrs (model self))) + 901 * n + 606)%Z.
Proof.
  intros Hb n. apply build_inv in Hb.
  destruct Hb as (s1 & _ & Hp & _ & _ & _ & Hv & Hc).
  destruct Hp as (_ & _ & _ & _ & E5 & E6 & E7 & E8 & E9 & _).
  unfold constraint_count in Hc.
  rewrite E7, E6, range_length in *. rewrite E5 in Hc. rewrite E8 in Hc.
  change (Z.to_nat (300 - 0)) with 300%nat in *.
  simpl List.length in Hc. subst n. lia.
Qed.

(** C6 as the specification states it fails: a selected route that has
    no lane-time entry and no consignment does not stop the run at all. *)
Lemma C6_counterexample : ~ fails_fast_on_missing_lane.
Proof.
  intros H.
  destruct (H [] ex_destination_df [] ["A"%string] "B"%string "A"%string)
    as (e & st & Hr & _).
  - now left.
  - discriminate.
  - reflexivity.
  - destruct (build_succeeds ["A"%string] "B"%string
                (new_optimizer [] ex_destination_df []))
      as (st' & Hok).
    + apply inputs_okb_ok. reflexivity.
    + pose proof (eq_trans (eq_sym Hok) Hr) as E. discriminate E.
Qed.

(** C6, amended. No validation precedes model construction. When a
    valid (route, consignment) pair has no lane-time entry, or its
    destination has no row, [initialize_model] still creates all the
    variables, and the build then fails with an [IndexError] raised from
    within [add_constraints]: the pair is neither dropped nor encoded,
    no model is returned. *)
Theorem C6_missing_entry_raises_IndexError srcs dst self i j k :
  In (i, j, k) (combinations_of (source_df self) (routes_of srcs dst)) ->
  lane_times (trucking_df self) i j = [] \/
  destination_values Destination_ID (destination_df self) j = [] ->
  exists s1 st,
    initialize_model srcs dst self = Ok tt s1 /\
    (List.length (vars (model self)) < List.length (vars (model s1)))%nat /\
    add_constraints s1 = Raise IndexError st /\
    build srcs dst self = Raise IndexError st.
Proof.
  intros Hc Hmiss.
  destruct (build_fails srcs dst self) as (s1 & st & Hi & Ha & Hb & _).
  - intros (Hall & _). destruct (Hall i j k Hc) as (Hl & Hs).
    destruct Hmiss as [E|E]; [now apply Hl | now apply Hs].
  - exists s1, st. repeat split; auto.
    destruct (initialize_model_ok srcs dst self) as (s1' & Hi' & Hp).
    assert (s1' = s1) by congruence. subst s1'.
    destruct Hp as (_ & _ & _ & _ & _ & _ & E7 & _ & E9 & _).
    rewrite E9, E7, range_length.
    change (Z.to_nat (300 - 0)) with 300%nat. lia.
Qed.

(** C7 as the specification states it fails: [initialize_model] does
    not reset the model created by [__init__], so a second build on the
    same object adds its variables and constraints to those of the
    first. *)
Lemma C7_counterexample : ~ rebuild_is_idempotent.
Proof.
  intros H.
  destruct (build_succeeds ["A"%string] "B"%string ex_empty_optimizer)
    as (s1 & Hb1); [apply inputs_okb_ok; reflexivity|].
  pose proof (built_tables (build_inv Hb1)) as (_ & _ & _ & E1 & E2 & E3 & _).
  destruct (build_succeeds ["A"%string] "B"%string s1) as (s2 & Hb2).
  { rewrite E1, E2, E3. apply inputs_okb_ok. reflexivity. }
  destruct (H _ _ _ _ _ Hb1 Hb2) as (Hv & _).
  pose proof (build_counts _ _ _ _ Hb2) as (Hv2 & _).
  cbv zeta in Hv2. rewrite Hv in Hv2. lia.
Qed.

(** C7, amended. Two builds, each on a freshly constructed optimizer
    given the same tables and the same selection, yield the same model;
    it has [600 n + 2700] variables and [901 n + 606] constraints, [n]
    being the number of valid combinations. *)
Theorem C7_fresh_builds_agree sdf ddf tdf srcs dst st st' :
  build srcs dst (new_optimizer sdf ddf tdf) = Ok tt st ->
  build srcs dst (new_optimizer sdf ddf tdf) = Ok tt st' ->
  let n := Z.of_nat (List.length (combinations_of sdf (routes_of srcs dst))) in
  model st = model st' /\
  (Z.of_nat (List.length (vars (model st))) = 600 * n + 2700)%Z /\
  (Z.of_nat (List.length (constrs (model st))) = 901 * n + 606)%Z.
Proof.
  intros Hb Hb' n. split; [congruence|].
  pose proof (build_counts _ _ _ _ Hb) as (Hv & Hc).
  cbv zeta in Hv, Hc.
  change (vars (model (new_optimizer sdf ddf tdf))) with (@nil VarDecl) in Hv.
  change (constrs (model (new_optimizer sdf ddf tdf))) with (@nil Constr) in Hc.
  change (source_df (new_optimizer sdf ddf tdf)) with sdf in Hv, Hc.
  simpl List.length in Hv, Hc. subst n. split; lia.
Qed.

Lemma C10_witness :
  Forall (fun r => valid_time (raw_Start_of_shift r) /\
                   valid_time (raw_End_of_lay_on r)) ex_raw_destination_df /\
  exists b c,
    normalize_shift_times ex_raw_destination_df = [b; c] /\
    Destination_ID b = "B"%string /\
    (Start_of_shift b == 7)%Q /\ (End_of_lay_on b == 19)%Q /\
    Destination_ID c = "C"%string /\
    (Start_of_shift c == 22)%Q /\ (End_of_lay_on c == 61 / 2)%Q.
Proof.
  assert (H : Forall (fun r => valid_time (raw_Start_of_shift r) /\
                               valid_time (raw_End_of_lay_on r))
                     ex_raw_destination_df).
  { repeat constructor; simpl; lia. }
  split; [exact H|].
  pose proof (C10_normalized_shift_window ex_raw_destination_df H) as HF.
  remember (normalize_shift_times ex_raw_destination_df) as out eqn:E.
  clear E H. unfold ex_raw_destination_df in HF.
  inversion HF as [|r1 b raw1 ds1 Hb HF1]; subst.
  inversion HF1 as [|r2 c raw2 ds2 Hc HF2]; subst.
  inversion HF2; subst. clear HF HF1 HF2.
  exists b, c. split; [reflexivity|].
  cbv beta zeta in Hb, Hc. cbn [raw_Destination_ID raw_Start_of_shift
    raw_End_of_lay_on raw_Sorting_capacity hour minute] in Hb, Hc.
  destruct Hb as (Eb & _ & Sb & _ & Nb & _).
  destruct Hc as (Ec & _ & Sc & Lc & _ & _).
  split; [exact Eb|]. split; [rewrite Sb; reflexivity|].
  split.
  { rewrite Nb; [reflexivity|]. apply Qle_not_lt. vm_compute. discriminate. }
  split; [exact Ec|]. split; [rewrite Sc; reflexivity|].
  rewrite Lc; reflexivity.
Defined.

(* ================================================================== *)
(** * The small instance, built *)
(* ================================================================== *)

Lemma result_state_of {A} (r : result A) (a : A) (s : DHL_Optimization) :
  r = Ok a s -> r = Ok a (state_of r).
Proof. intros ->. reflexivity. Qed.

Lemma ex_inputs_ok :
  inputs_ok (source_df ex_optimizer) (destination_df ex_optimizer)
            (trucking_df ex_optimizer) ["A"%string] "B"%string.
Proof. apply inputs_okb_ok. reflexivity. Qed.

Lemma ex_build_ok : build ["A"%string] "B"%string ex_optimizer = Ok tt ex_built.
Proof.
  destruct (build_succeeds _ _ _ ex_inputs_ok) as (st & H).
  exact (result_state_of _ _ _ H).
Qed.

Lemma ex_valid_combinations :
  valid_combinations ex_built = [("A"%string, "B"%string, 7%Z)].
Proof.
  pose proof (built_tables (build_inv ex_build_ok))
    as (_ & _ & _ & _ & _ & _ & _ & E).
  exact (eq_trans E eq_refl).
Qed.

Lemma ex_trucks : trucks ex_built = range 0 300.
Proof. exact (proj1 (proj2 (proj2 (built_tables (build_inv ex_build_ok))))). Qed.

Lemma ex_combination_In :
  In ("A"%string, "B"%string, 7%Z) (valid_combinations ex_built).
Proof.
  exact (eq_ind_r (fun vc => In ("A"%string, "B"%string, 7%Z) vc)
                  (in_eq ("A"%string, "B"%string, 7%Z) [])
                  ex_valid_combinations).
Qed.

Lemma ex_truck_In : In 0%Z (trucks ex_built).
Proof.
  exact (eq_ind_r (fun tr => In 0%Z tr)
                  (proj2 (range_In 0 300 0) (conj (Z.le_refl 0) eq_refl))
                  ex_trucks).
Qed.

Lemma C8_witness :
  build ["A"%string] "B"%string ex_optimizer = Ok tt ex_built /\
  (trucks ex_built = range 0 300 /\
   forall l, (0 <= l < 300)%Z ->
     exists z, dict_get (Z ex_built) l = Some z /\
               forall s, feasible (model ex_built) s -> (s z == 1)%Q).
Proof.
  split; [exact ex_build_ok|].
  exact (C8_every_truck_is_used _ _ _ _ ex_build_ok).
Defined.

Lemma C1_witness :
  build ["A"%string] "B"%string ex_optimizer = Ok tt ex_built /\
  In ("A"%string, "B"%string, 7%Z) (valid_combinations ex_built) /\
  ((forall l, In l (trucks ex_built) ->
      exists x, dict_get (X ex_built) ("A"%string, "B"%string, 7%Z, l) = Some x) /\
   forall s, feasible (model ex_built) s ->
   exists l, In l (trucks ex_built) /\
             takes (X ex_built) s ("A"%string, "B"%string, 7%Z, l) 1 /\
             takes (Z ex_built) s l 1 /\
             forall l', In l' (trucks ex_built) ->
                        takes (X ex_built) s ("A"%string, "B"%string, 7%Z, l') 1 ->
                        l' = l).
Proof.
  split; [exact ex_build_ok|]. split; [exact ex_combination_In|].
  exact (C1_exactly_one_truck _ _ _ _ _ _ _ ex_build_ok ex_combination_In).
Defined.

Lemma C4_witness :
  build ["A"%string] "B"%string ex_optimizer = Ok tt ex_built /\
  In ("A"%string, "B"%string, 7%Z) (valid_combinations ex_built) /\
  In 0%Z (trucks ex_built) /\
  exists t x,
    dict_get (T ex_built) 0%Z = Some t /\
    dict_get (X ex_built) ("A"%string, "B"%string, 7%Z, 0%Z) = Some x /\
    In (mkConstr (Var t) GE (Mul (Const (inject_Z 8)) (Var x)) None)
       (constrs (model ex_built)) /\
    (forall s, feasible (model ex_built) s -> (s x == 1)%Q ->
               (inject_Z 8 <= s t)%Q).
Proof.
  split; [exact ex_build_ok|]. split; [exact ex_combination_In|].
  split; [exact ex_truck_In|].
  destruct (C4_release_time _ _ _ _ _ _ _ _
              ex_build_ok ex_combination_In ex_truck_In)
    as (r & t & x & Hr & _ & Ht & Hx & H).
  cbv zeta in H. destruct H as (Hin & _ & Hf).
  vm_compute in Hr. injection Hr as <-.
  exists t, x. split; [exact Ht|]. split; [exact Hx|].
  split; [exact Hin | exact Hf].
Defined.

Lemma C5_witness :
  build ["A"%string] "B"%string ex_optimizer = Ok tt ex_built /\
  In ("A"%string, "B"%string, 7%Z) (valid_combinations ex_built) /\
  In 0%Z (trucks ex_built) /\
  exists s1 shift lane t x ds m,
    initialize_model ["A"%string] "B"%string ex_optimizer = Ok tt s1 /\
    ((Start_of_shift shift == 7)%Q /\ (End_of_lay_on shift == 19)%Q /\
     (OSRM_time lane / 3600 == 1)%Q) /\
    dict_get (T ex_built) 0%Z = Some t /\
    dict_get (X ex_built) ("A"%string, "B"%string, 7%Z, 0%Z) = Some x /\
    day_terms_of ex_built (fun d => inject_Z (d - 1)) 0%Z ds /\
    declared ex_built m (mkVar INTEGER 0 None (multiplier_ "A" "B" 7 0)) /\
    (List.length (vars (model s1)) <= m)%nat /\
    let travel_time := (OSRM_time lane / 3600)%Q in
    let arrival := arrival_expr t x travel_time ds m in
    In (mkConstr arrival GE (Const (Start_of_shift shift)) None)
       (constrs (model ex_built)) /\
    In (mkConstr arrival LE (Const (End_of_lay_on shift)) None)
       (constrs (model ex_built)) /\
    forall s, feasible (model ex_built) s ->
      is_integer (s m) /\
      (Start_of_shift shift <=
         s t + travel_time * s x + 24 * Qsum (map (eval s) ds) - 24 * s m
       <= End_of_lay_on shift)%Q.
Proof.
  split; [exact ex_build_ok|]. split; [exact ex_combination_In|].
  split; [exact ex_truck_In|].
  destruct (C5_arrival_window _ _ _ _ _ _ _ _
              ex_build_ok ex_combination_In ex_truck_In)
    as (s1 & shift & lane & t & x & ds & m & Hi & Hs & Hl & Hrest).
  exists s1, shift, lane, t, x, ds, m.
  split; [exact Hi|]. split; [|exact Hrest].
  clear Hrest. vm_compute in Hs. vm_compute in Hl.
  injection Hs as <-. injection Hl as <-.
  repeat split; reflexivity.
Defined.

Lemma C6_witness :
  In ("A"%string, "B"%string, 7%Z)
     (combinations_of (source_df ex_no_lane_optimizer)
                      (routes_of ["A"%string] "B"%string)) /\
  (lane_times (trucking_df ex_no_lane_optimizer) "A" "B" = [] \/
   destination_values Destination_ID (destination_df ex_no_lane_optimizer) "B"
   = []) /\
  exists s1 st,
    initialize_model ["A"%string] "B"%string ex_no_lane_optimizer = Ok tt s1 /\
    (List.length (vars (model ex_no_lane_optimizer))
     < List.length (vars (model s1)))%nat /\
    add_constraints s1 = Raise IndexError st /\
    build ["A"%string] "B"%string ex_no_lane_optimizer = Raise IndexError st.
Proof.
  assert (Hc : In ("A"%string, "B"%string, 7%Z)
                  (combinations_of (source_df ex_no_lane_optimizer)
                                   (routes_of ["A"%string] "B"%string)))
    by (left; reflexivity).
  assert (Hm : lane_times (trucking_df ex_no_lane_optimizer) "A" "B" = [] \/
               destination_values Destination_ID
                 (destination_df ex_no_lane_optimizer) "B" = [])
    by (left; reflexivity).
  split; [exact Hc|]. split; [exact Hm|].
  exact (C6_missing_entry_raises_IndexError _ _ _ _ _ _ Hc Hm).
Defined.

Lemma C7_witness :
  build ["A"%string] "B"%string
        (new_optimizer ex_source_df ex_destination_df ex_trucking_df)
  = Ok tt ex_built /\
  (model ex_built = model ex_built /\
   (Z.of_nat (List.length (vars (model ex_built))) = 3300)%Z /\
   (Z.of_nat (List.length (constrs (model ex_built))) = 1507)%Z).
Proof.
  split; [exact ex_build_ok|].
  exact (C7_fresh_builds_agree _ _ _ _ _ _ _ ex_build_ok ex_build_ok).
Defined.

Lemma unused_truck_infeasible st l :
  tables_ok st -> In l (trucks st) -> arrival_day_for st l ->
  exists z, dict_get (Z st) l = Some z /\
            forall s, (s z == 0)%Q -> ~ feasible (model st) s.
Proof.
  intros Hok Hin Hday.
  pose proof Hok as (_ & HZ & _). destruct (HZ _ Hin) as (z & Hz & _).
  exists z. split; [exact Hz|]. intros s H0 Hf.
  destruct (arrival_day_forces_use Hok Hin Hday Hf) as (z' & Hz' & H1).
  assert (z' = z) by congruence. subst z'. rewrite H0 in H1. lra.
Qed.

(** C3. On the instance above, leaving truck 299 unused is not allowed
    by the model, whatever its arrival-day indicators are: the
    constraint named "Assigning Arrival Day to each used truck" is
    imposed on it as on every truck, and no feasible solution has
    [Z[299] = 0]. *)
Theorem C3_unused_truck_is_infeasible :
  arrival_day_for ex_built 299%Z /\
  exists z, dict_get (Z ex_built) 299%Z = Some z /\
            forall s, (s z == 0)%Q -> ~ feasible (model ex_built) s.
Proof.
  pose proof (build_inv ex_build_ok) as Hb.
  destruct (built_tables Hb) as (Hok & _ & Etr & _).
  destruct Hb as (s1 & _ & _ & _ & _ & Hcp & _).
  destruct Hcp as (_ & _ & _ & _ & Hday & _).
  assert (Hin : In 299%Z (trucks ex_built)).
  { apply (eq_ind_r (fun tr => In 299%Z tr) (proj2 (range_In 0 300 299) ltac:(lia)) Etr). }
  exact (conj (Hday _ Hin) (unused_truck_infeasible _ _ Hok Hin (Hday _ Hin))).
Qed.

(* ================================================================== *)
(** * The minutes of the loading times are never read *)
(* ================================================================== *)

Section Minutes.
Variable f : source_row -> int.

Lemma ids_on_route_minutes df i j :
  ids_on_route (map (set_minutes f) df) i j = ids_on_route df i j.
Proof.
  unfold ids_on_route. induction df as [|r df IH]; simpl; [reflexivity|].
  destruct (key_eqb (src_Origin_ID r) i && key_eqb (src_Destination_ID r) j);
    simpl; now rewrite IH.
Qed.

Lemma release_hours_minutes df k :
  release_hours (map (set_minutes f) df) k = release_hours df k.
Proof.
  unfold release_hours. induction df as [|r df IH]; simpl; [reflexivity|].
  destruct (key_eqb (id r) k); simpl; now rewrite IH.
Qed.

Lemma quantities_minutes df k :
  quantities (map (set_minutes f) df) k = quantities df k.
Proof.
  unfold quantities. induction df as [|r df IH]; simpl; [reflexivity|].
  destruct (key_eqb (id r) k); simpl; now rewrite IH.
Qed.

Lemma consignments_of_minutes df rl :
  consignments_of (map (set_minutes f) df) rl = consignments_of df rl.
Proof.
  unfold consignments_of. apply flat_map_ext. intros [i j].
  apply ids_on_route_minutes.
Qed.

Lemma combinations_of_minutes df rl :
  combinations_of (map (set_minutes f) df) rl = combinations_of df rl.
Proof.
  unfold combinations_of. rewrite consignments_of_minutes.
  apply flat_map_ext. intros [i j]. apply flat_map_ext. intros k.
  now rewrite ids_on_route_minutes.
Qed.

Lemma prepare_minutes srcs dst s :
  prepare srcs dst (with_minutes f s) = with_minutes f (prepare srcs dst s).
Proof.
  unfold prepare, with_minutes. simpl source_df.
  rewrite consignments_of_minutes, combinations_of_minutes. reflexivity.
Qed.

(** ** Rules *)

Lemma ignores_ret {A} (a : A) : ignores_minutes f (ret a).
Proof. intros s. reflexivity. Qed.

Lemma ignores_bind {A B} (m : M A) (k : A -> M B) :
  ignores_minutes f m -> (forall a, ignores_minutes f (k a)) ->
  ignores_minutes f (bind m k).
Proof.
  intros Hm Hk s. unfold bind. rewrite Hm.
  destruct (m s) as [a s'|e s']; simpl; [apply Hk | reflexivity].
Qed.

Lemma ignores_gets {A} (g : DHL_Optimization -> A) :
  (forall s, g (with_minutes f s) = g s) -> ignores_minutes f (gets g).
Proof. intros Hg s. unfold gets. now rewrite Hg. Qed.

Lemma ignores_modify (g : DHL_Optimization -> DHL_Optimization) :
  (forall s, g (with_minutes f s) = with_minutes f (g s)) ->
  ignores_minutes f (modify g).
Proof. intros Hg s. unfold modify. now rewrite Hg. Qed.

Lemma ignores_lookup {K V} `{Key K} e (g : DHL_Optimization -> dict K V) k :
  (forall s, g (with_minutes f s) = g s) -> ignores_minutes f (lookup e g k).
Proof.
  intros Hg s. unfold lookup. rewrite Hg.
  destruct (dict_get (g s) k); reflexivity.
Qed.

Lemma ignores_values0 {A} (l : list A) : ignores_minutes f (values0 l).
Proof. intros s. destruct l; reflexivity. Qed.

Lemma ignores_addVar vt l u name : ignores_minutes f (addVar vt l u name).
Proof. intros s. reflexivity. Qed.

Lemma ignores_addConstr lhs sense rhs name :
  ignores_minutes f (addConstr lhs sense rhs name).
Proof. intros s. reflexivity. Qed.

Lemma ignores_setObjective e sense : ignores_minutes f (setObjective e sense).
Proof. intros s. reflexivity. Qed.

Lemma ignores_forM_ {A} (xs : list A) (body : A -> M unit) :
  (forall x, ignores_minutes f (body x)) -> ignores_minutes f (forM_ xs body).
Proof.
  intros Hb. induction xs as [|x r IH]; simpl;
    [apply ignores_ret | apply ignores_bind; auto].
Qed.

Lemma ignores_mapM {A B} (g : A -> M B) (xs : list A) :
  (forall x, ignores_minutes f (g x)) -> ignores_minutes f (mapM g xs).
Proof.
  intros Hg. induction xs as [|x r IH]; simpl; [apply ignores_ret|].
  apply ignores_bind; [apply Hg|]. intros b.
  apply ignores_bind; [apply IH|]. intros bs. apply ignores_ret.
Qed.

(** A method that reads the manifest only through a selection that
    does not look at the minutes. *)
Lemma ignores_gets_source_df {B} (k : list source_row -> M B) :
  (forall df s, k (map (set_minutes f) df) s = k df s) ->
  (forall df, ignores_minutes f (k df)) ->
  ignores_minutes f (bind (gets source_df) k).
Proof.
  intros Hk Hi s. rewrite !bind_gets.
  change (source_df (with_minutes f s)) with (map (set_minutes f) (source_df s)).
  rewrite Hk. apply Hi.
Qed.

Lemma mapM_ext {A B} (g g' : A -> M B) xs s :
  (forall x s, g x s = g' x s) -> mapM g xs s = mapM g' xs s.
Proof.
  intros Hg. revert s. induction xs as [|x r IH]; intros s; simpl; [reflexivity|].
  unfold bind. rewrite Hg. destruct (g' x s) as [b s'|e s']; [|reflexivity].
  rewrite IH. reflexivity.
Qed.

End Minutes.

Ltac ignores_step :=
  lazymatch goal with
  | |- ignores_minutes _ (ret _) => apply ignores_ret
  | |- ignores_minutes _ (bind _ _) => apply ignores_bind; [|intros ?]
  | |- ignores_minutes _ (addVar _ _ _ _) => apply ignores_addVar
  | |- ignores_minutes _ (addConstr _ _ _ _) => apply ignores_addConstr
  | |- ignores_minutes _ (setObjective _ _) => apply ignores_setObjective
  | |- ignores_minutes _ (values0 _) => apply ignores_values0
  | |- ignores_minutes _ (lookup _ _ _) =>
      apply ignores_lookup; intros ?; reflexivity
  | |- ignores_minutes _ (gets _) => apply ignores_gets; intros ?; reflexivity
  | |- ignores_minutes _ (modify _) =>
      apply ignores_modify; intros ?; reflexivity
  | |- ignores_minutes _ (forM_ _ _) => apply ignores_forM_; intros ?
  | |- ignores_minutes _ (mapM _ _) => apply ignores_mapM; intros ?
  end.

Ltac ignores_auto :=
  repeat match goal with
         | |- ignores_minutes _ (let '(_, _) := ?p in _) => destruct p
         | |- ignores_minutes _ (match ?p with _ => _ end) => destruct p
         | |- ignores_minutes _ _ => ignores_step
         end.

Lemma day_terms_ignores f c l : ignores_minutes f (day_terms c l).
Proof.
  unfold day_terms, getArrivalDayBinary. ignores_auto.
Qed.

Lemma capacity_constraints_ignores f : ignores_minutes f capacity_constraints.
Proof.
  unfold capacity_constraints, getX, getZ. ignores_auto.
Qed.

Lemma release_constraints_ignores f : ignores_minutes f release_constraints.
Proof.
  unfold release_constraints, getX, getT.
  ignores_step; [ignores_step|]. ignores_step; [ignores_step|].
  apply ignores_forM_. intros [[i j] k].
  apply ignores_gets_source_df.
  - intros df s. now rewrite release_hours_minutes.
  - intros df. ignores_auto.
Qed.

Lemma window_constraints_ignores f : ignores_minutes f window_constraints.
Proof.
  unfold window_constraints, getX, getT, getArrivalTime.
  ignores_step; [ignores_step|]. ignores_step; [ignores_step|].
  apply ignores_forM_. intros [[i j] k].
  repeat (ignores_step; [ignores_step|]).
  apply ignores_forM_. intros l.
  repeat (ignores_step; [first [apply day_terms_ignores | ignores_step]|]).
  ignores_step.
Qed.

Lemma assignment_constraints_ignores f : ignores_minutes f assignment_constraints.
Proof.
  unfold assignment_constraints, getX, getZ.
  ignores_step; [ignores_step|]. ignores_step; [ignores_step|].
  apply ignores_forM_. intros [[i j] k]. ignores_auto.
Qed.

Lemma sorting_constraints_ignores f : ignores_minutes f sorting_constraints.
Proof.
  unfold sorting_constraints, getX, getArrivalDayBinary.
  ignores_step; [ignores_step|].
  apply ignores_forM_. intros j.
  repeat (ignores_step; [ignores_step|]).
  apply ignores_forM_. intros d.
  repeat (ignores_step; [ignores_step|]).
  apply ignores_gets_source_df.
  - intros df s. unfold bind at 1 3.
    erewrite mapM_ext; [reflexivity|].
    intros [[i k] l] s'. now rewrite quantities_minutes.
  - intros df. ignores_step; [|ignores_step].
    apply ignores_mapM. intros [[i k] l]. ignores_auto.
Qed.

Lemma arrival_day_constraints_ignores f :
  ignores_minutes f arrival_day_constraints.
Proof.
  unfold arrival_day_constraints, getArrivalDayBinary, getZ. ignores_auto.
Qed.

Lemma add_constraints_ignores f : ignores_minutes f add_constraints.
Proof.
  unfold add_constraints.
  repeat (apply ignores_bind; [|intros _]).
  - apply capacity_constraints_ignores.
  - apply release_constraints_ignores.
  - apply window_constraints_ignores.
  - apply assignment_constraints_ignores.
  - apply sorting_constraints_ignores.
  - apply arrival_day_constraints_ignores.
Qed.

Lemma init_loops_ignores f (tr : list int) (vc : list combination) :
  ignores_minutes f
    (forM_ (flat_map (fun '(i, j, k) => map (fun l => (i, j, k, l)) tr) vc)
       (fun '(i, j, k, l) =>
          v <- addVar BINARY 0 None (X_ i j k l) ;;
          modify (fun self => with_X (dict_set (X self) (i, j, k, l) v) self)) ;;
     forM_ tr
       (fun l =>
          v <- addVar BINARY 0 None (Z_ l) ;;
          modify (fun self => with_Z (dict_set (Z self) l v) self) ;;
          v <- addVar CONTINUOUS 0 None (T_ l) ;;
          modify (fun self => with_T (dict_set (T self) l v) self) ;;
          v <- addVar CONTINUOUS 0 (Some 24%Q) (ArrivalTime_ l) ;;
          modify (fun self =>
                    with_ArrivalTime (dict_set (ArrivalTime self) l (Var v)) self) ;;
          forM_ (range 1 7)
            (fun d =>
               v <- addVar BINARY 0 None (ArrivalDayBinary_ l d) ;;
               modify (fun self =>
                 with_ArrivalDayBinary
                   (dict_set (ArrivalDayBinary self) (l, d) v) self))) ;;
     terms <- mapM (fun l => z <- getZ l ;;
                             ds <- day_terms inject_Z l ;;
                             ret (Mul (Var z) (quicksum ds))) tr ;;
     setObjective (quicksum terms) MINIMIZE).
Proof.
  apply ignores_bind; [|intros _].
  { apply ignores_forM_. intros [[[i j] k] l]. ignores_auto. }
  apply ignores_bind; [|intros _].
  { apply ignores_forM_. intros l. ignores_auto. }
  apply ignores_bind; [|intros terms; apply ignores_setObjective].
  apply ignores_mapM. intros l. unfold getZ.
  apply ignores_bind; [ignores_step|intros z].
  apply ignores_bind; [apply day_terms_ignores | intros ds; apply ignores_ret].
Qed.

Lemma initialize_model_ignores f srcs dst :
  ignores_minutes f (initialize_model srcs dst).
Proof.
  intros s. rewrite !initialize_model_eq. cbv zeta.
  rewrite prepare_minutes.
  exact (init_loops_ignores f (trucks (prepare srcs dst s))
           (valid_combinations (prepare srcs dst s)) (prepare srcs dst s)).
Qed.

(** The whole build cannot tell two manifests apart that differ only in
    the minutes of the loading times. *)
Lemma build_ignores f srcs dst : ignores_minutes f (build srcs dst).
Proof.
  unfold build. apply ignores_bind; [apply initialize_model_ignores|].
  intros _. apply add_constraints_ignores.
Qed.

(** C9. The release-time bound of the model is the whole-hour component
    of the loading time: the minutes are discarded. Rewriting the
    minutes of the manifest in any way leaves the built model unchanged;
    the release constraint of a consignment loaded at hour [h], minute
    [m] is [T >= h * X], which a departure at [h] sharp satisfies
    although, for [m > 0], it precedes the loading time, by [m] minutes
    (at most 59). *)
Theorem C9_release_bound_ignores_minutes srcs dst self st f :
  build srcs dst self = Ok tt st ->
  (build srcs dst (with_minutes f self) = Ok tt (with_minutes f st) /\
   model (with_minutes f st) = model st) /\
  forall i j k l,
    In (i, j, k) (valid_combinations st) -> In l (trucks st) ->
    exists r t x,
      hd_error (filter (fun r => key_eqb (id r) k) (source_df self)) = Some r /\
      dict_get (T st) l = Some t /\
      dict_get (X st) (i, j, k, l) = Some x /\
      let ts := planned_end_of_loading r in
      let c := mkConstr (Var t) GE
                        (Mul (Const (inject_Z (hour ts))) (Var x)) None in
      In c (constrs (model st)) /\
      (forall s, (s x == 1)%Q -> (s t == inject_Z (hour ts))%Q -> holds s c) /\
      ((0 < minute ts)%Z -> (inject_Z (hour ts) < hours_of ts)%Q) /\
      ((minute ts <= 59)%Z ->
       (hours_of ts - inject_Z (hour ts) <= 59 / 60)%Q).
Proof.
  intros Hb. split.
  - split; [|reflexivity].
    rewrite (build_ignores f srcs dst self).
    exact (f_equal (map_state (with_minutes f)) Hb).
  - intros i j k l Hc Hl. apply build_inv in Hb.
    destruct (built_tables Hb) as (_ & _ & _ & Esdf & _).
    destruct Hb as (s1 & _ & _ & _ & _ & Hcp & _).
    destruct Hcp as (_ & Hrel & _).
    destruct (Hrel (i, j, k) l Hc Hl) as (rt & t & x & Hrt & Ht & Hx & Hin).
    rewrite Esdf in Hrt. apply hd_error_map in Hrt.
    destruct Hrt as (r & Hr & <-).
    exists r, t, x. repeat (split; [assumption|]).
    split; [|split].
    + intros s H1 Ht'. unfold holds. simpl. rewrite H1, Ht'. lra.
    + intros Hm. unfold hours_of.
      assert (0 < inject_Z (minute (planned_end_of_loading r)))%Q
        by (rewrite <- (Zlt_Qlt 0); exact Hm).
      assert (0 < inject_Z (minute (planned_end_of_loading r)) / 60)%Q
        by (apply Qlt_shift_div_l; lra).
      lra.
    + intros Hm. unfold hours_of.
      assert (inject_Z (minute (planned_end_of_loading r)) <= 59)%Q
        by (rewrite <- (Zle_Qle _ 59); exact Hm).
      assert (inject_Z (minute (planned_end_of_loading r)) / 60 <= 59 / 60)%Q.
      { apply Qle_shift_div_r; [lra|].
        setoid_replace (59 / 60 * 60)%Q with 59%Q by reflexivity. assumption. }
      lra.
Qed.

Lemma C9_witness :
  build ["A"%string] "B"%string ex_optimizer = Ok tt ex_built /\
  ((build ["A"%string] "B"%string (with_minutes (fun _ => 0%Z) ex_optimizer)
    = Ok tt (with_minutes (fun _ => 0%Z) ex_built) /\
    model (with_minutes (fun _ => 0%Z) ex_built) = model ex_built) /\
   forall i j k l,
     In (i, j, k) (valid_combinations ex_built) -> In l (trucks ex_built) ->
     exists r t x,
       hd_error (filter (fun r => key_eqb (id r) k) (source_df ex_optimizer))
       = Some r /\
       dict_get (T ex_built) l = Some t /\
       dict_get (X ex_built) (i, j, k, l) = Some x /\
       let ts := planned_end_of_loading r in
       let c := mkConstr (Var t) GE
                         (Mul (Const (inject_Z (hour ts))) (Var x)) None in
       In c (constrs (model ex_built)) /\
       (forall s, (s x == 1)%Q -> (s t == inject_Z (hour ts))%Q -> holds s c) /\
       ((0 < minute ts)%Z -> (inject_Z (hour ts) < hours_of ts)%Q) /\
       ((minute ts <= 59)%Z ->
        (hours_of ts - inject_Z (hour ts) <= 59 / 60)%Q)).
Proof.
  split; [exact ex_build_ok|].
  exact (C9_release_bound_ignores_minutes _ _ _ _ (fun _ => 0%Z) ex_build_ok).
Defined.

(* ================================================================== *)
(** * Further properties of [initialize_model] and of the build *)
(* ================================================================== *)

Lemma routes_of_In srcs dst i j :
  In (i, j) (routes_of srcs dst) <-> In i srcs /\ j = dst /\ i <> j.
Proof.
  unfold routes_of. rewrite in_flat_map. split.
  - intros (i0 & Hi0 & H). simpl in H. rewrite app_nil_r in H.
    destruct (key_eqb i0 dst) eqn:E; simpl in H; [contradiction|].
    destruct H as [[= -> ->]|[]].
    split; [exact Hi0|]. split; [reflexivity|].
    intros ->. rewrite key_eqb_refl in E. discriminate.
  - intros (Hi & -> & N). exists i. split; [exact Hi|].
    simpl. rewrite (key_eqb_neq N). simpl. now left.
Qed.

Lemma ids_on_route_In sdf i j k :
  In k (ids_on_route sdf i j) <->
  exists r, In r sdf /\ src_Origin_ID r = i /\ src_Destination_ID r = j /\
            id r = k.
Proof.
  unfold ids_on_route. rewrite in_map_iff. split.
  - intros (r & Hk & Hr). apply filter_In in Hr. destruct Hr as (Hr & Hb).
    apply andb_true_iff in Hb. destruct Hb as (H1 & H2).
    apply key_eqb_spec in H1. apply key_eqb_spec in H2. eauto.
  - intros (r & Hr & <- & <- & Hk). exists r. split; [exact Hk|].
    apply filter_In. split; [exact Hr|]. now rewrite !key_eqb_refl.
Qed.

Lemma combinations_of_In sdf rl i j k :
  In (i, j, k) (combinations_of sdf rl) <->
  In (i, j) rl /\ In k (ids_on_route sdf i j).
Proof.
  unfold combinations_of. rewrite in_flat_map. split.
  - intros ([i' j'] & Hr & H). apply in_flat_map in H.
    destruct H as (k' & _ & H).
    destruct (member k' (ids_on_route sdf i' j')) eqn:Hm; [|contradiction].
    destruct H as [[= -> -> ->]|[]].
    split; [exact Hr | now apply member_In].
  - intros (Hr & Hk). exists (i, j). split; [exact Hr|].
    apply in_flat_map. exists k. split.
    + unfold consignments_of. apply in_flat_map. exists (i, j). auto.
    + apply member_In in Hk. rewrite Hk. now left.
Qed.

(** X1. [initialize_model] returns for every selection and every
    manifest, and the valid combinations it stores are exactly the
    triples [(i, j, k)] with [i] a selected source other than the
    selected destination [j] and [k] the id of a manifest row from [i]
    to [j]. A destination that is also selected as a source contributes
    nothing. *)
Theorem X1_valid_combinations srcs dst self :
  exists s1,
    initialize_model srcs dst self = Ok tt s1 /\
    source_list s1 = srcs /\
    destination_list s1 = [dst] /\
    forall i j k,
      In (i, j, k) (valid_combinations s1) <->
      In i srcs /\ j = dst /\ i <> j /\
      exists r, In r (source_df self) /\ src_Origin_ID r = i /\
                src_Destination_ID r = j /\ id r = k.
Proof.
  destruct (initialize_model_ok srcs dst self) as (s1 & Hi & Hp).
  destruct Hp as (_ & _ & _ & E4 & E5 & E6 & _).
  exists s1. split; [exact Hi|]. split; [exact E4|]. split; [exact E5|].
  intros i j k. rewrite E6, combinations_of_In, routes_of_In, ids_on_route_In.
  tauto.
Qed.

(** X2. [initialize_model] never raises, adds no constraint, and leaves
    the pool at trucks 0..299 with the variable tables filled: a binary
    [X] for every valid combination and truck, a binary [Z] and a
    continuous [T >= 0] for every truck, a binary day indicator for
    every truck and day 1..6 ([tables_ok]); it adds 300 variables per
    valid combination and 2700 for the trucks. *)
Theorem X2_initialize_model_fills_tables srcs dst self :
  exists s1,
    initialize_model srcs dst self = Ok tt s1 /\
    trucks s1 = range 0 300 /\
    tables_ok s1 /\
    constrs (model s1) = constrs (model self) /\
    (Z.of_nat (List.length (vars (model s1)))
     = Z.of_nat (List.length (vars (model self)))
       + 300 * Z.of_nat (List.length (valid_combinations s1)) + 2700)%Z.
Proof.
  destruct (initialize_model_ok srcs dst self) as (s1 & Hi & Hp).
  destruct Hp as (_ & _ & _ & _ & _ & _ & E7 & E8 & E9 & Hok & _).
  exists s1. split; [exact Hi|]. split; [exact E7|]. split; [exact Hok|].
  split; [exact E8|].
  rewrite E9, E7, range_length.
  change (Z.to_nat (300 - 0)) with 300%nat. lia.
Qed.

Lemma inputs_ok_okb sdf ddf tdf srcs dst :
  inputs_ok sdf ddf tdf srcs dst -> inputs_okb sdf ddf tdf srcs dst = true.
Proof.
  unfold inputs_okb, inputs_ok. intros (Hc & Hd).
  rewrite andb_true_iff, forallb_forall. split.
  - intros [[i j] k] Hin. destruct (Hc i j k Hin) as (H1 & H2).
    apply andb_true_iff. split; apply nonempty_true; assumption.
  - now apply nonempty_true.
Qed.

(** X3. The build ([initialize_model] then [add_constraints]) returns
    exactly when the check [inputs_okb] passes: every valid combination
    has a lane-time entry and a destination row, and the selected
    destination has a destination row. Whenever it raises, the exception
    is [IndexError]. *)
Theorem X3_build_returns_iff srcs dst self :
  ((exists st, build srcs dst self = Ok tt st) <->
   inputs_okb (source_df self) (destination_df self) (trucking_df self)
              srcs dst = true) /\
  (forall e st, build srcs dst self = Raise e st -> e = IndexError).
Proof.
  split; [split|].
  - intros (st & Hb). apply inputs_ok_okb.
    destruct (inputs_okb (source_df self) (destination_df self)
                (trucking_df self) srcs dst) eqn:E.
    + now apply inputs_okb_ok.
    + exfalso.
      destruct (build_fails srcs dst self) as (s1 & st' & _ & _ & Hr & _).
      * intros Hin. apply inputs_ok_okb in Hin. congruence.
      * congruence.
  - intros E. apply build_succeeds. now apply inputs_okb_ok.
  - intros e st Hr.
    destruct (inputs_okb (source_df self) (destination_df self)
                (trucking_df self) srcs dst) eqn:E.
    + destruct (build_succeeds srcs dst self (inputs_okb_ok _ _ _ _ _ E))
        as (st' & Hok).
      congruence.
    + destruct (build_fails srcs dst self) as (s1 & st' & _ & _ & Hr' & _).
      * intros Hin. apply inputs_ok_okb in Hin. congruence.
      * congruence.
Qed.

Lemma Forall2_Var_inv {A} (P : A -> nat -> Prop) (cs : list A) (es : list expr) :
  Forall2 (fun c e => exists x, P c x /\ e = Var x) cs es ->
  exists xs, Forall2 P cs xs /\ es = map Var xs.
Proof.
  induction 1 as [|c e cs es (x & Hx & ->) _ (xs & Hxs & ->)].
  - exists []. split; [constructor | reflexivity].
  - exists (x :: xs). split; [now constructor | reflexivity].
Qed.

(** X4. In a built model, for every truck [l] the first constraint
    family bounds the number of consignments it carries: in every
    feasible solution the [X] variables of truck [l], one per valid
    combination, sum to at most [2 * Z[l]], hence to at most 2. *)
Theorem X4_truck_capacity srcs dst self st l :
  build srcs dst self = Ok tt st ->
  In l (trucks st) ->
  exists xs z,
    Forall2 (fun (c : combination) x => dict_get (X st) (c, l) = Some x)
            (valid_combinations st) xs /\
    dict_get (Z st) l = Some z /\
    forall s, feasible (model st) s ->
      (Qsum (map s xs) <= 2 * s z)%Q /\ (Qsum (map s xs) <= 2)%Q.
Proof.
  intros Hb Hl. apply build_inv in Hb.
  destruct (built_tables Hb) as (Hok & _).
  destruct Hb as (s1 & _ & _ & _ & _ & Hcp & _).
  destruct Hcp as (Hcap & _).
  destruct (Hcap l Hl) as (es & z & HF & Hz & Hin).
  destruct (@Forall2_Var_inv combination
              (fun c x => dict_get (X st) (c, l) = Some x)
              (valid_combinations st) es) as (xs & Hxs & ->).
  { eapply Forall2_weaken; [|exact HF].
    intros [[i j] k] e _ (x & Hx & ->). eauto. }
  exists xs, z. split; [exact Hxs|]. split; [exact Hz|].
  intros s Hf.
  pose proof (feasible_holds Hf Hin) as Hh. unfold holds in Hh. simpl in Hh.
  rewrite map_map in Hh.
  assert (Hle : (Qsum (map s xs) <= 2 * s z)%Q) by exact Hh.
  split; [exact Hle|].
  destruct Hok as (_ & HZ & _). destruct (HZ l Hl) as (z' & Hz' & Hd).
  assert (z' = z) by congruence. subst z'.
  destruct (respects_binary (feasible_declared Hf Hd) eq_refl) as [H0|H1].
  - rewrite H0 in Hle. lra.
  - rewrite H1 in Hle. lra.
Qed.

Lemma X4_witness :
  build ["A"%string] "B"%string ex_optimizer = Ok tt ex_built /\
  In 0%Z (trucks ex_built) /\
  exists xs z,
    Forall2 (fun (c : combination) x => dict_get (X ex_built) (c, 0%Z) = Some x)
            (valid_combinations ex_built) xs /\
    dict_get (Z ex_built) 0%Z = Some z /\
    forall s, feasible (model ex_built) s ->
      (Qsum (map s xs) <= 2 * s z)%Q /\ (Qsum (map s xs) <= 2)%Q.
Proof.
  split; [exact ex_build_ok|]. split; [exact ex_truck_In|].
  exact (X4_truck_capacity _ _ _ _ _ ex_build_ok ex_truck_In).
Defined.

(** ** [initialize_model] as a function *)

Lemma objective_terms_shape s :
  tables_ok s ->
  exists terms,
    mapM (fun l => z <- getZ l ;;
                   ds <- day_terms inject_Z l ;;
                   ret (Mul (Var z) (quicksum ds))) (trucks s) s = Ok terms s /\
    Forall2 (fun l e => exists z ds,
               dict_get (Z s) l = Some z /\
               day_terms_of s inject_Z l ds /\
               e = Mul (Var z) (quicksum ds))
            (trucks s) terms.
Proof.
  intros Hok. apply mapM_readonly. intros l Hl.
  pose proof Hok as (_ & HZ & _).
  destruct (HZ l Hl) as (z & Hz & _).
  destruct (@day_terms_ok inject_Z l s Hok Hl) as (ds & Hds & Hdt).
  exists (Mul (Var z) (quicksum ds)). split; [|eauto].
  unfold getZ. rewrite (bind_ok _ _ (lookup_ok KeyError Z Hz)), (bind_ok _ _ Hds).
  reflexivity.
Qed.

Lemma init_loops_tables_ok s :
  inputs (init_loops s) = inputs s /\ tables_ok (init_loops s).
Proof.
  destruct (init_inv_tables_ok (init_loops_inv s)) as (Hi & _ & _ & Hok).
  split; [exact Hi | exact Hok].
Qed.

(** The object [initialize_model] returns: the loops' result with the
    objective set. *)
Lemma initialize_model_state srcs dst self :
  exists terms,
    initialize_model srcs dst self
    = Ok tt (add_objective (quicksum terms, MINIMIZE)
                           (init_loops (prepare srcs dst self))) /\
    Forall2 (fun l e => exists z ds,
               dict_get (Z (init_loops (prepare srcs dst self))) l = Some z /\
               day_terms_of (init_loops (prepare srcs dst self)) inject_Z l ds /\
               e = Mul (Var z) (quicksum ds))
            (trucks (init_loops (prepare srcs dst self))) terms.
Proof.
  rewrite initialize_model_eq. cbv zeta.
  generalize (prepare srcs dst self). intros s.
  rewrite (bind_ok _ _ (forM__fold _ set_X_var _ X_body_eq s)).
  rewrite (bind_ok _ _ (forM__fold _ truck_step (trucks s) truck_body_eq _)).
  destruct (init_loops_tables_ok s) as (Hi & Hok).
  assert (Htr : trucks (init_loops s) = trucks s) by (injection Hi; auto).
  destruct (objective_terms_shape (init_loops s) Hok) as (terms & Hterms & HF).
  rewrite Htr in Hterms. unfold init_loops in Hterms at 1 2.
  rewrite (bind_ok _ _ Hterms).
  exists terms. split; [reflexivity | exact HF].
Qed.

Lemma fold_appends_standard {A} (f : A -> DHL_Optimization -> DHL_Optimization) :
  (forall a s, exists ds, vars (model (f a s)) = vars (model s) ++ ds /\
                          Forall standard ds) ->
  forall xs s, exists ds,
    vars (model (fold_left (fun s a => f a s) xs s)) = vars (model s) ++ ds /\
    Forall standard ds.
Proof.
  intros Hf. induction xs as [|a r IH]; intros s; simpl.
  - exists []. split; [now rewrite app_nil_r | constructor].
  - destruct (Hf a s) as (d1 & E1 & F1).
    destruct (IH (f a s)) as (d2 & E2 & F2).
    exists (d1 ++ d2). split; [|now apply Forall_app].
    now rewrite E2, E1, app_assoc.
Qed.

Lemma truck_step_standard l s :
  exists ds, vars (model (truck_step l s)) = vars (model s) ++ ds /\
             Forall standard ds.
Proof.
  unfold truck_step.
  destruct (fold_appends_standard
              (fun d s => set_ArrivalDayBinary_var (l, d) s)
              (fun d s => ex_intro _ [ArrivalDayBinary_decl (l, d)]
                            (conj eq_refl (Forall_cons _ eq_refl (Forall_nil _))))
              (range 1 7)
              (set_ArrivalTime_var l (set_T_var l (set_Z_var l s))))
    as (ds & E & F).
  exists ([Z_decl l; T_decl l; ArrivalTime_decl l] ++ ds).
  split.
  - rewrite E. simpl. now rewrite <- !app_assoc.
  - apply Forall_app. split; [|exact F]. repeat constructor.
Qed.

Lemma X_decl_standard key : standard (X_decl key).
Proof. destruct key as [[[i j] k] l]. reflexivity. Qed.

Lemma init_loops_standard s :
  exists ds, vars (model (init_loops s)) = vars (model s) ++ ds /\
             Forall standard ds.
Proof.
  unfold init_loops.
  destruct (fold_appends_standard set_X_var
              (fun key s => ex_intro _ [X_decl key]
                 (conj eq_refl
                    (Forall_cons _ (X_decl_standard key) (Forall_nil _))))
              (flat_map (fun '(i, j, k) => map (fun l => (i, j, k, l)) (trucks s))
                        (valid_combinations s)) s)
    as (d1 & E1 & F1).
  match goal with
  | |- context [fold_left _ (trucks s) ?s0] =>
      destruct (fold_appends_standard truck_step truck_step_standard
                  (trucks s) s0) as (d2 & E2 & F2)
  end.
  exists (d1 ++ d2). split; [|now apply Forall_app].
  now rewrite E2, E1, app_assoc.
Qed.

Lemma Ok_state_inj {A} (r : result A) a s a' s' :
  r = Ok a s -> r = Ok a' s' -> s = s'.
Proof. intros -> [= _ ->]. reflexivity. Qed.

Lemma add_objective_model o s :
  vars (model (add_objective o s)) = vars (model s).
Proof. reflexivity. Qed.

Lemma prepare_model srcs dst s : model (prepare srcs dst s) = model s.
Proof. reflexivity. Qed.

(** The variables [initialize_model] adds carry the declaration of
    their name. *)
Lemma initialize_model_standard srcs dst self s1 :
  initialize_model srcs dst self = Ok tt s1 ->
  exists ds, vars (model s1) = vars (model self) ++ ds /\ Forall standard ds.
Proof.
  intros Hi.
  destruct (initialize_model_state srcs dst self) as (terms & Hs & _).
  pose proof (Ok_state_inj _ _ _ _ _ Hs Hi) as E.
  destruct (init_loops_standard (prepare srcs dst self)) as (ds & Ev & F).
  exists ds. split; [|exact F].
  rewrite <- E, add_objective_model, Ev, prepare_model. reflexivity.
Qed.

(** A build that returned, with everything the two phases establish. *)
Lemma build_phases srcs dst self st :
  build srcs dst self = Ok tt st ->
  exists s1,
    initialize_model srcs dst self = Ok tt s1 /\
    init_post srcs dst self s1 /\
    add_constraints s1 = Ok tt st /\
    extends s1 st /\ only s1 st /\
    forall j, In j (destination_list st) ->
    forall d, In d (range 1 7) -> sorting_for st j d.
Proof.
  intros Hb.
  destruct (initialize_model_ok srcs dst self) as (s1 & Hi & Hp).
  rewrite (build_eq Hi) in Hb.
  pose proof Hp as (_ & _ & _ & _ & _ & _ & _ & _ & _ & Hok & Hids).
  pose proof (add_constraints_runs_sorting Hok Hids) as Hr.
  unfold runs in Hr. rewrite Hb in Hr.
  destruct Hr as ((Hx & Ho) & (_ & Hsort) & _).
  exists s1. auto 10.
Qed.

(** X5. The build adds nothing else to the model: every constraint of
    the model after a build either was there before or is a constraint
    of one of the six families ([family_shape]), and every variable
    either was there before or is declared with the type and bounds the
    code gives to variables of its name ([standard]). *)
Theorem X5_nothing_else_is_added srcs dst self st :
  build srcs dst self = Ok tt st ->
  (forall c, In c (constrs (model st)) ->
             In c (constrs (model self)) \/ family_shape st c) /\
  (forall v d, declared st v d -> declared self v d \/ standard d).
Proof.
  intros Hb.
  destruct (build_phases _ _ _ _ Hb) as (s1 & Hi & Hp & _ & _ & (Hoc & Hov) & _).
  destruct (initialize_model_standard _ _ _ _ Hi) as (ds & Ev & F).
  destruct Hp as (_ & _ & _ & _ & _ & _ & _ & E8 & _).
  split.
  - intros c Hc. destruct (Hoc c Hc) as [H1|H2]; [left | now right].
    now rewrite <- E8.
  - intros v d Hd. destruct (Hov v d Hd) as [H1|H2]; [|now right].
    unfold declared in *. rewrite Ev in H1.
    destruct (Nat.lt_ge_cases v (List.length (vars (model self)))) as [Hlt|Hge].
    + left. now rewrite nth_error_app1 in H1.
    + right. rewrite nth_error_app2 in H1 by exact Hge.
      apply nth_error_In in H1. rewrite Forall_forall in F. now apply F.
Qed.

Lemma X5_witness :
  build ["A"%string] "B"%string ex_optimizer = Ok tt ex_built /\
  (forall c, In c (constrs (model ex_built)) ->
             In c (constrs (model ex_optimizer)) \/ family_shape ex_built c) /\
  (forall v d, declared ex_built v d ->
               declared ex_optimizer v d \/ standard d).
Proof.
  split; [exact ex_build_ok|].
  exact (X5_nothing_else_is_added _ _ _ _ ex_build_ok).
Defined.

Lemma inputs_add_objective o s : inputs (add_objective o s) = inputs s.
Proof. reflexivity. Qed.

Lemma inputs_prepare srcs dst self :
  inputs (prepare srcs dst self) =
    (source_df self, destination_df self, trucking_df self, srcs, [dst],
     routes_of srcs dst,
     consignments_of (source_df self) (routes_of srcs dst),
     combinations_of (source_df self) (routes_of srcs dst),
     range 0 300).
Proof. reflexivity. Qed.

(** The lists [initialize_model] stores. *)
Lemma initialize_model_inputs srcs dst self s1 :
  initialize_model srcs dst self = Ok tt s1 ->
  inputs s1 =
    (source_df self, destination_df self, trucking_df self, srcs, [dst],
     routes_of srcs dst,
     consignments_of (source_df self) (routes_of srcs dst),
     combinations_of (source_df self) (routes_of srcs dst),
     range 0 300).
Proof.
  intros Hi.
  destruct (initialize_model_state srcs dst self) as (terms & Hs & _).
  pose proof (Ok_state_inj _ _ _ _ _ Hs Hi) as E.
  rewrite <- E, inputs_add_objective,
    (proj1 (init_loops_tables_ok (prepare srcs dst self))).
  apply inputs_prepare.
Qed.

Lemma sorting_triples_In s j i k l :
  In (i, k, l) (sorting_triples s j) <->
  In i (source_list s) /\ j <> i /\ In k (consignment_list s) /\
  In l (trucks s) /\ In (i, j, k) (valid_combinations s).
Proof.
  unfold sorting_triples. rewrite in_flat_map. split.
  - intros (i0 & Hi0 & H).
    destruct (key_eqb j i0) eqn:E; simpl in H; [contradiction|].
    apply in_flat_map in H. destruct H as (k0 & Hk0 & H).
    apply in_flat_map in H. destruct H as (l0 & Hl0 & H).
    destruct (member (i0, j, k0) (valid_combinations s)) eqn:Hm;
      [|contradiction].
    destruct H as [[= -> -> ->]|[]].
    split; [exact Hi0|]. split.
    { intros ->. rewrite key_eqb_refl in E. discriminate. }
    split; [exact Hk0|]. split; [exact Hl0 | now apply member_In].
  - intros (Hi & N & Hk & Hl & Hc). exists i. split; [exact Hi|].
    rewrite (key_eqb_neq N). simpl.
    apply in_flat_map. exists k. split; [exact Hk|].
    apply in_flat_map. exists l. split; [exact Hl|].
    apply member_In in Hc. rewrite Hc. now left.
Qed.

(** X6. In a built model, for the selected destination and every day
    [d] of 1..6 the fifth family has added the constraint named
    [SortingCapacity_<destination>_<d>]: the quantities of the
    consignments (the ['Consignment quantity'] of the first manifest
    row with the consignment's id), each multiplied by its [X] and by
    the day indicator of its truck, summed over every valid combination
    and truck, are at most [(end - start) / 2 * capacity] of the
    destination's first row; every feasible solution satisfies it. *)
Theorem X6_sorting_capacity srcs dst self st d :
  build srcs dst self = Ok tt st ->
  In d (range 1 7) ->
  exists shift terms,
    hd_error (filter (fun r => key_eqb (Destination_ID r) dst)
                     (destination_df self)) = Some shift /\
    Forall2 (fun (ikl : string * int * int) t =>
               let '(i, k, l) := ikl in
               exists x r a,
                 dict_get (X st) (i, dst, k, l) = Some x /\
                 hd_error (filter (fun r => key_eqb (id r) k) (source_df self))
                   = Some r /\
                 dict_get (ArrivalDayBinary st) (l, d) = Some a /\
                 t = Mul (Mul (Var x) (Const (Consignment_quantity r))) (Var a))
            (sorting_triples st dst) terms /\
    (forall i k l, In (i, k, l) (sorting_triples st dst) <->
                   In (i, dst, k) (valid_combinations st) /\ In l (trucks st)) /\
    let bound := ((End_of_lay_on shift - Start_of_shift shift) / 2
                  * Sorting_capacity shift)%Q in
    In (mkConstr (quicksum terms) LE (Const bound)
                 (Some (SortingCapacity_ dst d))) (constrs (model st)) /\
    forall s, feasible (model st) s -> (Qsum (map (eval s) terms) <= bound)%Q.
Proof.
  intros Hb Hd.
  destruct (build_phases _ _ _ _ Hb) as (s1 & Hi & Hp & _ & Hx & _ & Hsort).
  pose proof (initialize_model_inputs _ _ _ _ Hi) as Hin.
  injection Hin as E1 E2 E3 E4 E5 E6 E7 E8 E9.
  rewrite <- (frame_source_df (proj1 Hx)) in E1.
  rewrite <- (frame_destination_df (proj1 Hx)) in E2.
  rewrite <- (frame_source_list (proj1 Hx)) in E4.
  rewrite <- (frame_destination_list (proj1 Hx)) in E5.
  rewrite <- (frame_consignment_list (proj1 Hx)) in E7.
  rewrite <- (frame_valid_combinations (proj1 Hx)) in E8.
  destruct (Hsort dst) with (d := d) as (c & Hs & Hc);
    [rewrite E5; now left | exact Hd|].
  destruct Hs as (e & b & cap & terms & He & Hb' & Hcap & HF & ->).
  rewrite E2 in He, Hb', Hcap. rewrite E1 in HF.
  apply hd_error_map in He. destruct He as (shift & Hs & <-).
  apply hd_error_map in Hb'. destruct Hb' as (shift1 & Hs1 & <-).
  apply hd_error_map in Hcap. destruct Hcap as (shift2 & Hs2 & <-).
  assert (shift1 = shift) by congruence.
  assert (shift2 = shift) by congruence. subst shift1 shift2.
  exists shift, terms.
  split; [exact Hs|]. split; [|split; [|split; [exact Hc|]]].
  - eapply Forall2_weaken; [|exact HF].
    intros [[i k] l] t _ (x & q & a & Hxx & Hq & Ha & ->).
    apply hd_error_map in Hq. destruct Hq as (r & Hr & <-).
    exists x, r, a. auto.
  - intros i k l. rewrite sorting_triples_In. split; [tauto|].
    intros (Hvc & Hl).
    pose proof Hvc as Hvc'. rewrite E8 in Hvc'.
    apply combinations_of_In in Hvc'. destruct Hvc' as (Hr & Hk).
    pose proof Hr as Hr'. apply routes_of_In in Hr'.
    destruct Hr' as (Hi' & _ & N).
    rewrite E4, E7.
    split; [exact Hi'|]. split; [now apply not_eq_sym|].
    split; [|split; [exact Hl | exact Hvc]].
    unfold consignments_of. apply in_flat_map. exists (i, dst). auto.
  - intros s Hf. exact (feasible_holds Hf Hc).
Qed.

Lemma ex_day_In : In 1%Z (range 1 7).
Proof. apply range_In. lia. Qed.

Lemma X6_witness :
  build ["A"%string] "B"%string ex_optimizer = Ok tt ex_built /\
  In 1%Z (range 1 7) /\
  exists shift terms,
    ((Start_of_shift shift == 7)%Q /\ (End_of_lay_on shift == 19)%Q /\
     (Sorting_capacity shift == 20)%Q) /\
    Forall2 (fun (ikl : string * int * int) t =>
               let '(i, k, l) := ikl in
               exists x a,
                 dict_get (X ex_built) (i, "B"%string, k, l) = Some x /\
                 dict_get (ArrivalDayBinary ex_built) (l, 1%Z) = Some a /\
                 t = Mul (Mul (Var x) (Const 100)) (Var a))
            (sorting_triples ex_built "B"%string) terms /\
    In (mkConstr (quicksum terms) LE
                 (Const ((End_of_lay_on shift - Start_of_shift shift) / 2
                         * Sorting_capacity shift))
                 (Some (SortingCapacity_ "B"%string 1%Z)))
       (constrs (model ex_built)) /\
    forall s, feasible (model ex_built) s ->
              (Qsum (map (eval s) terms) <= 120)%Q.
Proof.
  split; [exact ex_build_ok|]. split; [exact ex_day_In|].
  destruct (X6_sorting_capacity _ _ _ _ _ ex_build_ok ex_day_In)
    as (shift & terms & Hs & HF & Hiff & H).
  cbv zeta in H. destruct H as (Hin & Hle).
  exists shift, terms.
  split; [|split; [|split; [exact Hin|]]].
  - clear HF Hiff Hin Hle. vm_compute in Hs. injection Hs as <-.
    repeat split; reflexivity.
  - eapply Forall2_weaken; [|exact HF].
    intros [[i k] l] t Hikl (x & r & a & Hx & Hr & Ha & ->).
    destruct (proj1 (Hiff i k l) Hikl) as (Hvc & _).
    pose proof (eq_ind _ (fun vc => In (i, "B"%string, k) vc) Hvc _
                  ex_valid_combinations) as Hvc'.
    destruct Hvc' as [E|[]]. injection E as <- <-.
    vm_compute in Hr. injection Hr as <-.
    exists x, a. split; [exact Hx|]. split; [exact Ha | reflexivity].
  - intros s Hf. apply (Qle_trans _ _ _ (Hle s Hf)).
    clear HF Hiff Hin Hle. vm_compute in Hs. injection Hs as <-.
    vm_compute. discriminate.
Defined.

(* ================================================================== *)
(** * [solve] *)
(* ================================================================== *)

(** ** [solve] only sets the time limit *)

Lemma readonly_ret {A} (a : A) : readonly (ret a).
Proof. intros s. reflexivity. Qed.

Lemma readonly_raise {A} e : readonly (@raise A e).
Proof. intros s. reflexivity. Qed.

Lemma readonly_gets {A} (g : DHL_Optimization -> A) : readonly (gets g).
Proof. intros s. reflexivity. Qed.

Lemma readonly_lookup {K V} `{Key K} e (g : DHL_Optimization -> dict K V) k :
  readonly (lookup e g k).
Proof. intros s. unfold lookup. now destruct (dict_get (g s) k). Qed.

Lemma readonly_values0 {A} (l : list A) : readonly (values0 l).
Proof. intros s. now destruct l. Qed.

Lemma readonly_value solution v : readonly (value solution v).
Proof. intros s. now destruct solution. Qed.

Lemma readonly_bind {A B} (m : M A) (k : A -> M B) :
  readonly m -> (forall a, readonly (k a)) -> readonly (bind m k).
Proof.
  intros Hm Hk s. unfold bind. specialize (Hm s).
  destruct (m s) as [a s'|e s']; simpl in Hm; subst s'; [apply Hk | reflexivity].
Qed.

Lemma readonly_mapM {A B} (f : A -> M B) xs :
  (forall x, readonly (f x)) -> readonly (mapM f xs).
Proof.
  intros Hf. induction xs as [|x r IH]; simpl.
  - apply readonly_ret.
  - apply readonly_bind; [apply Hf|]. intros b.
    apply readonly_bind; [exact IH|]. intros bs. apply readonly_ret.
Qed.

Lemma readonly_if {A} (b : bool) (m m' : M A) :
  readonly m -> readonly m' -> readonly (if b then m else m').
Proof. now destruct b. Qed.

Lemma extract_row_readonly solution key : readonly (extract_row solution key).
Proof.
  destruct key as [[[i j] k] l]. unfold extract_row.
  repeat first
    [ apply readonly_ret
    | apply readonly_gets
    | apply readonly_lookup
    | apply readonly_values0
    | apply readonly_value
    | apply readonly_mapM; intros ?
    | apply readonly_if
    | apply readonly_bind; [|intros ?] ].
Qed.

Lemma to_csv_readonly df fs : readonly (to_csv df fs).
Proof.
  unfold to_csv. destruct (output_dir fs);
    [apply readonly_ret | apply readonly_raise].
Qed.

(** X7. [solve] has no effect on the object other than setting the
    model's time limit to 300 seconds: whatever the solver does,
    whatever the file system is, and whether [solve] returns or raises,
    every attribute, and the variables, constraints and objective of the
    model, are as before. *)
Theorem X7_solve_only_sets_time_limit (optimize : Model -> Outcome)
    (fs : FileSystem) (self : DHL_Optimization) :
  state_of (solve optimize fs self)
  = with_model (mkModel (vars (model self)) (constrs (model self))
                        (objective (model self)) (Some 300%Q)) self.
Proof.
  assert (Hrest : forall s,
    state_of ((m <- gets model ;;
               match optimize m with
               | Failed => raise GurobiError
               | Finished status solution =>
                   out <-
                     (if member status [OPTIMAL; TIME_LIMIT; SUBOPTIMAL] then
                        keys <- gets (fun self => dict_keys (X self)) ;;
                        data <- mapM (extract_row solution) keys ;;
                        let df_out := List.concat data in
                        fs' <- to_csv df_out fs ;;
                        ret (Some df_out, fs')
                      else ret (None, fs)) ;;
                   match out with
                   | (Some df_out, fs') => ret (df_out, fs')
                   | (None, _) => raise UnboundLocalError
                   end
               end) s) = s).
  { apply readonly_bind; [apply readonly_gets|]. intros m.
    destruct (optimize m) as [|status solution]; [apply readonly_raise|].
    apply readonly_bind.
    - apply readonly_if; [|apply readonly_ret].
      apply readonly_bind; [apply readonly_gets|]. intros keys.
      apply readonly_bind;
        [apply readonly_mapM; intros key; apply extract_row_readonly|].
      intros data. cbv zeta.
      apply readonly_bind; [apply to_csv_readonly|]. intros fs'.
      apply readonly_ret.
    - intros [[df|] fs']; [apply readonly_ret | apply readonly_raise]. }
  exact (Hrest _).
Qed.

(** ** The rows [solve] returns *)

Lemma bind_assoc {A B C} (m : M A) (f : A -> M B) (g : B -> M C) s :
  bind (bind m f) g s = bind m (fun a => bind (f a) g) s.
Proof. unfold bind. now destruct (m s). Qed.

Lemma bind_value {B} (sol : assignment) v (k : Q -> M B) s :
  bind (value (Some sol) v) k s = k (sol v) s.
Proof. reflexivity. Qed.

Lemma extends_with_time_limit s : extends s (with_time_limit s).
Proof. repeat split; auto. Qed.

Lemma solve_eq (optimize : Model -> Outcome) fs s :
  solve optimize fs s =
  (m <- gets model ;;
   match optimize m with
   | Failed => raise GurobiError
   | Finished status solution =>
       out <-
         (if member status [OPTIMAL; TIME_LIMIT; SUBOPTIMAL] then
            keys <- gets (fun self => dict_keys (X self)) ;;
            data <- mapM (extract_row solution) keys ;;
            let df_out := List.concat data in
            fs' <- to_csv df_out fs ;;
            ret (Some df_out, fs')
          else ret (None, fs)) ;;
       match out with
       | (Some df_out, fs') => ret (df_out, fs')
       | (None, _) => raise UnboundLocalError
       end
   end) (with_time_limit s).
Proof. reflexivity. Qed.


Lemma days_ok (sol : assignment) l s :
  tables_ok s -> In l (trucks s) ->
  exists days,
    mapM (fun d => a <- getArrivalDayBinary (l, d) ;;
                   av <- value (Some sol) a ;;
                   ret (inject_Z d * av)%Q) (range 1 7) s = Ok days s /\
    Forall2 (fun d q => exists a,
               dict_get (ArrivalDayBinary s) (l, d) = Some a /\
               q = (inject_Z d * sol a)%Q)
            (range 1 7) days.
Proof.
  intros (_ & _ & _ & HA) Hl. apply mapM_readonly. intros d Hd.
  destruct (HA l d Hl Hd) as (a & Ha & _).
  exists (inject_Z d * sol a)%Q. split; [|eauto].
  unfold getArrivalDayBinary.
  rewrite (bind_ok _ _ (lookup_ok KeyError ArrivalDayBinary Ha)), bind_value.
  reflexivity.
Qed.

(** The loop body of [solve] on a key of a built model. *)
Lemma extract_row_ok (sol : assignment) s i j k l :
  tables_ok s -> In (i, j, k) (valid_combinations s) -> In l (trucks s) ->
  lane_present s i j -> shift_present s j ->
  exists rows,
    extract_row (Some sol) (i, j, k, l) s = Ok rows s /\
    row_for s sol (i, j, k, l) rows.
Proof.
  intros Hok Hc Hl Hlane Hshift.
  pose proof Hok as (HX & HZ & HT & _).
  destruct (HZ l Hl) as (z & Hz & _).
  destruct (HX i j k l Hc Hl) as (x & Hx & _).
  destruct (HT l Hl) as (t & Ht & _).
  destruct (destination_values_hd Start_of_shift Hshift) as (ss & Hss).
  destruct (destination_values_hd End_of_lay_on Hshift) as (es & Hes).
  destruct (hd_error_nonempty Hlane) as (sec & Hsec).
  destruct (days_ok sol l s Hok Hl) as (days & Hdays & HF).
  destruct (hd_error_map _ _ Hss) as (shift & Hsh & Ess).
  destruct (hd_error_map _ _ Hes) as (shift' & Hsh' & Ees).
  assert (shift' = shift) by congruence. subst shift'.
  destruct (hd_error_map _ _ Hsec) as (lane & Hla & Esec).
  exists (if Qeq_bool (sol z) 1 && Qeq_bool (sol x) 1
          then [mkRow i j k l (sol t) (Qsum days) ss es (sec / 3600)]
          else []).
  split; [|exists z, x, t, shift, lane, days; subst ss es sec; auto 10].
  unfold extract_row, getZ, getX, getT.
  rewrite (bind_ok _ _ (lookup_ok KeyError Z Hz)), bind_value.
  destruct (Qeq_bool (sol z) 1) eqn:Ez.
  - rewrite bind_assoc, (bind_ok _ _ (lookup_ok KeyError X Hx)).
    rewrite bind_assoc, bind_value, bind_ret.
    destruct (Qeq_bool (sol x) 1) eqn:Ex; [|reflexivity].
    rewrite bind_gets, (bind_ok _ _ (values0_ok s Hss)).
    rewrite bind_gets, (bind_ok _ _ (values0_ok s Hes)).
    rewrite bind_gets, (bind_ok _ _ (values0_ok s Hsec)).
    cbv zeta.
    rewrite (bind_ok _ _ Hdays).
    rewrite (bind_ok _ _ (lookup_ok KeyError T Ht)), bind_value.
    reflexivity.
  - rewrite bind_ret. reflexivity.
Qed.

(** [solve] on an object whose tables cover the keys of [X], when the
    solver ends with a solution. *)
Lemma solve_returns (optimize : Model -> Outcome) fs s status (sol : assignment) :
  tables_ok s -> data_ok s ->
  (forall i j k l, In (i, j, k, l) (dict_keys (X s)) ->
                   In (i, j, k) (valid_combinations s) /\ In l (trucks s)) ->
  optimize (model (with_time_limit s)) = Finished status (Some sol) ->
  In status [OPTIMAL; TIME_LIMIT; SUBOPTIMAL] ->
  exists data,
    solve optimize fs s = written fs (List.concat data) (with_time_limit s) /\
    Forall2 (row_for s sol) (dict_keys (X s)) data.
Proof.
  intros Hok (Hdc & _) Hkeys Hopt Hst.
  destruct (@mapM_readonly _ _ (extract_row (Some sol)) (row_for s sol)
              (dict_keys (X s)) (with_time_limit s)) as (data & Hdata & HF).
  { intros [[[i j] k] l] Hin. destruct (Hkeys i j k l Hin) as (Hc & Hl).
    destruct (Hdc i j k Hc) as (Hlane & Hshift).
    exact (extract_row_ok sol (with_time_limit s) i j k l Hok Hc Hl Hlane Hshift). }
  exists data. split; [|exact HF].
  rewrite solve_eq, bind_gets, Hopt.
  assert (Hm : member status [OPTIMAL; TIME_LIMIT; SUBOPTIMAL] = true).
  { destruct Hst as [<-|[<-|[<-|[]]]]; reflexivity. }
  rewrite Hm, bind_assoc, bind_gets, bind_assoc.
  change (dict_keys (X (with_time_limit s))) with (dict_keys (X s)).
  rewrite (bind_ok _ _ Hdata). cbv zeta.
  unfold written, to_csv. destruct (output_dir fs); reflexivity.
Qed.

(** ** The keys of [X] *)

Lemma dict_keys_set {K V} `{KeyOk K} (d : dict K V) k v k' :
  In k' (dict_keys (dict_set d k v)) <-> k' = k \/ In k' (dict_keys d).
Proof.
  induction d as [|[k0 v0] r IH]; simpl.
  - intuition.
  - destruct (key_eqb k k0) eqn:E; simpl.
    + apply key_eqb_spec in E. subst k0. intuition.
    + unfold dict_keys in IH. rewrite IH. intuition.
Qed.

Lemma fold_left_keeps {A B} (g : DHL_Optimization -> B)
    (f : A -> DHL_Optimization -> DHL_Optimization) :
  (forall a s, g (f a s) = g s) ->
  forall xs s, g (fold_left (fun s a => f a s) xs s) = g s.
Proof.
  intros Hf. induction xs as [|a r IH]; intros s; simpl; [reflexivity|].
  now rewrite IH.
Qed.

Lemma truck_step_X l s : X (truck_step l s) = X s.
Proof.
  unfold truck_step.
  now rewrite (fold_left_keeps X (fun d s => set_ArrivalDayBinary_var (l, d) s)
                 (fun d s => eq_refl)).
Qed.

Lemma X_keys_fold keys :
  forall s key,
    In key (dict_keys (X (fold_left (fun s k => set_X_var k s) keys s))) <->
    In key (dict_keys (X s)) \/ In key keys.
Proof.
  induction keys as [|a r IH]; intros s key; simpl; [tauto|].
  rewrite IH. simpl. rewrite dict_keys_set. intuition.
Qed.

Lemma X_keys_init_loops s key :
  In key (dict_keys (X (init_loops s))) <->
  In key (dict_keys (X s)) \/
  In key (flat_map (fun '(i, j, k) => map (fun l => (i, j, k, l)) (trucks s))
                   (valid_combinations s)).
Proof.
  unfold init_loops.
  rewrite (fold_left_keeps X truck_step truck_step_X). apply X_keys_fold.
Qed.

Lemma X_add_objective o s : X (add_objective o s) = X s.
Proof. reflexivity. Qed.

Lemma X_prepare srcs dst s : X (prepare srcs dst s) = X s.
Proof. reflexivity. Qed.

Lemma X_new_optimizer sdf ddf tdf : X (new_optimizer sdf ddf tdf) = [].
Proof. reflexivity. Qed.

Lemma inputs_lists s s' :
  inputs s = inputs s' ->
  valid_combinations s = valid_combinations s' /\ trucks s = trucks s'.
Proof. intros E. injection E. auto. Qed.

(** After a build on a fresh optimizer the keys of [X] are the valid
    combinations paired with the trucks. *)
Lemma X_keys_built sdf ddf tdf srcs dst st :
  build srcs dst (new_optimizer sdf ddf tdf) = Ok tt st ->
  forall i j k l,
    In (i, j, k, l) (dict_keys (X st)) <->
    In (i, j, k) (valid_combinations st) /\ In l (trucks st).
Proof.
  intros Hb i j k l.
  destruct (build_phases _ _ _ _ Hb) as (s1 & Hi & _ & _ & Hx & _).
  destruct (initialize_model_state srcs dst (new_optimizer sdf ddf tdf))
    as (terms & Hs & _).
  pose proof (Ok_state_inj _ _ _ _ _ Hs Hi) as E.
  destruct (inputs_lists _ _
              (eq_trans (initialize_model_inputs _ _ _ _ Hi)
                 (eq_sym (inputs_prepare srcs dst (new_optimizer sdf ddf tdf)))))
    as (Evc & Etr).
  rewrite (frame_X (proj1 Hx)), (frame_valid_combinations (proj1 Hx)),
    (frame_trucks (proj1 Hx)), Evc, Etr.
  rewrite <- E, X_add_objective, X_keys_init_loops, X_prepare, X_keys_In.
  rewrite X_new_optimizer.
  change (In (i, j, k, l) (dict_keys (@nil (X_key * nat)))) with False.
  tauto.
Qed.

Lemma built_data_ok srcs dst self st :
  build srcs dst self = Ok tt st -> tables_ok st /\ data_ok st.
Proof.
  intros Hb. apply build_inv in Hb.
  destruct (built_tables Hb) as (Hok & _).
  destruct Hb as (s1 & _ & _ & _ & _ & Hcp & _).
  destruct Hcp as (_ & _ & _ & _ & _ & Hd). auto.
Qed.

(** X8. After a build on a fresh optimizer, when the solver ends with
    status OPTIMAL, TIME_LIMIT or SUBOPTIMAL and a solution, [solve]
    collects, over the keys of [X] in insertion order, the rows of each
    key ([row_for]: one row if [Z[l]] and [X[i,j,k,l]] are both 1 in the
    solution, none otherwise; its shift times are those of the first
    row of the destination and its travel time is the ['OSRM_time [sek]']
    of the first lane row of the route, divided by 3600); the keys of
    [X] are the valid combinations paired with the trucks. If the
    directory [output] exists, [solve] writes this table to
    [output/output.csv] and returns it; if not, it raises [OSError]. *)
Theorem X8_solve_rows sdf ddf tdf srcs dst st
    (optimize : Model -> Outcome) (fs : FileSystem) status (sol : assignment) :
  build srcs dst (new_optimizer sdf ddf tdf) = Ok tt st ->
  optimize (model (with_time_limit st)) = Finished status (Some sol) ->
  In status [OPTIMAL; TIME_LIMIT; SUBOPTIMAL] ->
  exists data,
    Forall2 (row_for st sol) (dict_keys (X st)) data /\
    (forall i j k l,
       In (i, j, k, l) (dict_keys (X st)) <->
       In (i, j, k) (valid_combinations st) /\ In l (trucks st)) /\
    (output_dir fs = true ->
     solve optimize fs st
     = Ok (List.concat data, mkFileSystem true (Some (List.concat data)))
          (with_time_limit st)) /\
    (output_dir fs = false ->
     solve optimize fs st = Raise OSError (with_time_limit st)).
Proof.
  intros Hb Hopt Hst.
  destruct (built_data_ok _ _ _ _ Hb) as (Hok & Hd).
  pose proof (X_keys_built _ _ _ _ _ _ Hb) as Hkeys.
  destruct (solve_returns optimize fs st status sol Hok Hd
              (fun i j k l H => proj1 (Hkeys i j k l) H) Hopt Hst)
    as (data & Hs & HF).
  exists data. split; [exact HF|]. split; [exact Hkeys|].
  rewrite Hs. unfold written.
  split; intros E; rewrite E; reflexivity.
Qed.

Lemma ex_status_In : In OPTIMAL [OPTIMAL; TIME_LIMIT; SUBOPTIMAL].
Proof. now left. Qed.

Lemma mapM_head_raise {A B} (f : A -> M B) x r s e s' :
  f x s = Raise e s' -> mapM f (x :: r) s = Raise e s'.
Proof. intros H. simpl. now rewrite (bind_raise _ _ H). Qed.

Lemma extract_row_no_solution s i j k l :
  tables_ok s -> In l (trucks s) ->
  extract_row None (i, j, k, l) s = Raise AttributeError s.
Proof.
  intros (_ & HZ & _) Hl. destruct (HZ l Hl) as (z & Hz & _).
  unfold extract_row, getZ.
  rewrite (bind_ok _ _ (lookup_ok KeyError Z Hz)). reflexivity.
Qed.

(** X9. After a build on a fresh optimizer, when the solver ends with
    status OPTIMAL, TIME_LIMIT or SUBOPTIMAL but without a solution (the
    time limit was reached before any was found), [solve] raises
    [AttributeError] at the first [.X] it reads, whatever the file
    system is. Only when there is no valid combination at all does it
    get as far as the empty table, which it writes and returns if the
    directory [output] exists; if not, it raises [OSError]. *)
Theorem X9_solve_without_solution sdf ddf tdf srcs dst st
    (optimize : Model -> Outcome) (fs : FileSystem) status :
  build srcs dst (new_optimizer sdf ddf tdf) = Ok tt st ->
  optimize (model (with_time_limit st)) = Finished status None ->
  In status [OPTIMAL; TIME_LIMIT; SUBOPTIMAL] ->
  (valid_combinations st <> [] ->
   solve optimize fs st = Raise AttributeError (with_time_limit st)) /\
  (valid_combinations st = [] ->
   (output_dir fs = true ->
    solve optimize fs st
    = Ok ([], mkFileSystem true (Some [])) (with_time_limit st)) /\
   (output_dir fs = false ->
    solve optimize fs st = Raise OSError (with_time_limit st))).
Proof.
  intros Hb Hopt Hst.
  destruct (built_data_ok _ _ _ _ Hb) as (Hok & _).
  pose proof (X_keys_built _ _ _ _ _ _ Hb) as Hkeys.
  assert (Hm : member status [OPTIMAL; TIME_LIMIT; SUBOPTIMAL] = true).
  { destruct Hst as [<-|[<-|[<-|[]]]]; reflexivity. }
  assert (Etr : trucks st = range 0 300).
  { exact (proj1 (proj2 (proj2 (built_tables (build_inv Hb))))). }
  rewrite solve_eq, bind_gets, Hopt, Hm, bind_assoc, bind_gets, bind_assoc.
  change (dict_keys (X (with_time_limit st))) with (dict_keys (X st)).
  destruct (dict_keys (X st)) as [|[[[i j] k] l] r] eqn:Ek.
  - split.
    + intros N. exfalso.
      destruct (valid_combinations st) as [|[[i j] k] vc] eqn:Evc;
        [now apply N|].
      assert (Hin : In (i, j, k, 0%Z) (@nil X_key)).
      { apply Hkeys. split; [now left|]. rewrite Etr. apply range_In. lia. }
      exact Hin.
    + intros _. unfold to_csv. cbn [mapM].
      split; intros E; rewrite bind_ret; cbv zeta; cbn [List.concat];
        unfold bind at 2; rewrite E; reflexivity.
  - assert (Hin : In (i, j, k) (valid_combinations st) /\ In l (trucks st)).
    { apply Hkeys. now left. }
    split.
    + intros _.
      rewrite (bind_raise _ _
                 (mapM_head_raise (extract_row None) (i, j, k, l) r
                    (with_time_limit st) AttributeError (with_time_limit st)
                    (extract_row_no_solution (with_time_limit st) i j k l
                       Hok (proj2 Hin)))).
      reflexivity.
    + intros E. rewrite E in Hin. destruct Hin as ([] & _).
Qed.

Lemma ex_valid_combinations_nonempty : valid_combinations ex_built <> [].
Proof.
  intros E.
  pose proof (eq_trans (eq_sym ex_valid_combinations) E) as E'. discriminate E'.
Qed.

Lemma ex_timeout_In : In TIME_LIMIT [OPTIMAL; TIME_LIMIT; SUBOPTIMAL].
Proof. right. now left. Qed.

Lemma X9_witness :
  build ["A"%string] "B"%string
        (new_optimizer ex_source_df ex_destination_df ex_trucking_df)
  = Ok tt ex_built /\
  ex_optimize_timeout (model (with_time_limit ex_built))
  = Finished TIME_LIMIT None /\
  In TIME_LIMIT [OPTIMAL; TIME_LIMIT; SUBOPTIMAL] /\
  valid_combinations ex_built <> [] /\
  solve ex_optimize_timeout (mkFileSystem true None) ex_built
  = Raise AttributeError (with_time_limit ex_built).
Proof.
  split; [exact ex_build_ok|]. split; [reflexivity|].
  split; [exact ex_timeout_In|]. split; [exact ex_valid_combinations_nonempty|].
  exact (proj1 (X9_solve_without_solution _ _ _ _ _ _ ex_optimize_timeout
                  (mkFileSystem true None) TIME_LIMIT
                  ex_build_ok eq_refl ex_timeout_In)
               ex_valid_combinations_nonempty).
Defined.

(* ================================================================== *)
(** * [check_and_map_columns] and the three preprocessing functions *)
(* ================================================================== *)

Lemma missing_columns_In (cols req : list string) c :
  In c (filter (fun col => negb (member col cols)) req) <->
  In c req /\ ~ In c cols.
Proof.
  rewrite filter_In, negb_true_iff. split; intros (Hr & Hm); split; auto.
  - intros Hin. apply member_In in Hin. congruence.
  - destruct (member c cols) eqn:E; [|reflexivity].
    apply member_In in E. contradiction.
Qed.

Lemma missing_columns_nil (cols req : list string) :
  filter (fun col => negb (member col cols)) req = [] <->
  forall c, In c req -> In c cols.
Proof.
  split.
  - intros E c Hc. destruct (member c cols) eqn:Em; [now apply member_In|].
    assert (Hin : In c (filter (fun col => negb (member col cols)) req)).
    { apply filter_In. split; [exact Hc | now rewrite Em]. }
    rewrite E in Hin. contradiction.
  - intros Hall.
    destruct (filter (fun col => negb (member col cols)) req) as [|c r] eqn:E;
      [reflexivity|].
    assert (Hin : In c (filter (fun col => negb (member col cols)) req))
      by (rewrite E; now left).
    apply missing_columns_In in Hin. destruct Hin as (Hr & Hn).
    exfalso. apply Hn, Hall, Hr.
Qed.

(** The value of [check_and_map_columns] on a frame with at least one
    row and one column. *)
Lemma check_and_map_columns_eq {V} (df : DataFrame V) req mapping :
  cells df <> [] -> columns df <> [] ->
  check_and_map_columns df req mapping =
  let missing := filter (fun col => negb (member col (columns (trimmed df))))
                        req in
  if nonempty missing
  then Returns ([missing_message missing], (None, false))
  else Returns ([], (Some (rename (trimmed df) mapping), true)).
Proof.
  intros Hc Hcol. unfold check_and_map_columns, trimmed, iloc_row0, iloc_column0.
  destruct (cells df) as [|r rest] eqn:Er; [now destruct Hc|].
  destruct (columns df) as [|c cs] eqn:Ec; [now destruct Hcol|].
  cbn [hd]. destruct (isnull_all r); cbn [andb]; [|reflexivity].
  destruct (isnull_all _); reflexivity.
Qed.

(** X10. The contract of [check_and_map_columns]. On a frame without
    rows, or (well-formed) without columns, it raises [IndexError].
    Otherwise it works
    on the frame without its first row and first column if both are
    entirely empty ([trimmed]), and: if every required column is among
    the labels, it returns the frame with the labels renamed by the
    mapping, the cells untouched, and [True], showing nothing; if not,
    it returns [None] and [False] and shows one message naming the
    missing columns in the order of the required list. *)
Theorem X10_check_and_map_columns_contract {V} (df : DataFrame V)
    (required_columns : list string) (column_mapping : dict string string) :
  (cells df = [] ->
   check_and_map_columns df required_columns column_mapping
   = Raises IndexError) /\
  (well_formed df -> cells df <> [] -> columns df = [] ->
   check_and_map_columns df required_columns column_mapping
   = Raises IndexError) /\
  (cells df <> [] -> columns df <> [] ->
   ((forall c, In c required_columns -> In c (columns (trimmed df))) ->
    check_and_map_columns df required_columns column_mapping
    = Returns ([], (Some (rename (trimmed df) column_mapping), true))) /\
   (~ (forall c, In c required_columns -> In c (columns (trimmed df))) ->
    exists missing,
      missing <> [] /\
      (forall c, In c missing <->
                 In c required_columns /\ ~ In c (columns (trimmed df))) /\
      check_and_map_columns df required_columns column_mapping
      = Returns ([missing_message missing], (None, false)))).
Proof.
  split; [|split].
  - intros E. unfold check_and_map_columns, iloc_row0. now rewrite E.
  - intros Hwf Hc E. unfold check_and_map_columns, iloc_row0, iloc_column0.
    unfold well_formed in Hwf.
    destruct (cells df) as [|r rest] eqn:Er; [now destruct Hc|].
    inversion Hwf as [|? ? Hr _]; subst. rewrite E in Hr.
    destruct r; [|discriminate]. rewrite E. reflexivity.
  - intros Hc Hcol. rewrite (check_and_map_columns_eq df _ _ Hc Hcol). cbv zeta.
    split.
    + intros Hall. apply missing_columns_nil in Hall. now rewrite Hall.
    + intros Hn.
      exists (filter (fun col => negb (member col (columns (trimmed df))))
                     required_columns).
      assert (Hne : filter (fun col => negb (member col (columns (trimmed df))))
                           required_columns <> []).
      { intros E. apply Hn. now apply missing_columns_nil. }
      split; [exact Hne|]. split; [intros c; apply missing_columns_In|].
      destruct (filter _ required_columns); [now destruct Hne | reflexivity].
Qed.

Lemma X10_witness :
  check_and_map_columns ex_source_sheet source_required_columns
                        source_column_mapping
  = Returns ([], (Some (rename (trimmed ex_source_sheet) source_column_mapping),
                  true)) /\
  exists missing,
    missing <> [] /\
    (forall c, In c missing <->
               In c source_required_columns /\
               ~ In c (columns (trimmed ex_short_sheet))) /\
    check_and_map_columns ex_short_sheet source_required_columns
                          source_column_mapping
    = Returns ([missing_message missing], (None, false)).
Proof.
  split.
  - apply (proj1 (proj2 (proj2 (X10_check_and_map_columns_contract
                                  ex_source_sheet source_required_columns
                                  source_column_mapping))
                        ltac:(discriminate) ltac:(discriminate))).
    apply missing_columns_nil. reflexivity.
  - apply (proj2 (proj2 (proj2 (X10_check_and_map_columns_contract
                                  ex_short_sheet source_required_columns
                                  source_column_mapping))
                        ltac:(discriminate) ltac:(discriminate))).
    intros Hall. apply missing_columns_nil in Hall. discriminate Hall.
Defined.

(** Whenever [check_and_map_columns] returns, its value is determined
    by the labels of the trimmed frame. *)
Lemma check_and_map_columns_returns {V} (df : DataFrame V) req mapping x :
  check_and_map_columns df req mapping = Returns x ->
  x = (let missing := filter (fun col => negb (member col (columns (trimmed df))))
                             req in
       if nonempty missing
       then ([missing_message missing], (None, false))
       else ([], (Some (rename (trimmed df) mapping), true))).
Proof.
  unfold check_and_map_columns, trimmed, iloc_row0, iloc_column0.
  destruct (cells df) as [|r rest] eqn:Er; [discriminate|].
  cbn [hd]. destruct (isnull_all r); cbn [andb].
  - destruct (columns df) as [|c cs] eqn:Ec; [discriminate|].
    destruct (isnull_all _); cbv zeta.
    + destruct (nonempty _); now intros [= <-].
    + rewrite Ec. destruct (nonempty _); now intros [= <-].
  - cbv zeta. destruct (nonempty _); now intros [= <-].
Qed.

Lemma check_and_map_columns_success {V} (df : DataFrame V) req mapping shown out :
  check_and_map_columns df req mapping = Returns (shown, (Some out, true)) ->
  out = rename (trimmed df) mapping /\
  forall c, In c req -> In c (columns (trimmed df)).
Proof.
  intros H. apply check_and_map_columns_returns in H. cbv zeta in H.
  destruct (filter _ req) as [|c0 r0] eqn:E; simpl in H; [|discriminate].
  injection H as _ ->. split; [reflexivity|].
  now apply missing_columns_nil.
Qed.

Lemma renamed_In (mapping : dict string string) cols c :
  In c cols -> In (renamed mapping c) (map (renamed mapping) cols).
Proof. apply in_map. Qed.

Lemma renamed_identity (mapping : dict string string) c :
  (forall k v, In (k, v) mapping -> v = k) -> renamed mapping c = c.
Proof.
  unfold renamed. induction mapping as [|[k v] r IH]; intros Hid; simpl;
    [reflexivity|].
  destruct (key_eqb c k) eqn:E.
  - apply key_eqb_spec in E. subst k. apply Hid. now left.
  - apply IH. intros k' v' Hin. apply Hid. now right.
Qed.

Lemma trucking_renamed c : renamed trucking_column_mapping c = c.
Proof.
  apply renamed_identity. intros k v Hin. simpl in Hin.
  repeat (destruct Hin as [[= <- <-]|Hin]; [reflexivity|]).
  contradiction.
Qed.

(** X11. When a preprocessing function accepts a sheet, the frame it
    returns carries the column labels the optimizer reads: for the
    manifest [Origin_ID], [Destination_ID], [planned_end_of_loading],
    [Consignment quantity] and [id]; for the destinations
    [Destination_ID], [Start of shift], [End of lay-on],
    [Sorting capacity] and the three location columns; for the lanes
    [Origin_ID], [Destination_ID], [OSRM_time [sek]] and
    [OSRM_distance [m]]. The cells are those of the (trimmed) sheet, and
    the lane table is returned as it is: its mapping renames nothing. *)
Theorem X11_preprocessed_columns {V} (sheet : DataFrame V) shown out :
  (preprocess_source_file sheet = Returns (shown, (Some out, true)) ->
   incl ["Origin_ID"; "Destination_ID"; "planned_end_of_loading";
         "Consignment quantity"; "id"]%string (columns out) /\
   cells out = cells (trimmed sheet)) /\
  (preprocess_destination_file sheet = Returns (shown, (Some out, true)) ->
   incl ["Destination_ID"; "PZ_Sorting_location"; "PZ_Name"; "Start of shift";
         "End of lay-on"; "Sorting capacity"; "PZ_Latitude";
         "PZ_Longitude"]%string (columns out) /\
   cells out = cells (trimmed (dropna sheet))) /\
  (preprocess_trucking_file sheet = Returns (shown, (Some out, true)) ->
   incl ["Origin_ID"; "Destination_ID"; "OSRM_time [sek]";
         "OSRM_distance [m]"]%string (columns out) /\
   out = trimmed sheet).
Proof.
  split; [|split]; intros H; apply check_and_map_columns_success in H;
    destruct H as (-> & Hall).
  - split; [|reflexivity].
    intros c [<-|[<-|[<-|[<-|[<-|[]]]]]].
    + apply (renamed_In source_column_mapping _ "quelle_agnr"%string),
        Hall; simpl; tauto.
    + apply (renamed_In source_column_mapping _ "senke_agnr"%string),
        Hall; simpl; tauto.
    + apply (renamed_In source_column_mapping _ "geplantes_beladeende"%string),
        Hall; simpl; tauto.
    + apply (renamed_In source_column_mapping _ "Sendungsmenge"%string),
        Hall; simpl; tauto.
    + apply (renamed_In source_column_mapping _ "id"%string),
        Hall; simpl; tauto.
  - split; [|reflexivity].
    intros c [<-|[<-|[<-|[<-|[<-|[<-|[<-|[<-|[]]]]]]]]].
    + apply (renamed_In destination_column_mapping _ "PZA_GNR"%string),
        Hall; simpl; tauto.
    + apply (renamed_In destination_column_mapping _
               "PZ_Sortierstandort"%string), Hall; simpl; tauto.
    + apply (renamed_In destination_column_mapping _ "PZ_Name"%string),
        Hall; simpl; tauto.
    + apply (renamed_In destination_column_mapping _ "Schichtbeginn"%string),
        Hall; simpl; tauto.
    + apply (renamed_In destination_column_mapping _
               "Auflegeende (=Sortierschluss/ PZE Sorter Cutoff)"%string),
        Hall; simpl; tauto.
    + apply (renamed_In destination_column_mapping _
               "Sortierleistung [Sdg je h]"%string), Hall; simpl; tauto.
    + apply (renamed_In destination_column_mapping _ "PZ_Latitude"%string),
        Hall; simpl; tauto.
    + apply (renamed_In destination_column_mapping _ "PZ_Longitude"%string),
        Hall; simpl; tauto.
  - assert (E : rename (trimmed sheet) trucking_column_mapping = trimmed sheet).
    { destruct (trimmed sheet) as [cols cs]. unfold rename. simpl. f_equal.
      rewrite <- (map_id cols) at 2. apply map_ext. apply trucking_renamed. }
    rewrite E. split; [|reflexivity].
    intros c [<-|[<-|[<-|[<-|[]]]]]; apply Hall; simpl; tauto.
Qed.

Lemma X11_witness :
  (preprocess_source_file ex_source_sheet
   = Returns ([], (Some (rename ex_source_sheet source_column_mapping), true)) /\
   incl ["Origin_ID"; "Destination_ID"; "planned_end_of_loading";
         "Consignment quantity"; "id"]%string
        (columns (rename ex_source_sheet source_column_mapping)) /\
   cells (rename ex_source_sheet source_column_mapping)
   = cells (trimmed ex_source_sheet)) /\
  (preprocess_destination_file ex_destination_sheet
   = Returns ([], (Some (rename (dropna ex_destination_sheet)
                                destination_column_mapping), true)) /\
   incl ["Destination_ID"; "PZ_Sorting_location"; "PZ_Name"; "Start of shift";
         "End of lay-on"; "Sorting capacity"; "PZ_Latitude";
         "PZ_Longitude"]%string
        (columns (rename (dropna ex_destination_sheet)
                         destination_column_mapping)) /\
   cells (rename (dropna ex_destination_sheet) destination_column_mapping)
   = cells (trimmed (dropna ex_destination_sheet))) /\
  (preprocess_trucking_file ex_trucking_sheet
   = Returns ([], (Some ex_trucking_sheet, true)) /\
   incl ["Origin_ID"; "Destination_ID"; "OSRM_time [sek]";
         "OSRM_distance [m]"]%string (columns ex_trucking_sheet) /\
   ex_trucking_sheet = trimmed ex_trucking_sheet).
Proof.
  split; [|split].
  - split; [reflexivity|].
    exact (proj1 (X11_preprocessed_columns ex_source_sheet []
                    (rename ex_source_sheet source_column_mapping)) eq_refl).
  - split; [reflexivity|].
    exact (proj1 (proj2 (X11_preprocessed_columns ex_destination_sheet []
                           (rename (dropna ex_destination_sheet)
                                   destination_column_mapping))) eq_refl).
  - split; [reflexivity|].
    exact (proj2 (proj2 (X11_preprocessed_columns ex_trucking_sheet []
                           ex_trucking_sheet)) eq_refl).
Defined.

Lemma check_raises_without_rows {V} (df : DataFrame V) req mapping :
  cells df = [] -> check_and_map_columns df req mapping = Raises IndexError.
Proof. intros E. unfold check_and_map_columns, iloc_row0. now rewrite E. Qed.

Lemma check_raises_without_columns {V} (df : DataFrame V) req mapping :
  well_formed df -> cells df <> [] -> columns df = [] ->
  check_and_map_columns df req mapping = Raises IndexError.
Proof.
  intros Hwf Hc E. unfold check_and_map_columns, iloc_row0, iloc_column0.
  unfold well_formed in Hwf.
  destruct (cells df) as [|r rest] eqn:Er; [now destruct Hc|].
  inversion Hwf as [|? ? Hr _]; subst. rewrite E in Hr.
  destruct r; [|discriminate]. rewrite E. reflexivity.
Qed.

Lemma well_formed_dropna {V} (sheet : DataFrame V) :
  well_formed sheet -> well_formed (dropna sheet).
Proof.
  unfold well_formed, dropna. simpl. intros H.
  apply Forall_forall. intros r Hr. apply filter_In in Hr.
  rewrite Forall_forall in H. now apply H.
Qed.

(** After [dropna] no row has an empty cell, so the border test of
    [check_and_map_columns] never fires. *)
Lemma trimmed_dropna {V} (sheet : DataFrame V) :
  well_formed sheet -> columns sheet <> [] -> cells (dropna sheet) <> [] ->
  trimmed (dropna sheet) = dropna sheet.
Proof.
  intros Hwf Hcol Hc. unfold trimmed.
  destruct (cells (dropna sheet)) as [|r rest] eqn:Er; [now destruct Hc|].
  assert (Hin : In r (cells (dropna sheet))) by (rewrite Er; now left).
  unfold dropna in Hin. simpl in Hin. apply filter_In in Hin.
  destruct Hin as (Hin & Hcomplete).
  unfold well_formed in Hwf. rewrite Forall_forall in Hwf.
  specialize (Hwf r Hin).
  destruct r as [|c r'].
  - destruct (columns sheet); [now destruct Hcol | discriminate].
  - simpl in Hcomplete. apply andb_true_iff in Hcomplete.
    destruct Hcomplete as (Hn & _). cbn [hd isnull_all forallb].
    apply negb_true_iff in Hn. rewrite Hn. reflexivity.
Qed.

(** X12. [preprocess_destination_file] on a well-formed sheet: it
    raises [IndexError], and nothing else, exactly when the sheet has no
    column or no row without an empty cell; otherwise it returns, and a
    frame it returns has exactly the rows of the sheet that have no
    empty cell, in order, with the labels renamed: the first row and
    column are never cut off. *)
Theorem X12_destination_keeps_complete_rows {V} (sheet : DataFrame V) :
  well_formed sheet ->
  (preprocess_destination_file sheet = Raises IndexError <->
   cells (dropna sheet) = [] \/ columns sheet = []) /\
  (forall e, preprocess_destination_file sheet = Raises e -> e = IndexError) /\
  (forall shown out ok,
     preprocess_destination_file sheet = Returns (shown, (Some out, ok)) ->
     cells out = filter (forallb (fun c => negb (isnull c))) (cells sheet) /\
     columns out = map (renamed destination_column_mapping) (columns sheet)).
Proof.
  intros Hwf. unfold preprocess_destination_file.
  pose proof (well_formed_dropna sheet Hwf) as Hwf'.
  assert (Hcases : cells (dropna sheet) = [] \/
                   (cells (dropna sheet) <> [] /\ columns sheet = []) \/
                   (cells (dropna sheet) <> [] /\ columns sheet <> [])).
  { destruct (cells (dropna sheet)); [now left | right].
    destruct (columns sheet); [left | right]; split; congruence. }
  destruct Hcases as [E|[(Hc & E)|(Hc & Hcol)]].
  - rewrite (check_raises_without_rows (dropna sheet) _ _ E).
    split; [tauto|]. split; [now intros e [= <-] | discriminate].
  - rewrite (check_raises_without_columns (dropna sheet) _ _ Hwf' Hc E).
    split; [tauto|]. split; [now intros e [= <-] | discriminate].
  - rewrite (check_and_map_columns_eq (dropna sheet) _ _ Hc Hcol). cbv zeta.
    rewrite (trimmed_dropna sheet Hwf Hcol Hc).
    destruct (nonempty _).
    + split; [|split; discriminate].
      split; [discriminate | intros [E|E]; contradiction].
    + split; [|split; [discriminate|]].
      * split; [discriminate | intros [E|E]; contradiction].
      * intros shown out ok [= _ <- _]. split; reflexivity.
Qed.

Lemma ex_destination_sheet_well_formed : well_formed ex_destination_sheet.
Proof. repeat constructor. Qed.

Lemma X12_witness :
  well_formed ex_destination_sheet /\
  (preprocess_destination_file ex_destination_sheet = Raises IndexError <->
   cells (dropna ex_destination_sheet) = [] \/
   columns ex_destination_sheet = []) /\
  (forall e, preprocess_destination_file ex_destination_sheet = Raises e ->
             e = IndexError) /\
  (forall shown out ok,
     preprocess_destination_file ex_destination_sheet
     = Returns (shown, (Some out, ok)) ->
     cells out = filter (forallb (fun c => negb (isnull c)))
                        (cells ex_destination_sheet) /\
     columns out = map (renamed destination_column_mapping)
                       (columns ex_destination_sheet)).
Proof.
  split; [exact ex_destination_sheet_well_formed|].
  exact (X12_destination_keeps_complete_rows ex_destination_sheet
           ex_destination_sheet_well_formed).
Defined.

(* ================================================================== *)
(** * A solution of the small instance *)
(* ================================================================== *)

Lemma by_name_declared st val v d :
  declared st v d -> by_name (model st) val v = val (vname d).
Proof. unfold declared, by_name. now intros ->. Qed.

(** An assignment given by names is feasible if every name's value
    respects the declaration of the name and every constraint holds. *)
Lemma by_name_feasible st val :
  (forall v d, declared st v d -> standard d) ->
  (forall n, respects (declaration_of n) (val n)) ->
  (forall c, In c (constrs (model st)) -> holds (by_name (model st) val) c) ->
  feasible (model st) (by_name (model st) val).
Proof.
  intros Hstd Hval Hc. split.
  - intros v d Hd. rewrite (by_name_declared st val v d Hd).
    pose proof (Hval (vname d)) as H. pose proof (Hstd v d Hd) as E.
    unfold standard in E. rewrite <- E in H. exact H.
  - apply Forall_forall. exact Hc.
Qed.

Section NamedValues.
Variables (st : DHL_Optimization) (val : VarName -> Q).
Hypothesis Hok : tables_ok st.

Lemma by_name_X i j k l x :
  In (i, j, k) (valid_combinations st) -> In l (trucks st) ->
  dict_get (X st) (i, j, k, l) = Some x ->
  by_name (model st) val x = val (X_ i j k l).
Proof.
  intros Hc Hl Hx. destruct Hok as (HX & _).
  destruct (HX i j k l Hc Hl) as (x' & Hx' & Hd).
  assert (x' = x) by congruence. subst x'.
  exact (by_name_declared st val x _ Hd).
Qed.

Lemma by_name_Z l z :
  In l (trucks st) -> dict_get (Z st) l = Some z ->
  by_name (model st) val z = val (Z_ l).
Proof.
  intros Hl Hz. destruct Hok as (_ & HZ & _).
  destruct (HZ l Hl) as (z' & Hz' & Hd).
  assert (z' = z) by congruence. subst z'.
  exact (by_name_declared st val z _ Hd).
Qed.

Lemma by_name_T l t :
  In l (trucks st) -> dict_get (T st) l = Some t ->
  by_name (model st) val t = val (T_ l).
Proof.
  intros Hl Ht. destruct Hok as (_ & _ & HT & _).
  destruct (HT l Hl) as (t' & Ht' & Hd).
  assert (t' = t) by congruence. subst t'.
  exact (by_name_declared st val t _ Hd).
Qed.

Lemma by_name_ArrivalDayBinary l d a :
  In l (trucks st) -> In d (range 1 7) ->
  dict_get (ArrivalDayBinary st) (l, d) = Some a ->
  by_name (model st) val a = val (ArrivalDayBinary_ l d).
Proof.
  intros Hl Hd Ha. destruct Hok as (_ & _ & _ & HA).
  destruct (HA l d Hl Hd) as (a' & Ha' & Hdecl).
  assert (a' = a) by congruence. subst a'.
  exact (by_name_declared st val a _ Hdecl).
Qed.
End NamedValues.

Lemma Qsum_indicator (a : int) (xs : list int) :
  NoDup xs -> In a xs ->
  (Qsum (map (fun l => if (l =? a)%Z then 1 else 0) xs) == 1)%Q.
Proof.
  induction xs as [|x r IH]; intros Hnd Hin; [contradiction|].
  inversion Hnd as [|? ? Hx Hr]; subst. simpl.
  destruct Hin as [->|Hin].
  - rewrite Z.eqb_refl.
    rewrite (@Qsum_zero _ (fun l => if (l =? a)%Z then 1 else 0) r); [lra|].
    intros y Hy. destruct (Z.eqb_spec y a) as [->|_]; [contradiction | reflexivity].
  - destruct (Z.eqb_spec x a) as [->|_]; [contradiction|].
    rewrite IH by assumption. lra.
Qed.

Lemma Qsum_flat_singleton {A B} (f : B -> Q) (g : A -> B) xs :
  Qsum (map f (flat_map (fun x => [g x]) xs)) = Qsum (map (fun x => f (g x)) xs).
Proof. induction xs as [|x r IH]; simpl; [reflexivity | now rewrite IH]. Qed.

Lemma ex_values_respect n : respects (declaration_of n) (ex_values n).
Proof.
  destruct n as [i j k l|l|l|l|l d|i j k l]; unfold respects; simpl.
  - destruct (l =? 0)%Z; (split; [lra|]); (split; [exact I|]);
      [now right | now left].
  - split; [lra|]. split; [exact I | now right].
  - split; [lra|]. split; exact I.
  - split; [lra|]. split; [lra | exact I].
  - destruct (d =? 1)%Z; (split; [lra|]); (split; [exact I|]);
      [now right | now left].
  - split; [lra|]. split; [exact I|]. exists 0%Z. reflexivity.
Qed.

Lemma ex_triples (tr : list int) :
  flat_map (fun i : string =>
     if negb (key_eqb "B"%string i) then
       flat_map (fun k : int =>
         flat_map (fun l : int =>
           if member (i, "B"%string, k) [("A"%string, "B"%string, 7%Z)]
           then [(i, k, l)] else []) tr) [7%Z]
     else []) ["A"%string]
  = flat_map (fun l => [("A"%string, 7%Z, l)]) tr.
Proof. simpl. now rewrite !app_nil_r. Qed.

Section ExampleSolution.
Variable st : DHL_Optimization.
Hypothesis Hok : tables_ok st.
Hypothesis Evc : valid_combinations st = [("A"%string, "B"%string, 7%Z)].
Hypothesis Etr : trucks st = range 0 300.
Hypothesis Esdf : source_df st = ex_source_df.
Hypothesis Eddf : destination_df st = ex_destination_df.
Hypothesis Etdf : trucking_df st = ex_trucking_df.
Hypothesis Edl : destination_list st = ["B"%string].
Hypothesis Esl : source_list st = ["A"%string].
Hypothesis Ecl : consignment_list st = [7%Z].

Lemma ex_combination st_c : In st_c (valid_combinations st) ->
  st_c = ("A"%string, "B"%string, 7%Z).
Proof. rewrite Evc. intros [<-|[]]. reflexivity. Qed.

Lemma ex_vc_In : In ("A"%string, "B"%string, 7%Z) (valid_combinations st).
Proof. rewrite Evc. now left. Qed.

Lemma ex_X_value l x :
  In l (trucks st) ->
  dict_get (X st) ("A"%string, "B"%string, 7%Z, l) = Some x ->
  by_name (model st) ex_values x = if (l =? 0)%Z then 1%Q else 0%Q.
Proof.
  intros Hl Hx. exact (by_name_X st ex_values Hok _ _ _ l x ex_vc_In Hl Hx).
Qed.

Lemma ex_Z_value l z :
  In l (trucks st) -> dict_get (Z st) l = Some z ->
  by_name (model st) ex_values z = 1%Q.
Proof. intros Hl Hz. exact (by_name_Z st ex_values Hok l z Hl Hz). Qed.

Lemma ex_capacity_holds l c :
  In l (trucks st) -> capacity_shape st l c ->
  holds (by_name (model st) ex_values) c.
Proof.
  intros Hl (xs & z & HF & Hz & ->). rewrite Evc in HF.
  inversion HF as [|c0 e cs es Hhd HF']; subst.
  inversion HF'; subst. cbv beta iota in Hhd.
  destruct Hhd as (x & Hx & ->).
  unfold holds. simpl.
  rewrite (ex_X_value l x Hl Hx), (ex_Z_value l z Hl Hz).
  destruct (l =? 0)%Z; lra.
Qed.

Lemma ex_release_holds cb l c :
  In cb (valid_combinations st) -> In l (trucks st) ->
  release_shape st cb l c -> holds (by_name (model st) ex_values) c.
Proof.
  intros Hc Hl Hs. rewrite (ex_combination cb Hc) in Hs.
  destruct Hs as (rt & t & x & Hrt & Ht & Hx & ->).
  rewrite Esdf in Hrt. simpl in Hrt. injection Hrt as <-.
  unfold holds. simpl.
  rewrite (ex_X_value l x Hl Hx), (by_name_T st ex_values Hok l t Hl Ht).
  simpl. change (inject_Z 8) with 8%Q. destruct (l =? 0)%Z; lra.
Qed.
Lemma ex_day_terms_zero l ds :
  day_terms_of st (fun d => inject_Z (d - 1)) l ds ->
  (Qsum (map (eval (by_name (model st) ex_values)) ds) == 0)%Q.
Proof.
  intros HF. unfold day_terms_of in HF.
  rewrite (@Qsum_Forall2 _ _ (fun _ => 0%Q) (by_name (model st) ex_values)
             _ _ HF).
  - apply Qsum_zero. reflexivity.
  - intros d e _ (a & _ & Hd & ->). simpl.
    rewrite (by_name_declared st ex_values a _ Hd). simpl.
    destruct (Z.eqb_spec d 1) as [->|_].
    + change (inject_Z (1 - 1)) with 0%Q. lra.
    + apply Qmult_0_r.
Qed.

Lemma ex_window_holds cb l c :
  In cb (valid_combinations st) -> In l (trucks st) ->
  window_shape st cb l c -> holds (by_name (model st) ex_values) c.
Proof.
  intros Hc Hl Hs. rewrite (ex_combination cb Hc) in Hs.
  destruct Hs as (ss & es & sec & t & x & ds & m
                  & Hss & Hes & Hsec & Ht & Hx & Hds & Hm & Hcc).
  rewrite Eddf in Hss, Hes. rewrite Etdf in Hsec.
  vm_compute in Hss. vm_compute in Hes. vm_compute in Hsec.
  injection Hss as <-. injection Hes as <-. injection Hsec as <-.
  pose proof (ex_day_terms_zero l ds Hds) as Hz.
  pose proof (ex_X_value l x Hl Hx) as Ex.
  pose proof (by_name_T st ex_values Hok l t Hl Ht) as Et.
  pose proof (by_name_declared st ex_values m _ Hm) as Em.
  simpl in Et, Em.
  destruct Hcc as [-> | ->]; unfold holds, arrival_expr; simpl;
    rewrite Hz, Ex, Et, Em; destruct (l =? 0)%Z.
  all: vm_compute; discriminate.
Qed.

Lemma ex_assignment_holds cb c :
  In cb (valid_combinations st) ->
  assignment_shape st cb c -> holds (by_name (model st) ex_values) c.
Proof.
  intros Hc Hs. rewrite (ex_combination cb Hc) in Hs.
  destruct Hs as (terms & HF & ->).
  unfold holds. simpl.
  rewrite (@Qsum_Forall2 _ _ (fun l => if (l =? 0)%Z then 1%Q else 0%Q)
             (by_name (model st) ex_values) _ _ HF).
  - apply Qsum_indicator.
    + rewrite Etr. apply range_NoDup.
    + rewrite Etr. apply range_In. lia.
  - intros l e Hl (x & z & Hx & Hz & ->). simpl.
    rewrite (ex_X_value l x Hl Hx), (ex_Z_value l z Hl Hz). lra.
Qed.

Lemma ex_arrival_day_holds l c :
  In l (trucks st) ->
  arrival_day_shape st l c -> holds (by_name (model st) ex_values) c.
Proof.
  intros Hl (terms & z & Hz & HF & ->).
  unfold holds. simpl.
  rewrite (@Qsum_Forall2 _ _ (fun d => if (d =? 1)%Z then 1%Q else 0%Q)
             (by_name (model st) ex_values) _ _ HF).
  - apply Qsum_indicator; [apply range_NoDup | apply range_In; lia].
  - intros d e Hd (a & Ha & ->). simpl.
    rewrite (by_name_ArrivalDayBinary st ex_values Hok l d a Hl Hd Ha),
      (ex_Z_value l z Hl Hz).
    simpl. lra.
Qed.

Lemma ex_sorting_triples :
  sorting_triples st "B"%string
  = flat_map (fun l => [("A"%string, 7%Z, l)]) (trucks st).
Proof.
  unfold sorting_triples. rewrite Esl, Ecl, Evc. apply ex_triples.
Qed.

Lemma ex_sorting_holds j d c :
  In j (destination_list st) -> In d (range 1 7) ->
  sorting_shape st j d c -> holds (by_name (model st) ex_values) c.
Proof.
  intros Hj Hd Hs. rewrite Edl in Hj. destruct Hj as [<-|[]].
  destruct Hs as (e & b & cap & terms & He & Hb & Hcap & HF & ->).
  rewrite Eddf in He, Hb, Hcap.
  vm_compute in He. vm_compute in Hb. vm_compute in Hcap.
  injection He as <-. injection Hb as <-. injection Hcap as <-.
  rewrite ex_sorting_triples in HF.
  unfold holds. simpl.
  rewrite (@Qsum_Forall2 _ _
             (fun ikl : string * int * int =>
                (if (snd ikl =? 0)%Z then 1 else 0)
                * (100 * (if (d =? 1)%Z then 1 else 0)))%Q
             (by_name (model st) ex_values) _ _ HF).
  - rewrite Qsum_flat_singleton. cbn [snd].
    rewrite (Qsum_scale (fun l : int => if (l =? 0)%Z then 1%Q else 0%Q)).
    rewrite Qsum_indicator;
      [| rewrite Etr; apply range_NoDup | rewrite Etr; apply range_In; lia].
    destruct (d =? 1)%Z; vm_compute; discriminate.
  - intros [[i k] l] t Hin (x & q & a & Hx & Hq & Ha & ->).
    apply in_flat_map in Hin. destruct Hin as (l' & Hl & [[= <- <- <-]|[]]).
    rewrite Esdf in Hq. vm_compute in Hq. injection Hq as <-.
    simpl.
    rewrite (ex_X_value l' x Hl Hx),
      (by_name_ArrivalDayBinary st ex_values Hok l' d a Hl Hd Ha).
    simpl. lra.
Qed.

(** Every constraint of the six families holds under the solution. *)
Lemma ex_family_holds c :
  family_shape st c -> holds (by_name (model st) ex_values) c.
Proof.
  intros [l Hl H|cb l Hc Hl H|cb l Hc Hl H|cb Hc H|j d Hj Hd H|l Hl H].
  - exact (ex_capacity_holds l c Hl H).
  - exact (ex_release_holds cb l c Hc Hl H).
  - exact (ex_window_holds cb l c Hc Hl H).
  - exact (ex_assignment_holds cb c Hc H).
  - exact (ex_sorting_holds j d c Hj Hd H).
  - exact (ex_arrival_day_holds l c Hl H).
Qed.
End ExampleSolution.

(** On a fresh optimizer the model of a build consists of the six
    families and of variables with the declaration of their name. *)
Lemma fresh_build_complete sdf ddf tdf srcs dst st :
  build srcs dst (new_optimizer sdf ddf tdf) = Ok tt st ->
  (forall c, In c (constrs (model st)) -> family_shape st c) /\
  (forall v d, declared st v d -> standard d).
Proof.
  intros Hb.
  destruct (build_phases _ _ _ _ Hb) as (s1 & Hi & Hp & _ & _ & (Hoc & Hov) & _).
  destruct (initialize_model_standard _ _ _ _ Hi) as (ds & Ev & F).
  destruct Hp as (_ & _ & _ & _ & _ & _ & _ & E8 & _).
  split.
  - intros c Hc. destruct (Hoc c Hc) as [H1|H2]; [|exact H2].
    rewrite E8 in H1. destruct H1.
  - intros v d Hd. destruct (Hov v d Hd) as [H1|H2]; [|exact H2].
    unfold declared in H1. rewrite Ev in H1. simpl in H1.
    apply nth_error_In in H1. rewrite Forall_forall in F. now apply F.
Qed.

Lemma built_lists srcs dst self st :
  build srcs dst self = Ok tt st ->
  source_list st = srcs /\
  consignment_list st = consignments_of (source_df self) (routes_of srcs dst).
Proof.
  intros Hb.
  destruct (build_phases _ _ _ _ Hb) as (s1 & Hi & _ & _ & Hx & _).
  pose proof (initialize_model_inputs _ _ _ _ Hi) as Hin.
  injection Hin as _ _ _ E4 _ _ E7 _ _.
  rewrite (frame_source_list (proj1 Hx)), (frame_consignment_list (proj1 Hx)).
  auto.
Qed.

(** The solution of the small instance is feasible. *)
Lemma ex_feasible : feasible (model ex_built) ex_solution.
Proof.
  destruct (fresh_build_complete _ _ _ _ _ _ ex_build_ok) as (Hc & Hv).
  pose proof (built_tables (build_inv ex_build_ok))
    as (Hok & _ & Etr & Esdf & Eddf & Etdf & Edl & _).
  destruct (built_lists _ _ _ _ ex_build_ok) as (Esl & Ecl).
  apply by_name_feasible; [exact Hv | exact ex_values_respect|].
  intros c Hin.
  exact (ex_family_holds ex_built Hok ex_valid_combinations Etr
           (eq_trans Esdf eq_refl) (eq_trans Eddf eq_refl)
           (eq_trans Etdf eq_refl) Edl Esl (eq_trans Ecl eq_refl)
           c (Hc c Hin)).
Qed.

(* ================================================================== *)
(** * The result table of a feasible solution *)
(* ================================================================== *)

Lemma Forall2_In_l {A B} (R : A -> B -> Prop) xs ys x :
  Forall2 R xs ys -> In x xs -> exists y, In y ys /\ R x y.
Proof.
  induction 1 as [|a b xs ys HR _ IH]; intros Hin; [contradiction|].
  destruct Hin as [<-|Hin].
  - exists b. split; [now left | exact HR].
  - destruct (IH Hin) as (y & Hy & HRy). exists y. split; [now right | exact HRy].
Qed.

Lemma Forall2_In_r {A B} (R : A -> B -> Prop) xs ys y :
  Forall2 R xs ys -> In y ys -> exists x, In x xs /\ R x y.
Proof.
  induction 1 as [|a b xs ys HR _ IH]; intros Hin; [contradiction|].
  destruct Hin as [<-|Hin].
  - exists a. split; [now left | exact HR].
  - destruct (IH Hin) as (x & Hx & HRx). exists x. split; [now right | exact HRx].
Qed.

Lemma Qsum_Forall2_values {A} (R : A -> Q -> Prop) (h : A -> Q) xs qs :
  Forall2 R xs qs ->
  (forall x q, In x xs -> R x q -> (q == h x)%Q) ->
  (Qsum qs == Qsum (map h xs))%Q.
Proof.
  induction 1 as [|x q xs qs HR HF IH]; intros Hh; simpl; [reflexivity|].
  assert (E1 : (q == h x)%Q) by (apply Hh; [now left | assumption]).
  assert (E2 : (Qsum qs == Qsum (map h xs))%Q).
  { apply IH. intros x' q' Hx'. apply Hh. now right. }
  rewrite E1, E2. reflexivity.
Qed.

(** A sum of days weighted by non-negative indicators lies between the
    number of indicators set and six times that number. *)
Lemma day_sum_bounds (g : int -> Q) (ds : list int) :
  (forall d, In d ds -> (1 <= d <= 6)%Z /\ (0 <= g d)%Q) ->
  (Qsum (map g ds) <= Qsum (map (fun d => inject_Z d * g d) ds))%Q /\
  (Qsum (map (fun d => inject_Z d * g d) ds) <= 6 * Qsum (map g ds))%Q.
Proof.
  induction ds as [|d r IH]; intros Hd; simpl; [split; lra|].
  destruct (Hd d (or_introl eq_refl)) as ((H1 & H6) & Hg).
  destruct IH as (IH1 & IH2); [intros; apply Hd; now right|].
  assert (Q1 : (1 <= inject_Z d)%Q) by (rewrite (Zle_Qle 1) in H1; exact H1).
  assert (Q6 : (inject_Z d <= 6)%Q) by (rewrite (Zle_Qle d 6) in H6; exact H6).
  split; nra.
Qed.

(** Exactly one truck carries a valid combination, on any object with
    the tables and the constraints of a build. *)
Lemma exactly_one_truck st s i j k :
  tables_ok st -> NoDup (trucks st) ->
  In (i, j, k) (valid_combinations st) ->
  assignment_for st (i, j, k) ->
  (forall l, In l (trucks st) -> arrival_day_for st l) ->
  feasible (model st) s ->
  exists l, In l (trucks st) /\
            takes (X st) s (i, j, k, l) 1 /\
            takes (Z st) s l 1 /\
            forall l', In l' (trucks st) ->
                       takes (X st) s (i, j, k, l') 1 -> l' = l.
Proof.
  intros Hok Hnd Hc (terms & HF & Hin) Hday Hf.
  pose proof (feasible_holds Hf Hin) as Hh. unfold holds in Hh. simpl in Hh.
  set (f := fun l => match dict_get (X st) (i, j, k, l) with
                     | Some x => s x
                     | None => 0%Q
                     end).
  assert (Hsum : (Qsum (map f (trucks st)) == 1)%Q).
  { rewrite <- Hh. symmetry. apply (Qsum_Forall2 _ _ s HF).
    intros l e Hl (x & z & Hx & Hz & ->). simpl.
    destruct (arrival_day_forces_use Hok Hl (Hday l Hl) Hf) as (z' & Hz' & Hone).
    assert (z' = z) by congruence. subst z'.
    unfold f. rewrite Hx, Hone. lra. }
  assert (Hbin : forall l, In l (trucks st) -> is_binary (f l)).
  { intros l Hl. destruct (tables_ok_X_binary Hok Hf Hc Hl) as (x & Hx & Hb).
    unfold f. now rewrite Hx. }
  destruct (Qsum_binary_one f Hnd Hbin Hsum) as (l & Hl & Hfl & Huniq).
  exists l. split; [exact Hl|].
  destruct (tables_ok_X_binary Hok Hf Hc Hl) as (x & Hx & _).
  split; [exists x; split; auto; unfold f in Hfl; now rewrite Hx in Hfl|].
  split; [exact (arrival_day_forces_use Hok Hl (Hday l Hl) Hf)|].
  intros l' Hl' (x' & Hx' & Hone). apply Huniq; auto.
  unfold f. now rewrite Hx'.
Qed.

(** In a feasible solution the arrival day [solve] reports for a truck
    lies between 1 and 6. *)
Lemma arrival_day_bounds st s l days :
  tables_ok st -> In l (trucks st) -> arrival_day_for st l ->
  feasible (model st) s ->
  Forall2 (fun d q => exists a,
             dict_get (ArrivalDayBinary st) (l, d) = Some a /\
             q = (inject_Z d * s a)%Q)
          (range 1 7) days ->
  (1 <= Qsum days <= 6)%Q.
Proof.
  intros Hok Hl Hday Hf HFd.
  destruct (arrival_day_forces_use Hok Hl Hday Hf) as (z & Hz & Hz1).
  destruct Hday as (terms & z' & Hz' & HFt & Hin).
  assert (z' = z) by congruence. subst z'.
  pose proof (feasible_holds Hf Hin) as Hh. unfold holds in Hh. simpl in Hh.
  set (g := fun d => match dict_get (ArrivalDayBinary st) (l, d) with
                     | Some a => s a
                     | None => 0%Q
                     end).
  assert (Hsum : (Qsum (map g (range 1 7)) == 1)%Q).
  { rewrite <- Hh. symmetry. apply (Qsum_Forall2 _ _ s HFt).
    intros d e _ (a & Ha & ->). simpl. unfold g. rewrite Ha, Hz1. lra. }
  assert (Hdays : (Qsum days == Qsum (map (fun d => inject_Z d * g d) (range 1 7)))%Q).
  { apply (Qsum_Forall2_values _ _ _ _ HFd).
    intros d q _ (a & Ha & ->). unfold g. rewrite Ha. reflexivity. }
  destruct (day_sum_bounds g (range 1 7)) as (B1 & B6).
  { intros d Hd. split; [apply range_In in Hd; lia|].
    destruct Hok as (_ & _ & _ & HA).
    destruct (HA l d Hl Hd) as (a & Ha & Hdecl). unfold g. rewrite Ha.
    destruct (respects_binary (feasible_declared Hf Hdecl) eq_refl) as [E|E];
      rewrite E; lra. }
  rewrite Hdays. split; lra.
Qed.

(** X13. After a build on a fresh optimizer, if the solver ends with
    status OPTIMAL, TIME_LIMIT or SUBOPTIMAL and a solution that is
    (exactly) feasible for the model, and the directory [output] exists,
    then [solve] returns, having written its table to
    [output/output.csv], and the table has a row for every valid
    combination: its truck is in the pool, its departure time is not
    before the release hour of the consignment (the hour of
    [planned_end_of_loading] in the first manifest row with the
    consignment's id), its arrival day is between 1 and 6, and every
    row of the table for the same combination names the same truck. *)
Theorem X13_result_table_of_feasible sdf ddf tdf srcs dst st
    (optimize : Model -> Outcome) (fs : FileSystem) status
    (sol : assignment) i j k :
  build srcs dst (new_optimizer sdf ddf tdf) = Ok tt st ->
  optimize (model (with_time_limit st)) = Finished status (Some sol) ->
  In status [OPTIMAL; TIME_LIMIT; SUBOPTIMAL] ->
  output_dir fs = true ->
  feasible (model st) sol ->
  In (i, j, k) (valid_combinations st) ->
  exists rows row r,
    solve optimize fs st
    = Ok (rows, mkFileSystem true (Some rows)) (with_time_limit st) /\
    In row rows /\
    Origin_PZA row = i /\ Destination_PZE row = j /\ Consignment_ID row = k /\
    In (Truck_Id row) (trucks st) /\
    hd_error (filter (fun r => key_eqb (id r) k) sdf) = Some r /\
    (inject_Z (hour (planned_end_of_loading r)) <= Departure_time row)%Q /\
    (1 <= Arrival_Day row <= 6)%Q /\
    forall row', In row' rows ->
      Origin_PZA row' = i -> Destination_PZE row' = j ->
      Consignment_ID row' = k -> Truck_Id row' = Truck_Id row.
Proof.
  intros Hb Hopt Hst Hdir Hf Hc.
  destruct (built_data_ok _ _ _ _ Hb) as (Hok & Hd).
  pose proof (X_keys_built _ _ _ _ _ _ Hb) as Hkeys.
  destruct (solve_returns optimize fs st status sol Hok Hd
              (fun i j k l H => proj1 (Hkeys i j k l) H) Hopt Hst)
    as (data & Hs & HF).
  unfold written in Hs. rewrite Hdir in Hs.
  pose proof (build_inv Hb) as Hbuilt.
  destruct (built_tables Hbuilt) as (_ & _ & Etr & Esdf & _).
  destruct Hbuilt as (s1 & _ & _ & _ & _ & Hcp & _).
  destruct Hcp as (_ & Hrel & _ & Hasg & Hday & _).
  assert (Hnd : NoDup (trucks st)) by (rewrite Etr; apply range_NoDup).
  destruct (exactly_one_truck st sol i j k Hok Hnd Hc (Hasg _ Hc) Hday Hf)
    as (l & Hl & (x & Hx & Hx1) & (z & Hz & Hz1) & Huniq).
  destruct (Forall2_In_l _ _ _ (i, j, k, l) HF) as (d & Hdin & Hrow).
  { apply Hkeys. auto. }
  destruct Hrow as (z' & x' & t & shift & lane & days
                    & Hz' & Hx' & Ht & _ & _ & HFd & Ed).
  assert (z' = z) by congruence. assert (x' = x) by congruence. subst z' x'.
  rewrite (proj2 (Qeq_bool_iff _ _) Hz1), (proj2 (Qeq_bool_iff _ _) Hx1) in Ed.
  simpl in Ed.
  destruct (Hrel (i, j, k) l Hc Hl) as (rt & t' & x' & Hrt & Ht' & Hx2 & Hin).
  assert (t' = t) by congruence. assert (x' = x) by congruence. subst t' x'.
  rewrite Esdf in Hrt.
  change (source_df (new_optimizer sdf ddf tdf)) with sdf in Hrt.
  apply hd_error_map in Hrt. destruct Hrt as (r & Hr & <-).
  exists (List.concat data),
         (mkRow i j k l (sol t) (Qsum days) (Start_of_shift shift)
                (End_of_lay_on shift) (OSRM_time lane / 3600)), r.
  split; [exact Hs|]. split.
  { apply in_concat. exists d. split; [exact Hdin | rewrite Ed; now left]. }
  split; [reflexivity|]. split; [reflexivity|]. split; [reflexivity|].
  split; [exact Hl|]. split; [exact Hr|]. split; [|split].
  - pose proof (feasible_holds Hf Hin) as Hh. unfold holds in Hh. simpl in Hh.
    rewrite Hx1 in Hh. simpl. lra.
  - exact (arrival_day_bounds st sol l days Hok Hl (Hday l Hl) Hf HFd).
  - intros row' Hin' Ei Ej Ek. simpl.
    apply in_concat in Hin'. destruct Hin' as (d' & Hd' & Hr').
    destruct (Forall2_In_r _ _ _ d' HF Hd') as ([[[i' j'] k'] l'] & Hk' & Hrow').
    destruct Hrow' as (z' & x' & t' & shift' & lane' & days'
                       & Hz2 & Hx2' & _ & _ & _ & _ & Ed').
    destruct (Qeq_bool (sol z') 1) eqn:Bz; simpl in Ed';
      [|rewrite Ed' in Hr'; contradiction].
    destruct (Qeq_bool (sol x') 1) eqn:Bx; simpl in Ed';
      [|rewrite Ed' in Hr'; contradiction].
    rewrite Ed' in Hr'. destruct Hr' as [<-|[]].
    simpl in Ei, Ej, Ek. subst i' j' k'. simpl.
    apply Huniq.
    + exact (proj2 (proj1 (Hkeys i j k l') Hk')).
    + exists x'. split; [exact Hx2' | now apply Qeq_bool_iff].
Qed.

(** The row of the small instance: the consignment on truck 0, leaving
    at 8 and arriving on day 1, with the shift of "B" and the lane time
    of one hour. *)
Lemma ex_row_for rows :
  row_for ex_built ex_solution ("A"%string, "B"%string, 7%Z, 0%Z) rows ->
  exists row,
    rows = [row] /\
    Origin_PZA row = "A"%string /\ Destination_PZE row = "B"%string /\
    Consignment_ID row = 7%Z /\ Truck_Id row = 0%Z /\
    (Departure_time row == 8)%Q /\ (Arrival_Day row == 1)%Q /\
    (Destination_Start_Shift row == 7)%Q /\
    (Destination_End_Shift row == 19)%Q /\
    (Travel_Time row == 1)%Q.
Proof.
  pose proof (built_tables (build_inv ex_build_ok))
    as (Hok & _ & _ & _ & Eddf & Etdf & _).
  intros (z & x & t & shift & lane & days & Hz & Hx & Ht & Hs & Hl & HF & ->).
  unfold ex_solution in *.
  rewrite (by_name_Z ex_built ex_values Hok 0%Z z ex_truck_In Hz).
  rewrite (by_name_X ex_built ex_values Hok _ _ _ 0%Z x
             ex_combination_In ex_truck_In Hx).
  rewrite (by_name_T ex_built ex_values Hok 0%Z t ex_truck_In Ht).
  change (Qeq_bool (ex_values (Z_ 0)) 1
          && Qeq_bool (ex_values (X_ "A" "B" 7 0)) 1) with true.
  cbv iota.
  rewrite Eddf in Hs. rewrite Etdf in Hl.
  vm_compute in Hs. vm_compute in Hl.
  injection Hs as <-. injection Hl as <-.
  eexists. split; [reflexivity|].
  cbn [Origin_PZA Destination_PZE Consignment_ID Truck_Id Departure_time
       Arrival_Day Destination_Start_Shift Destination_End_Shift Travel_Time].
  repeat (split; [reflexivity|]).
  split; [|repeat split; reflexivity].
  rewrite (Qsum_Forall2_values _
             (fun d => inject_Z d * (if (d =? 1)%Z then 1 else 0))%Q _ _ HF).
  - reflexivity.
  - intros d q Hd (a & Ha & ->).
    rewrite (by_name_ArrivalDayBinary ex_built ex_values Hok 0%Z d a
               ex_truck_In Hd Ha).
    reflexivity.
Qed.

Lemma ex_key_In :
  In ("A"%string, "B"%string, 7%Z) (valid_combinations ex_built) /\
  In 0%Z (trucks ex_built).
Proof. split; [exact ex_combination_In | exact ex_truck_In]. Qed.

Lemma X8_witness :
  build ["A"%string] "B"%string
        (new_optimizer ex_source_df ex_destination_df ex_trucking_df)
  = Ok tt ex_built /\
  ex_optimize (model (with_time_limit ex_built))
  = Finished OPTIMAL (Some ex_solution) /\
  In OPTIMAL [OPTIMAL; TIME_LIMIT; SUBOPTIMAL] /\
  (exists rows row,
     solve ex_optimize (mkFileSystem true None) ex_built
     = Ok (rows, mkFileSystem true (Some rows)) (with_time_limit ex_built) /\
     In row rows /\
     Origin_PZA row = "A"%string /\ Destination_PZE row = "B"%string /\
     Consignment_ID row = 7%Z /\ Truck_Id row = 0%Z /\
     (Departure_time row == 8)%Q /\ (Arrival_Day row == 1)%Q /\
     (Destination_Start_Shift row == 7)%Q /\
     (Destination_End_Shift row == 19)%Q /\
     (Travel_Time row == 1)%Q) /\
  solve ex_optimize (mkFileSystem false None) ex_built
  = Raise OSError (with_time_limit ex_built).
Proof.
  split; [exact ex_build_ok|]. split; [reflexivity|].
  split; [exact ex_status_In|]. split.
  - destruct (X8_solve_rows _ _ _ _ _ _ ex_optimize (mkFileSystem true None)
                OPTIMAL ex_solution ex_build_ok eq_refl ex_status_In)
      as (data & HF & Hkeys & Hs & _).
    destruct (Forall2_In_l _ _ _ ("A"%string, "B"%string, 7%Z, 0%Z) HF
                (proj2 (Hkeys _ _ _ _) ex_key_In)) as (d & Hd & Hrow).
    destruct (ex_row_for d Hrow) as (row & -> & Hfields).
    exists (List.concat data), row.
    split; [exact (Hs eq_refl)|]. split; [|exact Hfields].
    apply in_concat. exists [row]. split; [exact Hd | now left].
  - destruct (X8_solve_rows _ _ _ _ _ _ ex_optimize (mkFileSystem false None)
                OPTIMAL ex_solution ex_build_ok eq_refl ex_status_In)
      as (data & _ & _ & _ & Hs).
    exact (Hs eq_refl).
Defined.

Lemma X13_witness :
  build ["A"%string] "B"%string
        (new_optimizer ex_source_df ex_destination_df ex_trucking_df)
  = Ok tt ex_built /\
  ex_optimize (model (with_time_limit ex_built))
  = Finished OPTIMAL (Some ex_solution) /\
  In OPTIMAL [OPTIMAL; TIME_LIMIT; SUBOPTIMAL] /\
  output_dir (mkFileSystem true None) = true /\
  feasible (model ex_built) ex_solution /\
  In ("A"%string, "B"%string, 7%Z) (valid_combinations ex_built) /\
  exists rows row,
    solve ex_optimize (mkFileSystem true None) ex_built
    = Ok (rows, mkFileSystem true (Some rows)) (with_time_limit ex_built) /\
    In row rows /\
    Origin_PZA row = "A"%string /\ Destination_PZE row = "B"%string /\
    Consignment_ID row = 7%Z /\
    In (Truck_Id row) (trucks ex_built) /\
    (inject_Z 8 <= Departure_time row)%Q /\
    (1 <= Arrival_Day row <= 6)%Q /\
    forall row', In row' rows ->
      Origin_PZA row' = "A"%string -> Destination_PZE row' = "B"%string ->
      Consignment_ID row' = 7%Z -> Truck_Id row' = Truck_Id row.
Proof.
  split; [exact ex_build_ok|]. split; [reflexivity|].
  split; [exact ex_status_In|]. split; [reflexivity|].
  split; [exact ex_feasible|]. split; [exact ex_combination_In|].
  destruct (X13_result_table_of_feasible _ _ _ _ _ _ ex_optimize
              (mkFileSystem true None) OPTIMAL ex_solution _ _ _
              ex_build_ok eq_refl ex_status_In eq_refl ex_feasible
              ex_combination_In)
    as (rows & row & r & Hs & Hin & Hi & Hj & Hk & Hl & Hr & Hrel & Hday & Hu).
  vm_compute in Hr. injection Hr as <-.
  exists rows, row.
  split; [exact Hs|]. split; [exact Hin|]. split; [exact Hi|].
  split; [exact Hj|]. split; [exact Hk|]. split; [exact Hl|].
  split; [exact Hrel|]. split; [exact Hday | exact Hu].
Defined.

(* ================================================================== *)
(** * The objective *)
(* ================================================================== *)

Lemma readonly_keeps {A} (m : M A) : readonly m -> keeps_objective m.
Proof. intros H s. now rewrite H. Qed.

Lemma keeps_bind {A B} (m : M A) (k : A -> M B) :
  keeps_objective m -> (forall a, keeps_objective (k a)) ->
  keeps_objective (bind m k).
Proof.
  intros Hm Hk s. unfold bind. specialize (Hm s).
  destruct (m s) as [a s'|e s']; simpl in Hm; [|exact Hm].
  now rewrite Hk.
Qed.

Lemma keeps_forM_ {A} (xs : list A) (body : A -> M unit) :
  (forall x, keeps_objective (body x)) -> keeps_objective (forM_ xs body).
Proof.
  intros Hb. induction xs as [|x r IH]; simpl.
  - intros s. reflexivity.
  - apply keeps_bind; [apply Hb | intros _; exact IH].
Qed.

Lemma keeps_mapM {A B} (f : A -> M B) xs :
  (forall x, keeps_objective (f x)) -> keeps_objective (mapM f xs).
Proof.
  intros Hf. induction xs as [|x r IH]; simpl.
  - intros s. reflexivity.
  - apply keeps_bind; [apply Hf|]. intros b.
    apply keeps_bind; [exact IH|]. intros bs s. reflexivity.
Qed.

Lemma keeps_addVar vt l u name : keeps_objective (addVar vt l u name).
Proof. intros s. reflexivity. Qed.

Lemma keeps_addConstr lhs sense rhs name :
  keeps_objective (addConstr lhs sense rhs name).
Proof. intros s. reflexivity. Qed.

Lemma keeps_modify (f : DHL_Optimization -> DHL_Optimization) :
  (forall s, objective (model (f s)) = objective (model s)) ->
  keeps_objective (modify f).
Proof. intros H s. apply H. Qed.

Ltac keeps_step :=
  lazymatch goal with
  | |- keeps_objective (ret _) => apply readonly_keeps, readonly_ret
  | |- keeps_objective (bind _ _) => apply keeps_bind; [|intros ?]
  | |- keeps_objective (addVar _ _ _ _) => apply keeps_addVar
  | |- keeps_objective (addConstr _ _ _ _) => apply keeps_addConstr
  | |- keeps_objective (values0 _) => apply readonly_keeps, readonly_values0
  | |- keeps_objective (lookup _ _ _) => apply readonly_keeps, readonly_lookup
  | |- keeps_objective (gets _) => apply readonly_keeps, readonly_gets
  | |- keeps_objective (modify _) => apply keeps_modify; intros ?; reflexivity
  | |- keeps_objective (forM_ _ _) => apply keeps_forM_; intros ?
  | |- keeps_objective (mapM _ _) => apply keeps_mapM; intros ?
  end.

Ltac keeps_auto :=
  repeat match goal with
         | |- keeps_objective (let '(_, _) := ?p in _) => destruct p
         | |- keeps_objective (match ?p with _ => _ end) => destruct p
         | |- keeps_objective _ => keeps_step
         end.

(** [add_constraints] never touches the objective. *)
Lemma add_constraints_keeps_objective : keeps_objective add_constraints.
Proof.
  unfold add_constraints, capacity_constraints, release_constraints,
    window_constraints, assignment_constraints, sorting_constraints,
    arrival_day_constraints, day_terms, getX, getZ, getT, getArrivalTime,
    getArrivalDayBinary.
  keeps_auto.
Qed.

Lemma extends_add_objective o s : extends s (add_objective o s).
Proof. repeat split; auto. Qed.

Lemma objective_add_objective o s : objective (model (add_objective o s)) = Some o.
Proof. reflexivity. Qed.

Lemma Forall2_map_r {A B C} (R : A -> B -> Prop) (R' : A -> C -> Prop)
    (f : B -> C) xs ys :
  Forall2 R xs ys -> (forall x y, R x y -> R' x (f y)) ->
  Forall2 R' xs (map f ys).
Proof. induction 1; intros H'; simpl; constructor; auto. Qed.

Lemma Qsum_eval_between {A} (R : A -> expr -> Prop) s (lo hi : Q) xs es :
  Forall2 R xs es ->
  (forall x e, In x xs -> R x e -> (lo <= eval s e <= hi)%Q) ->
  (lo * inject_Z (Z.of_nat (List.length xs)) <= Qsum (map (eval s) es))%Q /\
  (Qsum (map (eval s) es) <= hi * inject_Z (Z.of_nat (List.length xs)))%Q.
Proof.
  induction 1 as [|x e xs es HR HF IH]; intros Hb.
  - cbn [List.length map Qsum]. change (inject_Z (Z.of_nat 0)) with 0%Q.
    split; lra.
  - destruct (Hb x e (or_introl eq_refl) HR) as (H1 & H2).
    destruct IH as (IH1 & IH2);
      [intros x' e' Hx' HR'; apply (Hb x' e'); [now right | exact HR']|].
    cbn [List.length map Qsum].
    rewrite Nat2Z.inj_succ, <- Z.add_1_r, inject_Z_plus.
    change (inject_Z 1) with 1%Q. split; nra.
Qed.

(** The objective of a build that returned, and what
    [initialize_model] made it. *)
Lemma built_objective srcs dst self st :
  build srcs dst self = Ok tt st ->
  exists terms,
    objective (model st) = Some (quicksum terms, MINIMIZE) /\
    Forall2 (fun l e => exists z ds,
               dict_get (Z st) l = Some z /\
               day_terms_of st inject_Z l ds /\
               e = Mul (Var z) (quicksum ds))
            (trucks st) terms.
Proof.
  intros Hb.
  destruct (build_phases _ _ _ _ Hb) as (s1 & Hi & _ & Ha & Hx & _).
  destruct (initialize_model_state srcs dst self) as (terms & Hs & HF).
  pose proof (Ok_state_inj _ _ _ _ _ Hs Hi) as E.
  pose proof (extends_add_objective (quicksum terms, MINIMIZE)
                (init_loops (prepare srcs dst self))) as Hx0.
  pose proof (objective_add_objective (quicksum terms, MINIMIZE)
                (init_loops (prepare srcs dst self))) as Ho.
  rewrite E in Hx0, Ho. clear E Hs.
  revert HF Hx0. generalize (init_loops (prepare srcs dst self)).
  intros s0 HF Hx0.
  assert (Hx0t : extends s0 st) by (eapply extends_trans; eauto).
  exists terms. split.
  - pose proof (add_constraints_keeps_objective s1) as Hk.
    rewrite Ha in Hk. simpl in Hk. now rewrite Hk.
  - rewrite (frame_trucks (proj1 Hx0t)).
    eapply Forall2_weaken; [|exact HF].
    intros l e _ (z & ds & Hz & Hds & ->). exists z, ds.
    rewrite (frame_Z (proj1 Hx0t)).
    split; [exact Hz|]. split; [|reflexivity].
    exact (@day_terms_of_mono inject_Z l ds s0 st Hx0t Hds).
Qed.

(** X14. After a build the objective is the one [initialize_model]
    set: minimise the sum over the trucks of [Z[l]] times the sum over
    the days 1..6 of [d * ArrivalDayBinary[l, d]]; [add_constraints]
    leaves it untouched. In every feasible solution each truck
    contributes between 1 and 6, so the value of the objective lies
    between 300 and 1800: no solution costs less than 300. *)
Theorem X14_objective srcs dst self st :
  build srcs dst self = Ok tt st ->
  exists terms,
    objective (model st) = Some (quicksum terms, MINIMIZE) /\
    Forall2 (fun l e => exists z ds,
               dict_get (Z st) l = Some z /\
               day_terms_of st inject_Z l ds /\
               e = Mul (Var z) (quicksum ds))
            (trucks st) terms /\
    forall s, feasible (model st) s ->
              (300 <= eval s (quicksum terms) <= 1800)%Q.
Proof.
  intros Hb.
  destruct (built_objective _ _ _ _ Hb) as (terms & Ho & HF).
  exists terms. split; [exact Ho|]. split; [exact HF|].
  intros s Hf.
  pose proof (build_inv Hb) as Hbuilt.
  destruct (built_tables Hbuilt) as (Hok & _ & Etr & _).
  destruct Hbuilt as (s1 & _ & _ & _ & _ & Hcp & _).
  destruct Hcp as (_ & _ & _ & _ & Hday & _).
  destruct (Qsum_eval_between _ s 1 6 _ _ HF) as (B1 & B2).
  { intros l e Hl (z & ds & Hz & Hds & ->). simpl.
    destruct (arrival_day_forces_use Hok Hl (Hday l Hl) Hf) as (z' & Hz' & Hz1).
    assert (z' = z) by congruence. subst z'.
    pose proof (arrival_day_bounds st s l (map (eval s) ds) Hok Hl (Hday l Hl) Hf)
      as Hb16.
    rewrite Hz1.
    destruct Hb16 as (D1 & D6); [|split; lra].
    eapply Forall2_map_r; [exact Hds|].
    intros d e (a & Ha & _ & ->). exists a. split; [exact Ha | reflexivity]. }
  rewrite Etr, range_length in B1, B2.
  change (inject_Z (Z.of_nat (Z.to_nat (300 - 0)))) with 300%Q in B1, B2.
  simpl eval. split; lra.
Qed.

Lemma X14_witness :
  build ["A"%string] "B"%string ex_optimizer = Ok tt ex_built /\
  exists terms,
    objective (model ex_built) = Some (quicksum terms, MINIMIZE) /\
    Forall2 (fun l e => exists z ds,
               dict_get (Z ex_built) l = Some z /\
               day_terms_of ex_built inject_Z l ds /\
               e = Mul (Var z) (quicksum ds))
            (trucks ex_built) terms /\
    forall s, feasible (model ex_built) s ->
              (300 <= eval s (quicksum terms) <= 1800)%Q.
Proof.
  split; [exact ex_build_ok|].
  exact (X14_objective _ _ _ _ ex_build_ok).
Defined.

(* ================================================================== *)
(** * The variables the constraints mention *)
(* ================================================================== *)

Section Mentions.
Variable st : DHL_Optimization.
Hypothesis Hok : tables_ok st.

Lemma X_var_other i j k l x :
  In (i, j, k) (valid_combinations st) -> In l (trucks st) ->
  dict_get (X st) (i, j, k, l) = Some x ->
  declared_other_than_ArrivalTime st x.
Proof.
  intros Hc Hl Hx. destruct Hok as (HX & _).
  destruct (HX i j k l Hc Hl) as (x' & Hx' & Hd).
  assert (x' = x) by congruence. subst x'.
  eexists. split; [exact Hd | discriminate].
Qed.

Lemma Z_var_other l z :
  In l (trucks st) -> dict_get (Z st) l = Some z ->
  declared_other_than_ArrivalTime st z.
Proof.
  intros Hl Hz. destruct Hok as (_ & HZ & _).
  destruct (HZ l Hl) as (z' & Hz' & Hd).
  assert (z' = z) by congruence. subst z'.
  eexists. split; [exact Hd | discriminate].
Qed.

Lemma T_var_other l t :
  In l (trucks st) -> dict_get (T st) l = Some t ->
  declared_other_than_ArrivalTime st t.
Proof.
  intros Hl Ht. destruct Hok as (_ & _ & HT & _).
  destruct (HT l Hl) as (t' & Ht' & Hd).
  assert (t' = t) by congruence. subst t'.
  eexists. split; [exact Hd | discriminate].
Qed.

Lemma day_var_other l d a :
  In l (trucks st) -> In d (range 1 7) ->
  dict_get (ArrivalDayBinary st) (l, d) = Some a ->
  declared_other_than_ArrivalTime st a.
Proof.
  intros Hl Hd Ha. destruct Hok as (_ & _ & _ & HA).
  destruct (HA l d Hl Hd) as (a' & Ha' & Hdecl).
  assert (a' = a) by congruence. subst a'.
  eexists. split; [exact Hdecl | discriminate].
Qed.

(** The variables of a comprehension. *)
Lemma quicksum_vars {A} (R : A -> expr -> Prop) xs es v :
  Forall2 R xs es -> In v (flat_map vars_of es) ->
  exists x e, In x xs /\ R x e /\ In v (vars_of e).
Proof.
  intros HF Hin. apply in_flat_map in Hin. destruct Hin as (e & He & Hv).
  destruct (Forall2_In_r _ _ _ e HF He) as (x & Hx & HR). eauto.
Qed.

Lemma capacity_mentions l c v :
  In l (trucks st) -> capacity_shape st l c -> mentions c v ->
  declared_other_than_ArrivalTime st v.
Proof.
  intros Hl (xs & z & HF & Hz & ->) Hv. unfold mentions in Hv. simpl in Hv.
  apply in_app_or in Hv. destruct Hv as [Hv|[<-|[]]].
  - destruct (quicksum_vars _ _ _ v HF Hv) as ([[i j] k] & e & Hc & (x & Hx & ->) & Hin).
    destruct Hin as [<-|[]]. exact (X_var_other i j k l x Hc Hl Hx).
  - exact (Z_var_other l z Hl Hz).
Qed.

Lemma release_mentions cb l c v :
  In cb (valid_combinations st) -> In l (trucks st) ->
  release_shape st cb l c -> mentions c v ->
  declared_other_than_ArrivalTime st v.
Proof.
  intros Hc Hl Hs Hv. destruct cb as [[i j] k].
  destruct Hs as (rt & t & x & _ & Ht & Hx & ->).
  unfold mentions in Hv. simpl in Hv. destruct Hv as [<-|[<-|[]]].
  - exact (T_var_other l t Hl Ht).
  - exact (X_var_other i j k l x Hc Hl Hx).
Qed.

Lemma day_terms_mentions c0 l ds v :
  In l (trucks st) -> day_terms_of st c0 l ds ->
  In v (flat_map vars_of ds) -> declared_other_than_ArrivalTime st v.
Proof.
  intros Hl HF Hv.
  destruct (quicksum_vars _ _ _ v HF Hv) as (d & e & Hd & (a & Ha & _ & ->) & Hin).
  destruct Hin as [<-|[]]. exact (day_var_other l d a Hl Hd Ha).
Qed.

Lemma window_mentions cb l c v :
  In cb (valid_combinations st) -> In l (trucks st) ->
  window_shape st cb l c -> mentions c v ->
  declared_other_than_ArrivalTime st v.
Proof.
  intros Hc Hl Hs Hv. destruct cb as [[i j] k].
  destruct Hs as (ss & es & sec & t & x & ds & m
                  & _ & _ & _ & Ht & Hx & Hds & Hm & Hcc).
  assert (Hv' : In v ((((t :: nil) ++ (x :: nil)) ++ flat_map vars_of ds)
                      ++ (m :: nil))).
  { destruct Hcc as [-> | ->]; unfold mentions in Hv; simpl in Hv;
      rewrite app_nil_r in Hv; exact Hv. }
  apply in_app_or in Hv'. destruct Hv' as [Hv'|[<-|[]]].
  - apply in_app_or in Hv'. destruct Hv' as [[<-|[<-|[]]]|Hv'].
    + exact (T_var_other l t Hl Ht).
    + exact (X_var_other i j k l x Hc Hl Hx).
    + exact (day_terms_mentions _ l ds v Hl Hds Hv').
  - eexists. split; [exact Hm | discriminate].
Qed.

Lemma assignment_mentions cb c v :
  In cb (valid_combinations st) -> assignment_shape st cb c -> mentions c v ->
  declared_other_than_ArrivalTime st v.
Proof.
  intros Hc Hs Hv. destruct cb as [[i j] k]. destruct Hs as (terms & HF & ->).
  unfold mentions in Hv. simpl in Hv. rewrite app_nil_r in Hv.
  destruct (quicksum_vars _ _ _ v HF Hv)
    as (l & e & Hl & (x & z & Hx & Hz & ->) & Hin).
  destruct Hin as [<-|[<-|[]]].
  - exact (X_var_other i j k l x Hc Hl Hx).
  - exact (Z_var_other l z Hl Hz).
Qed.

Lemma sorting_mentions j d c v :
  In d (range 1 7) -> sorting_shape st j d c -> mentions c v ->
  declared_other_than_ArrivalTime st v.
Proof.
  intros Hd (e & b & cap & terms & _ & _ & _ & HF & ->) Hv.
  unfold mentions in Hv. simpl in Hv. rewrite app_nil_r in Hv.
  destruct (quicksum_vars _ _ _ v HF Hv)
    as ([[i k] l] & t & Hin & (x & q & a & Hx & _ & Ha & ->) & Hvt).
  apply sorting_triples_In in Hin. destruct Hin as (_ & _ & _ & Hl & Hc).
  destruct Hvt as [<-|[<-|[]]].
  - exact (X_var_other i j k l x Hc Hl Hx).
  - exact (day_var_other l d a Hl Hd Ha).
Qed.

Lemma arrival_day_mentions l c v :
  In l (trucks st) -> arrival_day_shape st l c -> mentions c v ->
  declared_other_than_ArrivalTime st v.
Proof.
  intros Hl (terms & z & Hz & HF & ->) Hv.
  unfold mentions in Hv. simpl in Hv. rewrite app_nil_r in Hv.
  destruct (quicksum_vars _ _ _ v HF Hv) as (d & e & Hd & (a & Ha & ->) & Hin).
  destruct Hin as [<-|[<-|[]]].
  - exact (day_var_other l d a Hl Hd Ha).
  - exact (Z_var_other l z Hl Hz).
Qed.

Lemma family_mentions c v :
  family_shape st c -> mentions c v -> declared_other_than_ArrivalTime st v.
Proof.
  intros [l Hl H|cb l Hc Hl H|cb l Hc Hl H|cb Hc H|j d Hj Hd H|l Hl H] Hv.
  - exact (capacity_mentions l c v Hl H Hv).
  - exact (release_mentions cb l c v Hc Hl H Hv).
  - exact (window_mentions cb l c v Hc Hl H Hv).
  - exact (assignment_mentions cb c v Hc H Hv).
  - exact (sorting_mentions j d c v Hd H Hv).
  - exact (arrival_day_mentions l c v Hl H Hv).
Qed.
End Mentions.

Lemma truck_step_ArrivalTime l s :
  In (ArrivalTime_decl l) (vars (model (truck_step l s))).
Proof.
  unfold truck_step.
  destruct (fold_appends_standard
              (fun d s => set_ArrivalDayBinary_var (l, d) s)
              (fun d s => ex_intro _ [ArrivalDayBinary_decl (l, d)]
                            (conj eq_refl (Forall_cons _ eq_refl (Forall_nil _))))
              (range 1 7)
              (set_ArrivalTime_var l (set_T_var l (set_Z_var l s))))
    as (ds & E & _).
  rewrite E. apply in_or_app. left. simpl. apply in_or_app. right. now left.
Qed.

Lemma fold_truck_step_ArrivalTime tr :
  forall s l, In l tr ->
    In (ArrivalTime_decl l)
       (vars (model (fold_left (fun s l => truck_step l s) tr s))).
Proof.
  induction tr as [|a r IH]; intros s l Hl; [contradiction|]. simpl.
  destruct (in_dec Z.eq_dec l r) as [Hr|Hr]; [now apply IH|].
  destruct Hl as [->|Hl]; [|contradiction].
  destruct (fold_appends_standard truck_step truck_step_standard r
              (truck_step l s)) as (ds & E & _).
  rewrite E. apply in_or_app. left. apply truck_step_ArrivalTime.
Qed.

Lemma init_loops_ArrivalTime s l :
  In l (trucks s) -> In (ArrivalTime_decl l) (vars (model (init_loops s))).
Proof. intros Hl. unfold init_loops. now apply fold_truck_step_ArrivalTime. Qed.

(** After a build every truck has its [ArrivalTime] variable. *)
Lemma built_ArrivalTime_declared srcs dst self st l :
  build srcs dst self = Ok tt st -> In l (trucks st) ->
  exists v, declared st v (ArrivalTime_decl l).
Proof.
  intros Hb Hl.
  destruct (build_phases _ _ _ _ Hb) as (s1 & Hi & _ & _ & Hx & _).
  destruct (initialize_model_state srcs dst self) as (terms & Hs & _).
  pose proof (Ok_state_inj _ _ _ _ _ Hs Hi) as E.
  destruct (inputs_lists _ _
              (eq_trans (initialize_model_inputs _ _ _ _ Hi)
                 (eq_sym (inputs_prepare srcs dst self)))) as (_ & Etr).
  rewrite (frame_trucks (proj1 Hx)), Etr in Hl.
  pose proof (init_loops_ArrivalTime (prepare srcs dst self) l Hl) as Hin.
  rewrite <- (add_objective_model (quicksum terms, MINIMIZE)), E in Hin.
  apply In_nth_error in Hin. destruct Hin as (v & Hv).
  exists v. apply Hx. exact Hv.
Qed.

(** X15. In the model of a build on a fresh optimizer, every variable
    a constraint mentions is declared in the model, and is an [X], [Z],
    [T], day-indicator or multiplier variable; the same holds for the
    objective. The [ArrivalTime_<l>] variable that [initialize_model]
    creates for every truck, with bounds 0 and 24, is mentioned by no
    constraint and not by the objective: the third family overwrites
    the table entry with an expression before any constraint reads
    it. *)
Theorem X15_ArrivalTime_variables_unused sdf ddf tdf srcs dst st :
  build srcs dst (new_optimizer sdf ddf tdf) = Ok tt st ->
  (forall c v, In c (constrs (model st)) -> mentions c v ->
               declared_other_than_ArrivalTime st v) /\
  (forall terms v, objective (model st) = Some (quicksum terms, MINIMIZE) ->
                   In v (vars_of (quicksum terms)) ->
                   declared_other_than_ArrivalTime st v) /\
  forall l, In l (trucks st) ->
    exists a, declared st a (mkVar CONTINUOUS 0 (Some 24%Q) (ArrivalTime_ l)) /\
              (forall c, In c (constrs (model st)) -> ~ mentions c a) /\
              (forall terms, objective (model st) = Some (quicksum terms, MINIMIZE) ->
                             ~ In a (vars_of (quicksum terms))).
Proof.
  intros Hb.
  destruct (built_data_ok _ _ _ _ Hb) as (Hok & _).
  destruct (fresh_build_complete _ _ _ _ _ _ Hb) as (Hshape & _).
  assert (Hcon : forall c v, In c (constrs (model st)) -> mentions c v ->
                             declared_other_than_ArrivalTime st v).
  { intros c v Hc Hv. exact (family_mentions st Hok c v (Hshape c Hc) Hv). }
  assert (Hobj : forall terms v,
             objective (model st) = Some (quicksum terms, MINIMIZE) ->
             In v (vars_of (quicksum terms)) ->
             declared_other_than_ArrivalTime st v).
  { intros terms v Ho Hv.
    destruct (built_objective _ _ _ _ Hb) as (terms' & Ho' & HF).
    assert (terms' = terms) by congruence. subst terms'.
    simpl in Hv.
    destruct (quicksum_vars _ _ _ v HF Hv)
      as (l & e & Hl & (z & ds & Hz & Hds & ->) & Hin).
    simpl in Hin. destruct Hin as [<-|Hin].
    - exact (Z_var_other st Hok l z Hl Hz).
    - exact (day_terms_mentions st Hok _ l ds v Hl Hds Hin). }
  split; [exact Hcon|]. split; [exact Hobj|].
  intros l Hl.
  destruct (built_ArrivalTime_declared _ _ _ _ l Hb Hl) as (a & Ha).
  exists a. split; [exact Ha|].
  assert (Hno : ~ declared_other_than_ArrivalTime st a).
  { intros (d & Hd & Hn). unfold declared in *.
    assert (d = ArrivalTime_decl l) by congruence. subst d.
    exact (Hn l eq_refl). }
  split.
  - intros c Hc Hv. exact (Hno (Hcon c a Hc Hv)).
  - intros terms Ho Hv. exact (Hno (Hobj terms a Ho Hv)).
Qed.

Lemma X15_witness :
  build ["A"%string] "B"%string
        (new_optimizer ex_source_df ex_destination_df ex_trucking_df)
  = Ok tt ex_built /\
  (forall c v, In c (constrs (model ex_built)) -> mentions c v ->
               declared_other_than_ArrivalTime ex_built v) /\
  (forall terms v,
     objective (model ex_built) = Some (quicksum terms, MINIMIZE) ->
     In v (vars_of (quicksum terms)) ->
     declared_other_than_ArrivalTime ex_built v) /\
  forall l, In l (trucks ex_built) ->
    exists a,
      declared ex_built a (mkVar CONTINUOUS 0 (Some 24%Q) (ArrivalTime_ l)) /\
      (forall c, In c (constrs (model ex_built)) -> ~ mentions c a) /\
      (forall terms,
         objective (model ex_built) = Some (quicksum terms, MINIMIZE) ->
         ~ In a (vars_of (quicksum terms))).
Proof.
  split; [exact ex_build_ok|].
  exact (X15_ArrivalTime_variables_unused _ _ _ _ _ _ ex_build_ok).
Defined.

(* ================================================================== *)
(** * Working hours and the sorting bound *)
(* ================================================================== *)

Lemma hours_of_bounds t : valid_time t -> (0 <= hours_of t < 24)%Q.
Proof.
  intros ((H0 & H23) & (M0 & M59)). unfold hours_of.
  assert (E : (0 <= inject_Z (minute t) / 60 < 1)%Q).
  { assert (0 <= inject_Z (minute t))%Q by (rewrite <- (Zle_Qle 0); exact M0).
    assert (inject_Z (minute t) <= 59)%Q by (rewrite <- (Zle_Qle _ 59); exact M59).
    split.
    - apply Qle_shift_div_l; lra.
    - apply Qlt_shift_div_r; lra. }
  assert (0 <= inject_Z (hour t))%Q by (rewrite <- (Zle_Qle 0); exact H0).
  assert (inject_Z (hour t) <= 23)%Q by (rewrite <- (Zle_Qle _ 23); exact H23).
  lra.
Qed.

(** The working hours [normalize] leaves: at least 0, less than 24, and
    0 when the two clock times coincide. *)
Lemma normalize_working_hours r :
  valid_time (raw_Start_of_shift r) -> valid_time (raw_End_of_lay_on r) ->
  (0 <= snd (normalize r) - fst (normalize r))%Q /\
  (snd (normalize r) - fst (normalize r) < 24)%Q /\
  ((hours_of (raw_End_of_lay_on r) == hours_of (raw_Start_of_shift r))%Q ->
   (snd (normalize r) - fst (normalize r) == 0)%Q).
Proof.
  intros Hs He. unfold normalize.
  pose proof (hours_of_bounds _ Hs) as Hs'.
  pose proof (hours_of_bounds _ He) as He'.
  destruct (Qlt_le_dec (hours_of (raw_End_of_lay_on r))
                       (hours_of (raw_Start_of_shift r))) as [Hlt|Hge]; simpl.
  - split; [lra|]. split; [lra|]. intros E. lra.
  - split; [lra|]. split; [lra|]. intros E. lra.
Qed.

Lemma destination_values_normalize {A} (c : destination_row -> A)
    (c' : raw_destination_row -> A) raw j :
  (forall r, c (mkDestination (raw_Destination_ID r) (fst (normalize r))
                              (snd (normalize r)) (raw_Sorting_capacity r))
             = c' r) ->
  destination_values c (normalize_shift_times raw) j
  = map c' (filter (fun r => key_eqb (raw_Destination_ID r) j) raw).
Proof.
  intros Hc. unfold destination_values, normalize_shift_times.
  induction raw as [|r rest IH]; [reflexivity|].
  cbn [map filter].
  change (let '(s, e) := normalize r in
          mkDestination (raw_Destination_ID r) s e (raw_Sorting_capacity r))
    with (mkDestination (raw_Destination_ID r) (fst (normalize r))
                        (snd (normalize r)) (raw_Sorting_capacity r)).
  cbn [Destination_ID].
  destruct (key_eqb (raw_Destination_ID r) j); cbn [map]; now rewrite IH, ?Hc.
Qed.

(** X16. When the destination table is the result of
    [normalize_shift_times] on rows with valid clock times, the bound
    of the constraint [SortingCapacity_<destination>_<d>] of a built
    model is half the working hours of the first row of the selected
    destination times its sorting capacity; the working hours are at
    least 0 and less than 24, and they are 0, not 24, when the shift
    ends at the very time it starts. *)
Theorem X16_sorting_bound_from_shift raw sdf tdf srcs dst st d :
  Forall (fun r => valid_time (raw_Start_of_shift r) /\
                   valid_time (raw_End_of_lay_on r)) raw ->
  build srcs dst (new_optimizer sdf (normalize_shift_times raw) tdf) = Ok tt st ->
  In d (range 1 7) ->
  exists r terms,
    hd_error (filter (fun r => key_eqb (raw_Destination_ID r) dst) raw) = Some r /\
    let working_hours := (snd (normalize r) - fst (normalize r))%Q in
    In (mkConstr (quicksum terms) LE
                 (Const (working_hours / 2 * raw_Sorting_capacity r))
                 (Some (SortingCapacity_ dst d)))
       (constrs (model st)) /\
    (0 <= working_hours)%Q /\ (working_hours < 24)%Q /\
    ((hours_of (raw_End_of_lay_on r) == hours_of (raw_Start_of_shift r))%Q ->
     (working_hours == 0)%Q).
Proof.
  intros Hvalid Hb Hd.
  destruct (build_phases _ _ _ _ Hb) as (s1 & _ & _ & _ & _ & _ & Hsort).
  destruct (built_tables (build_inv Hb)) as (_ & _ & _ & _ & Eddf & _ & Edl & _).
  destruct (Hsort dst) with (d := d) as (c & Hs & Hc);
    [rewrite Edl; now left | exact Hd|].
  destruct Hs as (e & b & cap & terms & He & Hb' & Hcap & _ & ->).
  rewrite Eddf in He, Hb', Hcap.
  change (destination_df (new_optimizer sdf (normalize_shift_times raw) tdf))
    with (normalize_shift_times raw) in He, Hb', Hcap.
  rewrite (destination_values_normalize End_of_lay_on
             (fun r => snd (normalize r)) raw dst (fun r => eq_refl)) in He.
  rewrite (destination_values_normalize Start_of_shift
             (fun r => fst (normalize r)) raw dst (fun r => eq_refl)) in Hb'.
  rewrite (destination_values_normalize Sorting_capacity
             raw_Sorting_capacity raw dst (fun r => eq_refl)) in Hcap.
  apply hd_error_map in He. destruct He as (r & Hr & <-).
  apply hd_error_map in Hb'. destruct Hb' as (r' & Hr' & <-).
  apply hd_error_map in Hcap. destruct Hcap as (r'' & Hr'' & <-).
  assert (r' = r) by congruence. assert (r'' = r) by congruence. subst r' r''.
  exists r, terms. split; [exact Hr|]. cbv zeta. split; [exact Hc|].
  assert (Hin : In r raw).
  { assert (Hf : In r (filter (fun r => key_eqb (raw_Destination_ID r) dst) raw)).
    { destruct (filter _ raw) as [|r0 rest]; [discriminate|].
      injection Hr as ->. now left. }
    apply filter_In in Hf. tauto. }
  rewrite Forall_forall in Hvalid. destruct (Hvalid r Hin) as (Hvs & Hve).
  exact (normalize_working_hours r Hvs Hve).
Qed.

Lemma ex_raw_valid :
  Forall (fun r => valid_time (raw_Start_of_shift r) /\
                   valid_time (raw_End_of_lay_on r)) ex_raw_destination_df.
Proof. repeat constructor; simpl; lia. Qed.

Lemma X16_witness :
  Forall (fun r => valid_time (raw_Start_of_shift r) /\
                   valid_time (raw_End_of_lay_on r)) ex_raw_destination_df /\
  build ["A"%string] "B"%string
        (new_optimizer ex_source_df
           (normalize_shift_times ex_raw_destination_df) ex_trucking_df)
  = Ok tt ex_built /\
  In 1%Z (range 1 7) /\
  exists r terms,
    hd_error (filter (fun r => key_eqb (raw_Destination_ID r) "B"%string)
                     ex_raw_destination_df) = Some r /\
    let working_hours := (snd (normalize r) - fst (normalize r))%Q in
    In (mkConstr (quicksum terms) LE
                 (Const (working_hours / 2 * raw_Sorting_capacity r))
                 (Some (SortingCapacity_ "B"%string 1%Z)))
       (constrs (model ex_built)) /\
    (0 <= working_hours)%Q /\ (working_hours < 24)%Q /\
    ((hours_of (raw_End_of_lay_on r) == hours_of (raw_Start_of_shift r))%Q ->
     (working_hours == 0)%Q).
Proof.
  split; [exact ex_raw_valid|]. split; [exact ex_build_ok|].
  split; [exact ex_day_In|].
  exact (X16_sorting_bound_from_shift _ _ _ _ _ _ _
           ex_raw_valid ex_build_ok ex_day_In).
Defined.
